(** * ndash-bind: zone files, named.conf.local block surgery and the commit pipeline

    Shallow embedding of the text-processing core of the dashboard
    ([src/services/bindService.js] and the [bindConfig] helpers) together
    with the properties stated about it.

    JavaScript strings are sequences of UTF-16 code units; they are modelled
    as [list N], one number per code unit, so that the regular-expression
    classes ([\s], [\d], [\b], [.]) have exactly the extension they have in
    the interpreter.  String literals are written [str "..."]. *)

From Stdlib Require Import ZArith NArith List Lia Bool Decimal DecimalFacts DecimalPos DecimalN DecimalZ.
From Stdlib Require Strings.String Strings.Ascii.
From stdpp Require Import gmap.
Import ListNotations.
Import String.StringSyntax.
Delimit Scope string_scope with string.

Local Open Scope N_scope.

(* ===================================================================== *)
(** ** JavaScript strings and numbers *)
(* ===================================================================== *)

Module JS.

Abbreviation text := (list N).

(** A string literal as a list of code units (ASCII literals only). *)
Definition str (s : String.string) : text :=
  map Ascii.N_of_ascii (String.list_ascii_of_string s).
Arguments str s%_string : simpl never.

(** ECMAScript [WhiteSpace] and [LineTerminator] code points: the class [\s]
    and the characters removed by [String.prototype.trim]. *)
Definition is_ws (c : N) : bool :=
  ((9 <=? c) && (c <=? 13)) || (c =? 32) || (c =? 160) || (c =? 5760)
  || ((8192 <=? c) && (c <=? 8202)) || (c =? 8232) || (c =? 8233)
  || (c =? 8239) || (c =? 8287) || (c =? 12288) || (c =? 65279).

(** [LineTerminator]: what [.] does not match. *)
Definition is_line_terminator (c : N) : bool :=
  (c =? 10) || (c =? 13) || (c =? 8232) || (c =? 8233).

Definition is_digit (c : N) : bool := (48 <=? c) && (c <=? 57).

Definition is_upper (c : N) : bool := (65 <=? c) && (c <=? 90).
Definition is_lower (c : N) : bool := (97 <=? c) && (c <=? 122).

(** The class [\w], which decides [\b]. *)
Definition is_word (c : N) : bool :=
  is_digit c || is_upper c || is_lower c || (c =? 95).

(** Canonicalisation used by the [i] flag (no [u] flag) when the pattern
    character is ASCII: only ASCII letters fold onto ASCII letters. *)
Definition upper (c : N) : N := if is_lower c then c - 32 else c.
Definition eq_ci (a b : N) : bool := upper a =? upper b.

Definition text_eqb (a b : text) : bool := bool_decide (a = b).

(** *** Searching *)

Fixpoint starts_with (p s : text) : bool :=
  match p, s with
  | [], _ => true
  | a :: p', b :: s' => (a =? b) && starts_with p' s'
  | _ :: _, [] => false
  end.

(** An ASCII literal [p] under the [i] flag, anchored at the head of [s];
    returns what follows it. *)
Fixpoint match_ci (p s : text) : option text :=
  match p, s with
  | [], _ => Some s
  | a :: p', b :: s' => if eq_ci b a then match_ci p' s' else None
  | _ :: _, [] => None
  end.

(** [s.indexOf(p)]: [None] stands for -1. *)
Fixpoint indexOf (p s : text) : option nat :=
  if starts_with p s then Some 0%nat
  else match s with
       | [] => None
       | _ :: s' => option_map S (indexOf p s')
       end.

Definition includes (p s : text) : bool :=
  match indexOf p s with Some _ => true | None => false end.

(** [s.indexOf(c)] for a single character, kept separate because the
    brace scanners only ever look for braces. *)
Fixpoint indexOf_char (c : N) (s : text) : option nat :=
  match s with
  | [] => None
  | a :: s' => if a =? c then Some 0%nat else option_map S (indexOf_char c s')
  end.

(** [s.slice(a, b)] and [s.slice(a)] for in-range non-negative bounds. *)
Definition slice (a b : nat) (s : text) : text := firstn (b - a) (skipn a s).
Definition slice_from (a : nat) (s : text) : text := skipn a s.

(** *** Trimming, splitting, joining, padding *)

Fixpoint skip_ws (s : text) : text :=
  match s with
  | c :: r => if is_ws c then skip_ws r else s
  | [] => []
  end.

Definition trimStart (s : text) : text := skip_ws s.

(** Drops the trailing white space: a character is kept when it is not
    white space or when something is kept after it. *)
Fixpoint trimEnd (s : text) : text :=
  match s with
  | [] => []
  | c :: r =>
      match trimEnd r with
      | [] => if is_ws c then [] else [c]
      | r' => c :: r'
      end
  end.

Definition trim (s : text) : text := trimEnd (trimStart s).

(** [s.split(sep)] for a one-character separator. *)
Fixpoint split_on (sep : N -> bool) (s : text) : list text :=
  match s with
  | [] => [[]]
  | c :: r =>
      if sep c then [] :: split_on sep r
      else match split_on sep r with
           | p :: ps => (c :: p) :: ps
           | [] => [[c]]
           end
  end.

Definition split_lines (s : text) : list text := split_on (N.eqb 10) s.

(** [s.split(/\s+/)]: a maximal run of white space is one separator. *)
Fixpoint split_ws (s : text) : list text :=
  match s with
  | [] => [[]]
  | c :: r =>
      if is_ws c then
        match r with
        | c' :: _ => if is_ws c' then split_ws r else [] :: split_ws r
        | [] => [] :: split_ws r
        end
      else match split_ws r with
           | p :: ps => (c :: p) :: ps
           | [] => [[c]]
           end
  end.

(** [parts.join(sep)]. *)
Fixpoint join (sep : text) (l : list text) : text :=
  match l with
  | [] => []
  | [x] => x
  | x :: r => x ++ sep ++ join sep r
  end.

Definition padEnd (n : nat) (s : text) : text := s ++ repeat 32 (n - length s).
Definition padStart0 (n : nat) (s : text) : text := repeat 48 (n - length s) ++ s.

(** *** Numbers

    Only integral values occur in this part of the program; [JNaN] is the
    result of a failed conversion.  Integers are kept exact (the
    interpreter rounds above 2^53 and prints an exponent from 10^21 on). *)

Inductive num := JNum (z : Z) | JNaN.

Fixpoint uint_chars (u : Decimal.uint) : text :=
  match u with
  | Nil => []
  | D0 u => 48 :: uint_chars u
  | D1 u => 49 :: uint_chars u
  | D2 u => 50 :: uint_chars u
  | D3 u => 51 :: uint_chars u
  | D4 u => 52 :: uint_chars u
  | D5 u => 53 :: uint_chars u
  | D6 u => 54 :: uint_chars u
  | D7 u => 55 :: uint_chars u
  | D8 u => 56 :: uint_chars u
  | D9 u => 57 :: uint_chars u
  end.

(** [n.toString()] for an integer: plain decimal, which is what the
    interpreter prints for every safe integer. *)
Definition Z_toString (z : Z) : text :=
  match z with
  | Zneg p => 45 :: uint_chars (Pos.to_uint p)
  | _ => uint_chars (N.to_uint (Z.to_N z))
  end.

Definition toString (x : num) : text :=
  match x with
  | JNum z => Z_toString z
  | JNaN => str "NaN"
  end.

(** [x + k] on numbers. *)
Definition num_add (x : num) (k : Z) : num :=
  match x with
  | JNum z => JNum (z + k)
  | JNaN => JNaN
  end.

(** Truthiness of a possibly missing number, as used by [x || default]. *)
Definition num_or (x : option num) (d : Z) : num :=
  match x with
  | Some (JNum z) => if (z =? 0)%Z then JNum d else JNum z
  | _ => JNum d
  end.

(** Longest prefix satisfying [p], and the rest. *)
Fixpoint span (p : N -> bool) (s : text) : text * text :=
  match s with
  | c :: r => if p c then let '(a, b) := span p r in (c :: a, b) else ([], s)
  | [] => ([], [])
  end.

(** Value of a run of decimal digits, most significant first. *)
Definition digits_value (acc : N) (s : text) : N :=
  fold_left (fun a c => a * 10 + (c - 48)) s acc.

Definition is_hex_digit (c : N) : bool :=
  is_digit c || ((65 <=? c) && (c <=? 70)) || ((97 <=? c) && (c <=? 102)).

Definition hex_digit_value (c : N) : N :=
  if is_digit c then c - 48 else if is_upper c then c - 55 else c - 87.

Definition hex_value (acc : N) (s : text) : N :=
  fold_left (fun a c => a * 16 + hex_digit_value c) s acc.

(** [parseInt(s)] with no radix argument; exact, as the interpreter is
    when the value is a safe integer. *)
Definition parseInt (s : text) : num :=
  let s1 := trimStart s in
  let '(neg, s2) :=
    match s1 with
    | c :: r => if c =? 45 then (true, r)
                else if c =? 43 then (false, r)
                else (false, s1)
    | [] => (false, s1)
    end in
  let signed (n : N) := JNum (if neg then - Z.of_N n else Z.of_N n)%Z in
  let hex :=
    match s2 with
    | c :: x :: _ => (c =? 48) && ((x =? 120) || (x =? 88))
    | _ => false
    end in
  if hex then
    match fst (span is_hex_digit (skipn 2 s2)) with
    | [] => JNaN
    | ds => signed (hex_value 0 ds)
    end
  else
    match fst (span is_digit s2) with
    | [] => JNaN
    | ds => signed (digits_value 0 ds)
    end.

Definition nonempty_all (p : N -> bool) (s : text) : bool :=
  match s with [] => false | _ => forallb p s end.

(** [ExponentPart], or nothing. *)
Definition exponent_ok (s : text) : bool :=
  match s with
  | [] => true
  | c :: r =>
      ((c =? 101) || (c =? 69)) &&
      match r with
      | c2 :: r2 =>
          if (c2 =? 43) || (c2 =? 45) then nonempty_all is_digit r2
          else nonempty_all is_digit r
      | [] => false
      end
  end.

(** [StrUnsignedDecimalLiteral]. *)
Definition unsigned_decimal_ok (s : text) : bool :=
  if text_eqb s (str "Infinity") then true
  else
    let '(ip, r) := span is_digit s in
    let dotted := match r with c :: _ => c =? 46 | [] => false end in
    if dotted then
      let '(fp, r2) := span is_digit (skipn 1 r) in
      (negb (text_eqb ip []) || negb (text_eqb fp [])) && exponent_ok r2
    else negb (text_eqb ip []) && exponent_ok r.

(** [NonDecimalIntegerLiteral]: 0x, 0o and 0b forms, unsigned. *)
Definition non_decimal_ok (s : text) : bool :=
  match s with
  | c :: x :: r =>
      (c =? 48) &&
      (if (x =? 120) || (x =? 88) then nonempty_all is_hex_digit r
       else if (x =? 111) || (x =? 79) then
         nonempty_all (fun c => (48 <=? c) && (c <=? 55)) r
       else if (x =? 98) || (x =? 66) then
         nonempty_all (fun c => (c =? 48) || (c =? 49)) r
       else false)
  | _ => false
  end.

(** [isNaN(s)] for a string [s]: [Number(s)] is [NaN] unless [s], trimmed,
    is empty or a [StringNumericLiteral]. *)
Definition isNaN_str (s : text) : bool :=
  let t := trim s in
  match t with
  | [] => false
  | c :: r =>
      if (c =? 43) || (c =? 45) then negb (unsigned_decimal_ok r)
      else negb (non_decimal_ok t || unsigned_decimal_ok t)
  end.

End JS.

(* ===================================================================== *)
(** ** Zone master files ([bindService.js]) *)
(* ===================================================================== *)

Module ZoneRecords.
Import JS.

Definition nl : text := [10].

(** A resource record as the service passes it around: a plain object whose
    fields may be missing ([None] is [undefined]).  [rid] is the field
    [id]. *)
Record ResourceRecord := mkRecord {
  rid : option Z;
  name : text;
  type : option text;
  value : text;
  ttl : option num;
  priority : option num;
  weight : option num;
  port : option num
}.

(** *** parseZoneFile (bindService.js, lines 778-815) *)

(** [parts.indexOf(x)] on an array that contains [x]. *)
Fixpoint array_indexOf (x : text) (parts : list text) : nat :=
  match parts with
  | [] => 0
  | p :: r => if text_eqb p x then 0 else S (array_indexOf x r)
  end.

(** Body of the [for (const line of lines)] loop: the record pushed for
    this line, if any. *)
Definition parse_line (id : Z) (line : text) : option ResourceRecord :=
  let trimmed := trim line in
  if starts_with (str ";") trimmed || text_eqb trimmed []
     || starts_with (str "$") trimmed
  then None
  else if includes (str "SOA") trimmed then None
  else
    let parts := split_ws trimmed in
    if (4 <=? length parts)%nat && existsb (fun p => text_eqb p (str "IN")) parts
    then
      let inIndex := array_indexOf (str "IN") parts in
      Some {| rid := Some id;
              name := nth 0 parts [];
              type := nth_error parts (inIndex + 1);
              value := join (str " ") (skipn (inIndex + 2) parts);
              ttl := Some (if negb (isNaN_str (nth 1 parts []))
                           then parseInt (nth 1 parts [])
                           else JNum 3600);
              priority := None; weight := None; port := None |}
    else None.

(** The loop, threading the [id] counter. *)
Fixpoint parse_lines (lines : list text) (id : Z) : list ResourceRecord :=
  match lines with
  | [] => []
  | line :: rest =>
      match parse_line id line with
      | Some r => r :: parse_lines rest (id + 1)
      | None => parse_lines rest id
      end
  end.

Definition parseZoneFile (content : text) : list ResourceRecord :=
  parse_lines (split_lines content) 1.

(** *** formatRecord (lines 820-836)

    [None] is the [TypeError] raised by [record.type.padEnd] on a record
    without a type. *)
Definition formatRecord (record : ResourceRecord) : option text :=
  match type record with
  | None => None
  | Some ty =>
      let name_ := padEnd 15 (name record) in
      let ttl_ := padEnd 8 (toString (num_or (ttl record) 3600)) in
      let type_ := padEnd 8 ty in
      let head := name_ ++ str " " ++ ttl_ ++ str " IN " ++ type_ ++ str " " in
      if text_eqb ty (str "MX") then
        Some (head ++ toString (num_or (priority record) 10) ++ str " "
                   ++ value record)
      else if text_eqb ty (str "SRV") then
        Some (head ++ toString (num_or (priority record) 10) ++ str " "
                   ++ toString (num_or (weight record) 0) ++ str " "
                   ++ toString (num_or (port record) 0) ++ str " "
                   ++ value record)
      else Some (head ++ value record)
  end.

(** *** generateSerial (lines 841-847) *)

(** What the service reads from [new Date()]. *)
Record Clock := mkClock {
  fullYear : Z;
  month : Z;          (* getMonth(): 0 to 11 *)
  date : Z;           (* getDate() *)
  isoString : text    (* toISOString() *)
}.

Definition generateSerial (now : Clock) : text :=
  Z_toString (fullYear now)
  ++ padStart0 2 (Z_toString (month now + 1))
  ++ padStart0 2 (Z_toString (date now))
  ++ str "01".

(** *** incrementSerial (lines 852-863) *)

Fixpoint take_digits (n : nat) (s : text) : option (text * text) :=
  match n with
  | O => Some ([], s)
  | S n' =>
      match s with
      | c :: r =>
          if is_digit c then
            match take_digits n' r with
            | Some (d, r') => Some (c :: d, r')
            | None => None
            end
          else None
      | [] => None
      end
  end.

(** [/(\d{10})\s*;\s*Serial/i] anchored at the head of [s]: the captured
    group and the text after the match.  Neither [;] nor [S] is white
    space, so each [\s*] has a single way to match. *)
Definition serial_match_here (s : text) : option (text * text) :=
  match take_digits 10 s with
  | Some (d, r1) =>
      match skip_ws r1 with
      | c :: r2 =>
          if c =? 59 then
            match match_ci (str "Serial") (skip_ws r2) with
            | Some r3 => Some (d, r3)
            | None => None
            end
          else None
      | [] => None
      end
  | None => None
  end.

(** Leftmost match: text before, captured digits, text after. *)
Fixpoint serial_search (s : text) : option (text * text * text) :=
  match serial_match_here s with
  | Some (d, r) => Some ([], d, r)
  | None =>
      match s with
      | [] => None
      | c :: s' =>
          match serial_search s' with
          | Some (b, d, r) => Some (c :: b, d, r)
          | None => None
          end
      end
  end.

Definition incrementSerial (zoneContent : text) : text :=
  match serial_search zoneContent with
  | Some (before, currentSerial, after) =>
      let newSerial := toString (num_add (parseInt currentSerial) 1) in
      before ++ newSerial ++ str "       ; Serial" ++ after
  | None => zoneContent
  end.

(** The serial a zone file carries, read the way [incrementSerial] reads
    it: group 1 of the first match, through [parseInt]. *)
Definition currentSerial (zoneContent : text) : option num :=
  match serial_search zoneContent with
  | Some (_, d, _) => Some (parseInt d)
  | None => None
  end.

(** The token itself. *)
Definition serialToken (zoneContent : text) : option text :=
  match serial_search zoneContent with
  | Some (_, d, _) => Some d
  | None => None
  end.

(** *** generateZoneFile (lines 689-773) *)

Record Options := mkOptions {
  opt_ttl : option num;
  nameserver : option text;
  email : option text;
  domain : option text;
  nsIP : option text;
  nameserverIP : option text;
  autoGeneratePTR : option bool   (* options.settings?.zones?.autoGeneratePTR *)
}.

(** [x || d] on a possibly missing string: the empty string is falsy. *)
Definition text_or (x : option text) (d : text) : text :=
  match x with
  | Some (c :: r) => c :: r
  | _ => d
  end.

Fixpoint drop_dots (s : text) : text :=
  match s with
  | c :: r => if c =? 46 then drop_dots r else s
  | [] => []
  end.

(** [s.replace(/\.+$/, '')]. *)
Definition strip_trailing_dots (s : text) : text := rev (drop_dots (rev s)).

(** [s] without its suffix [suf], when it ends with it. *)
Definition strip_suffix (suf s : text) : option text :=
  if starts_with (rev suf) (rev s)
  then Some (firstn (length s - length suf) s)
  else None.

(** [zoneName.replace(/\.?in-addr\.arpa\.?$/, '')]. *)
Definition strip_arpa (zoneName : text) : text :=
  let drop_dot (s : text) :=
    match strip_suffix (str ".") s with Some s' => s' | None => s end in
  match strip_suffix (str "in-addr.arpa.") zoneName with
  | Some s => drop_dot s
  | None =>
      match strip_suffix (str "in-addr.arpa") zoneName with
      | Some s => drop_dot s
      | None => zoneName
      end
  end.

(** One iteration of the PTR loop. *)
Definition ptr_line (domainForPTR : text) (i : Z) : text :=
  Z_toString i ++ str "       IN      PTR     " ++ str "host" ++ Z_toString i
  ++ str "." ++ domainForPTR ++ nl.

(** [for (let i = start; i <= 254; i++) zoneContent += ...], [n] being the
    number of iterations still possible. *)
Fixpoint ptr_loop (n : nat) (domainForPTR : text) (i : Z) (zoneContent : text) : text :=
  match n with
  | O => zoneContent
  | S n' =>
      if (i <=? 254)%Z
      then ptr_loop n' domainForPTR (i + 1) (zoneContent ++ ptr_line domainForPTR i)
      else zoneContent
  end.

(** The template that opens every generated file. *)
Definition zone_header (now : Clock) (zoneName : text) (ttl_ : num) (ns email_ : text) : text :=
  str "; Zone file for " ++ zoneName ++ nl
  ++ str "; Generated by NDash on " ++ isoString now ++ nl
  ++ nl
  ++ str "$TTL " ++ toString ttl_ ++ nl
  ++ str "@       IN      SOA     " ++ ns ++ str " " ++ email_ ++ str " (" ++ nl
  ++ str "                        " ++ generateSerial now ++ str "       ; Serial" ++ nl
  ++ str "                        7200            ; Refresh" ++ nl
  ++ str "                        3600            ; Retry" ++ nl
  ++ str "                        1209600         ; Expire" ++ nl
  ++ str "                        3600 )          ; Minimum TTL" ++ nl
  ++ nl
  ++ str "; Name servers" ++ nl
  ++ str "@       IN      NS      " ++ ns ++ nl.

Definition generateZoneFile (now : Clock) (zoneName : text) (options : Options) : text :=
  let ttl_ := num_or (opt_ttl options) 3600 in
  let ns := text_or (nameserver options) (str "ns1." ++ zoneName ++ str ".") in
  let email_ := text_or (email options) (str "admin." ++ zoneName ++ str ".") in
  let ns := strip_trailing_dots ns ++ str "." in
  let email_ := strip_trailing_dots email_ ++ str "." in
  let isReverseZone := includes (str "in-addr.arpa") zoneName in
  let nsHostname :=
    hd [] (split_on (N.eqb 46) (firstn (length ns - 1) ns)) in
  let domainForPTR := text_or (domain options) (str "example.com.") in
  let networkPrefix :=
    if isReverseZone
    then join (str ".") (rev (split_on (N.eqb 46) (strip_arpa zoneName)))
    else [] in
  let domainForPTR :=
    if isReverseZone then strip_trailing_dots domainForPTR ++ str "."
    else domainForPTR in
  let zoneContent := zone_header now zoneName ttl_ ns email_ in
  if isReverseZone then
    let nsIP_ :=
      text_or (match nsIP options with
               | Some (c :: r) => Some (c :: r)
               | _ => nameserverIP options
               end)
              (networkPrefix ++ str ".1") in
    let zoneContent := zoneContent ++ ns ++ str "   IN      A       " ++ nsIP_ ++ nl in
    if match autoGeneratePTR options with Some false => false | _ => true end
    then
      let zoneContent := zoneContent ++ nl ++ str "; PTR records (auto-generated)" ++ nl in
      let zoneContent :=
        zoneContent ++ str "; Format: <last-octet> IN PTR <hostname>.<domain>" ++ nl in
      ptr_loop 254 domainForPTR 1 zoneContent
    else
      zoneContent ++ nl ++ str "; PTR records" ++ nl
      ++ str "; Add your PTR records here" ++ nl
      ++ str "; Example: 1 IN PTR host1." ++ domainForPTR ++ nl
  else
    zoneContent ++ nl ++ str "; A records" ++ nl
    ++ str "@       IN      A       127.0.0.1" ++ nl
    ++ nsHostname ++ str "   IN      A       127.0.0.1" ++ nl.

(** *** Records that survive a round trip *)

(** A token of a record line: not empty and free of white space. *)
Definition ws_free (t : text) : bool := forallb (fun c => negb (is_ws c)) t.
Definition is_token (t : text) : bool := negb (text_eqb t []) && ws_free t.

(** The words of a value. *)
Definition value_tokens (v : text) : list text :=
  List.filter (fun t => negb (text_eqb t [])) (split_ws v).

(** Records that a line of the master file can carry as they are: name
    and type are single tokens, the name is neither a comment, a directive
    nor the class keyword, nothing mentions SOA, and the words of the
    value are separated by single spaces. *)
Definition well_formed_record (r : ResourceRecord) : bool :=
  match type r with
  | None => false
  | Some ty =>
      is_token (name r) && is_token ty
      && negb (starts_with (str ";") (name r))
      && negb (starts_with (str "$") (name r))
      && negb (text_eqb (name r) (str "IN"))
      && negb (includes (str "SOA") (name r))
      && negb (includes (str "SOA") ty)
      && negb (includes (str "SOA") (value r))
      && text_eqb (value r) (join (str " ") (value_tokens (value r)))
  end.

(** [words s ts]: [s] is the words [ts], each followed by white space,
    the last one possibly by nothing. *)
Inductive words : text -> list text -> Prop :=
| words_last t w :
    is_token t = true -> forallb is_ws w = true -> words (t ++ w) [t]
| words_cons t c w s ts :
    is_token t = true -> is_ws c = true -> forallb is_ws w = true ->
    words s ts -> words (t ++ c :: w ++ s) (t :: ts).

End ZoneRecords.

(* ===================================================================== *)
(** ** Block surgery on named.conf.local ([bindConfig]) *)
(* ===================================================================== *)

Module BindConfig.
Import JS.

Definition nl : text := [10].

Inductive result (A : Type) :=
| Ok (a : A)
| Err (message : text).
Arguments Ok {A} a.
Arguments Err {A} message.

Definition NAMED_CONF_LOCAL : text := str "/etc/bind/named.conf.local".

(** *** The zone header pattern

    [removeZoneFromConfigContent] splices the zone name, unescaped, into
    the source of a regular expression.  The fragment modelled covers zone
    names made of ASCII characters other than the operators
    [\ ^ $ * + ? ( ) [ ] { } |]: every character stands for itself (up to
    ASCII case, because of the [i] flag) except the dot, which the engine
    reads as "any character but a line terminator". *)
Inductive pat :=
| Lit (c : N)
| AnyChar.

Definition is_regex_operator (c : N) : bool :=
  existsb (N.eqb c) (str "\^$*+?()[]{}|").

Definition compile_char (c : N) : option pat :=
  if c =? 46 then Some AnyChar
  else if (128 <=? c) || is_regex_operator c then None
  else Some (Lit c).

Fixpoint compile_name (zoneName : text) : option (list pat) :=
  match zoneName with
  | [] => Some []
  | c :: r =>
      match compile_char c, compile_name r with
      | Some p, Some ps => Some (p :: ps)
      | _, _ => None
      end
  end.

Definition pat_matches (p : pat) (c : N) : bool :=
  match p with
  | Lit a => eq_ci c a
  | AnyChar => negb (is_line_terminator c)
  end.

Fixpoint match_pats (ps : list pat) (s : text) : option text :=
  match ps, s with
  | [], _ => Some s
  | p :: ps', c :: s' => if pat_matches p c then match_pats ps' s' else None
  | _ :: _, [] => None
  end.

(** [zone\s+"<name>"] anchored at the head of [s]. *)
Definition zone_header_here (name_ : list pat) (s : text) : bool :=
  match match_ci (str "zone") s with
  | Some (c :: r) =>
      is_ws c &&
      match skip_ws r with
      | q :: r' =>
          (q =? 34) &&
          match match_pats name_ r' with
          | Some (q' :: _) => q' =? 34
          | _ => false
          end
      | [] => false
      end
  | _ => false
  end.

(** [\b] before a word character: the previous character, if any, is not
    a word character. *)
Definition word_boundary (prev : option N) : bool :=
  match prev with
  | None => true
  | Some c => negb (is_word c)
  end.

(** [search.exec(content)]: index of the leftmost match. *)
Fixpoint zone_search (name_ : list pat) (prev : option N) (s : text) : option nat :=
  if word_boundary prev && zone_header_here name_ s then Some 0%nat
  else match s with
       | [] => None
       | c :: s' => option_map S (zone_search name_ (Some c) s')
       end.

(** *** Brace matching *)

(** The [for] loop that looks for the matching close brace: [s] is the
    text from position [i] on; the result is the index of the brace that
    brings the count back to zero. *)
Fixpoint brace_scan (s : text) (braceCount : Z) (i : nat) : option nat :=
  match s with
  | [] => None
  | ch :: r =>
      if ch =? 123 then brace_scan r (braceCount + 1)%Z (S i)
      else if ch =? 125 then
        if (braceCount - 1 =? 0)%Z then Some i
        else brace_scan r (braceCount - 1)%Z (S i)
      else brace_scan r braceCount (S i)
  end.

(** The class [[\s;\n\r]]. *)
Definition is_separator (c : N) : bool := is_ws c || (c =? 59).

(** The [while] loop that swallows the separators after the brace. *)
Fixpoint count_separators (s : text) : nat :=
  match s with
  | c :: r => if is_separator c then S (count_separators r) else 0%nat
  | [] => 0%nat
  end.

(** Closing brace and end of the block opened at [idx]. *)
Definition block_end (content : text) (idx : nat) : option (nat * nat) :=
  match brace_scan (skipn idx content) 0 idx with
  | Some i => Some (i, (i + 1 + count_separators (skipn (i + 1) content))%nat)
  | None => None
  end.

(** [s.replace(/\n{3,}/g, '\n\n')]; [run] counts the newlines just seen. *)
Fixpoint collapse_newlines_from (run : nat) (s : text) : text :=
  match s with
  | [] => []
  | c :: r =>
      if c =? 10 then
        if (run <? 2)%nat then 10 :: collapse_newlines_from (S run) r
        else collapse_newlines_from (S run) r
      else c :: collapse_newlines_from 0 r
  end.

Definition collapse_newlines (s : text) : text := collapse_newlines_from 0 s.

(** *** removeZoneFromConfigContent (bindConfig, lines 321-366)

    [None]: the zone name is outside the fragment described above. *)
Definition removeZoneFromConfigContent (content zoneName : text) : option text :=
  match compile_name zoneName with
  | None => None
  | Some search =>
      Some
        match zone_search search None content with
        | None => content
        | Some startIndex =>
            let afterMatch := slice_from startIndex content in
            match indexOf_char 123 afterMatch with
            | None => content
            | Some openBraceIndex =>
                let idx := (startIndex + openBraceIndex)%nat in
                match block_end content idx with
                | None => content
                | Some (_, endIndex) =>
                    let before := slice 0 startIndex content in
                    let after := slice_from endIndex content in
                    let newContent := collapse_newlines (before ++ after) in
                    trimEnd (trimStart newContent) ++ nl
                end
            end
        end
  end.

(** *** normalizeList (lines 45-55) *)

Fixpoint unescape_newlines (s : text) : text :=
  match s with
  | c :: r =>
      match r with
      | c' :: r' =>
          if (c =? 92) && (c' =? 110) then 10 :: unescape_newlines r'
          else c :: unescape_newlines r
      | [] => [c]
      end
  | [] => []
  end.

Definition normalizeList (arr : list text) : list text :=
  flat_map
    (fun v =>
       match v with
       | [] => []
       | _ =>
           List.filter (fun s => negb (text_eqb s []))
             (map trim
                (split_on (fun c => (c =? 10) || (c =? 44) || (c =? 59))
                   (unescape_newlines v)))
       end)
    arr.

(** *** insertZoneIntoViewContent (lines 372-423) *)

Record Acl := mkAcl {
  allow : option (list text);
  deny : option (list text)
}.

Definition default_acl : Acl := mkAcl (Some [str "any"]) (Some []).

Definition list_or (x : option (list text)) (d : list text) : list text :=
  match x with Some l => l | None => d end.

Definition insertZoneIntoViewContent
    (content zoneBlock viewName : text) (viewAcl : Acl) : result text :=
  let viewSearch := str "view " ++ [34] ++ viewName ++ [34] in
  match indexOf viewSearch content with
  | None =>
      let allowList := normalizeList (list_or (allow viewAcl) [str "any"]) in
      let denyList := normalizeList (list_or (deny viewAcl) []) in
      let aclLines :=
        (match allowList with
         | [] => []
         | _ => [str "    match-clients { " ++ join (str "; ") allowList ++ str "; };"]
         end)
        ++
        (match denyList with
         | [] => []
         | _ => [str "    // deny: " ++ join (str "; ") denyList ++ str ";"]
         end) in
      let viewBlock :=
        nl ++ str "view " ++ [34] ++ viewName ++ [34] ++ str " {" ++ nl
        ++ join nl aclLines ++ nl ++ nl
        ++ str "    " ++ zoneBlock ++ nl ++ str "};" ++ nl in
      Ok (content ++ viewBlock)
  | Some idx =>
      let afterMatch := slice_from idx content in
      match indexOf_char 123 afterMatch with
      | None => Err (str "Malformed view block for " ++ viewName)
      | Some openBraceIndex =>
          let startBracePos := (idx + openBraceIndex)%nat in
          match block_end content startBracePos with
          | None => Err (str "Could not find end of view " ++ viewName ++ str " block")
          | Some (closingBraceIdx, endBracePos) =>
              let viewHeader := slice idx (startBracePos + 1) content in
              let viewBody := slice (startBracePos + 1) closingBraceIdx content in
              let viewFooter := slice closingBraceIdx endBracePos content in
              let newViewBlock :=
                viewHeader ++ viewBody ++ nl ++ str "    " ++ zoneBlock ++ viewFooter in
              Ok (slice 0 idx content ++ newViewBlock ++ slice_from endBracePos content)
          end
      end
  end.

(** *** buildMoveZoneToViewContent (lines 428-438)

    [content] is what the function reads from named.conf.local. *)
Definition zone_block (zoneName zoneFile : text) : text :=
  str "zone " ++ [34] ++ zoneName ++ [34] ++ str " {" ++ nl
  ++ str "    type master;" ++ nl
  ++ str "    file " ++ [34] ++ zoneFile ++ [34] ++ str ";" ++ nl
  ++ str "    allow-update { none; };" ++ nl
  ++ str "};" ++ nl.

Definition buildMoveZoneToViewContent
    (content zoneName zoneFile targetView : text) (targetViewAcl : Acl)
    : option (result text) :=
  match removeZoneFromConfigContent content zoneName with
  | None => None
  | Some cleaned =>
      let zoneBlock := zone_block zoneName zoneFile in
      Some (insertZoneIntoViewContent cleaned zoneBlock targetView targetViewAcl)
  end.

(** Number of places where the literal header [zone "<name>"] starts. *)
Fixpoint count_occurrences (p s : text) : nat :=
  match s with
  | [] => 0%nat
  | _ :: s' =>
      ((if starts_with p s then 1 else 0) + count_occurrences p s')%nat
  end.

Definition zone_blocks_named (zoneName content : text) : nat :=
  count_occurrences (str "zone " ++ [34] ++ zoneName ++ [34]) content.

(** Brace depth of a text: opening braces minus closing braces. *)
Fixpoint depth (s : text) : Z :=
  match s with
  | [] => 0%Z
  | c :: r =>
      let d : Z := if c =? 123 then 1%Z else if c =? 125 then (-1)%Z else 0%Z in
      (d + depth r)%Z
  end.

(** A block that never closes: [s] starts at a block header; either no
    opening brace follows, or from the first opening brace on every
    non-empty prefix up to the end of the text has positive depth. *)
Definition unclosed (s : text) : Prop :=
  match indexOf_char 123 s with
  | None => True
  | Some k =>
      forall n, (0 < n <= length (skipn k s))%nat ->
                (0 < depth (firstn n (skipn k s)))%Z
  end.

End BindConfig.

(* ===================================================================== *)
(** ** The commit pipeline: validated writes and zone reassignment *)
(* ===================================================================== *)

Module Pipeline.
Import JS BindConfig.

(** The file system, as far as these operations see it: path to content. *)
Abbreviation FS := (gmap (list N) (list N)).

Definition writeFile (path content : text) (fs : FS) : FS := <[path := content]> fs.
Definition unlink (path : text) (fs : FS) : FS := delete path fs.

(** [fs.copyFile(src, dst)]; [None] when [src] does not exist. *)
Definition copyFile (src dst : text) (fs : FS) : option FS :=
  match fs !! src with
  | Some c => Some (<[dst := c]> fs)
  | None => None
  end.

(** [fs.move(src, dst, {overwrite: true})]. *)
Definition move (src dst : text) (fs : FS) : option FS :=
  match fs !! src with
  | Some c => Some (<[dst := c]> (delete src fs))
  | None => None
  end.

(** The message of a failed file operation, without the name of the
    system call and the quotes that the run time puts around the path. *)
Definition ENOENT (path : text) : text :=
  str "ENOENT: no such file or directory, " ++ path.

(** Entries of [settings.resolver.views]. *)
Record ViewEntry := mkView {
  view_name : text;
  view_acl : option Acl;
  view_zones : option (list text)
}.

(** What [reassignZone] reads from the settings object. *)
Record Settings := mkSettings {
  autoReload : bool;                   (* settings.zones.autoReload *)
  views : option (list ViewEntry)      (* settings.resolver?.views *)
}.

(** What [reassignZone] reads from [getZone(zoneName).zone]. *)
Record ZoneInfo := mkZoneInfo {
  file : text;
  view : option text
}.

Record World (Store : Type) := mkWorld {
  files : FS;
  store : Store
}.
Arguments mkWorld {Store} files store.
Arguments files {Store} w.
Arguments store {Store} w.

Section Collaborators.

(** The persisted settings store and its two entry points. *)
Variable Store : Type.
Variable loadSettings : Store -> Settings.
Variable updateSettings : Store -> list ViewEntry -> result Store.

(** [named-checkconf -z <path>]: [None] on exit status 0, otherwise the
    diagnostic text. *)
Variable validator : FS -> text -> option text.

(** [reloadBind()]: [None] on success, otherwise the error message.  It
    does not write to the configuration. *)
Variable reloadBind : World Store -> option text.

(** [getZone(zoneName)], which lists the configured zones. *)
Variable getZone : World Store -> text -> result ZoneInfo.

(** *** writeConfigWithValidation (bindConfig, lines 497-529) *)
Definition writeConfigWithValidation
    (fs : FS) (now : Z) (filePath content : text) : FS * result unit :=
  let fail (m : text) : result unit := Err (str "Failed to write config: " ++ m) in
  if includes (str "named.conf") filePath then
    let tmpFile := filePath ++ str ".tmp." ++ Z_toString now in
    let fs := writeFile tmpFile content fs in
    match validator fs tmpFile with
    | Some diagnostic =>
        (unlink tmpFile fs,
         fail (str "BIND config validation failed: " ++ diagnostic))
    | None =>
        match move tmpFile filePath fs with
        | Some fs' => (fs', Ok tt)
        | None => (fs, fail (ENOENT tmpFile))
        end
    end
  else (writeFile filePath content fs, Ok tt).

(** *** reassignZone (bindService.js, lines 596-684) *)

Definition namedConfLocal : text := str "/etc/bind/named.conf.local".

(** The membership update at the end of [reassignZone]. *)
Definition move_membership
    (viewsList2 : list ViewEntry) (zoneName newViewName : text) : list ViewEntry :=
  let removed :=
    map (fun v =>
           match view_zones v with
           | Some zs =>
               if existsb (text_eqb zoneName) zs
               then mkView (view_name v) (view_acl v)
                      (Some (List.filter (fun z => negb (text_eqb z zoneName)) zs))
               else v
           | None => v
           end) viewsList2 in
  if existsb (fun v => text_eqb (view_name v) newViewName) removed then
    (fix add (l : list ViewEntry) (found : bool) : list ViewEntry :=
       match l with
       | [] => []
       | v :: r =>
           if negb found && text_eqb (view_name v) newViewName then
             let zs := list_or (view_zones v) [] in
             mkView (view_name v) (view_acl v)
               (Some (if existsb (text_eqb zoneName) zs then zs
                      else zs ++ [zoneName]))
             :: add r true
           else v :: add r found
       end) removed false
  else removed ++ [mkView newViewName (Some default_acl) (Some [zoneName])].

(** The state the operation has reached when it stops. *)
Definition reassign_fail (w : World Store) (m : text) : World Store * result text :=
  (w, Err (str "Failed to reassign zone: " ++ m)).

(** The steps between the zone lookup and the validation: the path of
    the temp file and the candidate content to write there. *)
Definition reassign_candidate
    (w : World Store) (now1 : Z) (zoneName zoneFile newViewName : text)
    : option (result (text * text)) :=
  let targetViewAcl :=
    match find (fun v => text_eqb (view_name v) newViewName)
               (match views (loadSettings (store w)) with
                | Some l => l | None => [] end) with
    | Some v => match view_acl v with Some a => a | None => default_acl end
    | None => default_acl
    end in
  match files w !! NAMED_CONF_LOCAL with
  | None => Some (Err (ENOENT NAMED_CONF_LOCAL))
  | Some content =>
      match buildMoveZoneToViewContent content zoneName zoneFile
              newViewName targetViewAcl with
      | None => None
      | Some (Err m) => Some (Err m)
      | Some (Ok newContent) =>
          Some (Ok (namedConfLocal ++ str ".tmp." ++ Z_toString now1, newContent))
      end
  end.

(** Backup, then replace the live file with the temp file. *)
Definition reassign_replace (fs : FS) (tmpFile backupFile : text) : option FS :=
  match copyFile namedConfLocal backupFile fs with
  | Some fs' => move tmpFile namedConfLocal fs'
  | None => None
  end.

(** Where the first half of [reassignZone] leaves the operation: it has
    stopped with a result, or the live file has just been replaced. *)
Inductive commit_outcome :=
| Stopped (w' : World Store) (r : result text)
| Replaced (fs3 : FS) (backupFile : text).

(** [reassignZone] up to and including the atomic replace.  [now1] and
    [now2] are the two readings of [Date.now()].  [None]: the zone name
    is outside the modelled pattern fragment. *)
Definition reassign_commit
    (w : World Store) (now1 now2 : Z) (zoneName newViewName : text)
    : option commit_outcome :=
  if text_eqb zoneName (str ".") || text_eqb zoneName (str "adblock") then
    Some (let '(w', r) :=
            reassign_fail w (str "Cannot reassign system zone: " ++ zoneName) in
          Stopped w' r)
  else
    match getZone w zoneName with
    | Err m => Some (let '(w', r) := reassign_fail w m in Stopped w' r)
    | Ok zone =>
        if text_eqb (match view zone with Some v => v | None => [] end) newViewName
        then Some (Stopped w (Ok (str "Zone already assigned to that view")))
        else
          match reassign_candidate w now1 zoneName (file zone) newViewName with
          | None => None
          | Some (Err m) => Some (let '(w', r) := reassign_fail w m in Stopped w' r)
          | Some (Ok (tmpFile, newContent)) =>
              let fs1 := writeFile tmpFile newContent (files w) in
              match validator fs1 tmpFile with
              | Some diagnostic =>
                  Some (let '(w', r) :=
                          reassign_fail (mkWorld fs1 (store w))
                            (str "Config validation failed for proposed change: "
                             ++ diagnostic) in
                        Stopped w' r)
              | None =>
                  let backupFile :=
                    namedConfLocal ++ str ".backup." ++ Z_toString now2 in
                  match reassign_replace fs1 tmpFile backupFile with
                  | None =>
                      Some (let '(w', r) :=
                              reassign_fail (mkWorld fs1 (store w))
                                (ENOENT namedConfLocal) in
                            Stopped w' r)
                  | Some fs3 => Some (Replaced fs3 backupFile)
                  end
              end
          end
    end.

(** The whole operation: after the replace come the optional reload,
    with its rollback, and only then the membership update. *)
Definition reassignZone
    (w : World Store) (now1 now2 : Z) (zoneName newViewName : text)
    : option (World Store * result text) :=
  match reassign_commit w now1 now2 zoneName newViewName with
  | None => None
  | Some (Stopped w' r) => Some (w', r)
  | Some (Replaced fs3 backupFile) =>
      let settings := loadSettings (store w) in
      let w3 := mkWorld fs3 (store w) in
      match (if autoReload settings then reloadBind w3 else None) with
      | Some e =>
          match copyFile backupFile namedConfLocal fs3 with
          | Some fs4 =>
              Some (reassign_fail (mkWorld fs4 (store w))
                      (str "Reload failed after reassign; config restored: "
                       ++ e))
          | None => Some (reassign_fail w3 (ENOENT backupFile))
          end
      | None =>
          let viewsList2 :=
            match views (loadSettings (store w)) with
            | Some l => l | None => [] end in
          match updateSettings (store w)
                  (move_membership viewsList2 zoneName newViewName) with
          | Ok st => Some (mkWorld fs3 st, Ok [])
          | Err _ => Some (w3, Ok [])
          end
      end
  end.

End Collaborators.

Arguments Stopped {Store} w' r.
Arguments Replaced {Store} fs3 backupFile.

End Pipeline.

(* ===================================================================== *)
(** ** Sample inputs *)
(* ===================================================================== *)

Module Samples.
Import JS ZoneRecords BindConfig Pipeline.

(** *** Zone files *)

Definition sample_clock : Clock :=
  mkClock 2024 0 5 (str "2024-01-05T00:00:00.000Z").

Definition no_options : Options := mkOptions None None None None None None None.

Definition www_record : ResourceRecord :=
  mkRecord None (str "www") (Some (str "A")) (str "192.0.2.1")
    (Some (JNum 300)) None None None.

Definition www_parsed : ResourceRecord :=
  mkRecord (Some 1%Z) (str "www") (Some (str "A")) (str "192.0.2.1")
    (Some (JNum 300)) None None None.

Definition mx_record : ResourceRecord :=
  mkRecord None (str "@") (Some (str "MX")) (str "mail.example.com.")
    (Some (JNum 3600)) (Some (JNum 20)) None None.

(** *** Configuration documents *)

Definition unterminated_zone : text :=
  str "zone " ++ [34] ++ str "example.com" ++ [34] ++ str " {" ++ nl
  ++ str "    type master;" ++ nl
  ++ str "    allow-update { none; };" ++ nl.

(** Two distinct zones whose names differ only where one of them has a
    dot. *)
Definition simple_zone (zoneName zoneFile : text) : text :=
  str "zone " ++ [34] ++ zoneName ++ [34] ++ str " {" ++ nl
  ++ str "    type master;" ++ nl
  ++ str "    file " ++ [34] ++ zoneFile ++ [34] ++ str ";" ++ nl
  ++ str "};" ++ nl.

Definition two_zones : text :=
  simple_zone (str "example-com.net") (str "/etc/bind/zones/db.example-com.net")
  ++ nl
  ++ simple_zone (str "example.com.net") (str "/etc/bind/zones/db.example.com.net").

(** One zone served from two views, as in a split-horizon set-up. *)
Definition view_with (viewName zoneName zoneFile : text) : text :=
  str "view " ++ [34] ++ viewName ++ [34] ++ str " {" ++ nl
  ++ str "    match-clients { any; };" ++ nl
  ++ str "    " ++ simple_zone zoneName zoneFile
  ++ str "};" ++ nl.

Definition split_horizon : text :=
  view_with (str "internal") (str "corp") (str "/etc/bind/zones/db.corp.internal")
  ++ nl
  ++ view_with (str "external") (str "corp") (str "/etc/bind/zones/db.corp.external").

(** The document returned by a move, when there is one. *)
Definition moved (content zoneName zoneFile targetView : text) : text :=
  match buildMoveZoneToViewContent content zoneName zoneFile targetView
          default_acl with
  | Some (Ok newContent) => newContent
  | _ => []
  end.

(** *** A concrete installation *)

Definition sample_conf : text :=
  str "zone " ++ [34] ++ str "example.com" ++ [34] ++ str " {" ++ nl
  ++ str "    type master;" ++ nl
  ++ str "    file " ++ [34] ++ str "/etc/bind/zones/db.example.com" ++ [34]
  ++ str ";" ++ nl
  ++ str "};" ++ nl.

Definition sample_world : World Settings :=
  mkWorld (<[namedConfLocal := sample_conf]> ∅) (mkSettings true None).

Definition sample_load (s : Settings) : Settings := s.

Definition sample_update (s : Settings) (v : list ViewEntry) : result Settings :=
  Ok (mkSettings (autoReload s) (Some v)).

Definition sample_getZone (_ : World Settings) (_ : text) : result ZoneInfo :=
  Ok (mkZoneInfo (str "/etc/bind/zones/db.example.com") None).

Definition accept_all (_ : FS) (_ : text) : option text := None.
Definition reject_all (_ : FS) (_ : text) : option text := Some (str "syntax error").
Definition reload_ok (_ : World Settings) : option text := None.
Definition reload_fails (_ : World Settings) : option text :=
  Some (str "rndc: connect failed").

End Samples.

(* ===================================================================== *)
(** * The configuration file on disk (bindConfig) *)
(* ===================================================================== *)

Module ConfigOps.
Import JS BindConfig Pipeline.

(** [new RegExp(`zone\\s+"${zoneName}"`, 'i').test(s)]: the header
    pattern without the leading [\b], anywhere in [s]. *)
Fixpoint zone_pattern_test (name_ : list pat) (s : text) : bool :=
  zone_header_here name_ s
  || match s with
     | [] => false
     | _ :: s' => zone_pattern_test name_ s'
     end.

(** *** addZoneToConfig (bindConfig, lines 13-40)

    [None]: the zone name is outside the modelled pattern fragment. *)
Definition addZoneToConfig (fs : FS) (zoneName zoneFile zoneType : text)
    : option (FS * result unit) :=
  let fail (m : text) : result unit :=
    Err (str "Failed to add zone to config: " ++ m) in
  match fs !! NAMED_CONF_LOCAL with
  | None => Some (fs, fail (ENOENT NAMED_CONF_LOCAL))
  | Some configContent =>
      match compile_name zoneName with
      | None => None
      | Some zonePattern =>
          if zone_pattern_test zonePattern configContent then Some (fs, Ok tt)
          else
            let zoneBlock :=
              nl ++ str "zone " ++ [34] ++ zoneName ++ [34] ++ str " {" ++ nl
              ++ str "    type " ++ zoneType ++ str ";" ++ nl
              ++ str "    file " ++ [34] ++ zoneFile ++ [34] ++ str ";" ++ nl
              ++ str "    allow-update { none; };" ++ nl
              ++ str "};" ++ nl in
            Some (<[NAMED_CONF_LOCAL := configContent ++ zoneBlock]> fs, Ok tt)
      end
  end.

(** *** removeZoneFromConfig (lines 443-468)

    [now1] and [now2] are the two readings of [Date.now()]. *)
Definition removeZoneFromConfig (fs : FS) (now1 now2 : Z) (zoneName : text)
    : option (FS * result unit) :=
  let fail (m : text) : result unit :=
    Err (str "Failed to remove zone from config: " ++ m) in
  let backupFile := NAMED_CONF_LOCAL ++ str ".backup." ++ Z_toString now1 in
  match copyFile NAMED_CONF_LOCAL backupFile fs with
  | None => Some (fs, fail (ENOENT NAMED_CONF_LOCAL))
  | Some fs1 =>
      match fs1 !! NAMED_CONF_LOCAL with
      | None => Some (fs1, fail (ENOENT NAMED_CONF_LOCAL))
      | Some configContent =>
          match removeZoneFromConfigContent configContent zoneName with
          | None => None
          | Some cleanedContent =>
              if text_eqb cleanedContent configContent then Some (fs1, Ok tt)
              else
                let tmpFile :=
                  NAMED_CONF_LOCAL ++ str ".tmp." ++ Z_toString now2 in
                let fs2 := writeFile tmpFile cleanedContent fs1 in
                match move tmpFile NAMED_CONF_LOCAL fs2 with
                | Some fs3 => Some (fs3, Ok tt)
                | None => Some (fs2, fail (ENOENT tmpFile))
                end
          end
      end
  end.

(** [view\s+"<name>"] anchored at the head of [s]. *)
Definition view_header_here (name_ : list pat) (s : text) : bool :=
  match match_ci (str "view") s with
  | Some (c :: r) =>
      is_ws c &&
      match skip_ws r with
      | q :: r' =>
          (q =? 34) &&
          match match_pats name_ r' with
          | Some (q' :: _) => q' =? 34
          | _ => false
          end
      | [] => false
      end
  | _ => false
  end.

(** [content.search(viewPattern)] for [\bview\s+"<name>"] with the [i]
    flag: index of the leftmost match. *)
Fixpoint view_search (name_ : list pat) (prev : option N) (s : text) : option nat :=
  if word_boundary prev && view_header_here name_ s then Some 0%nat
  else match s with
       | [] => None
       | c :: s' => option_map S (view_search name_ (Some c) s')
       end.

(** *** removeViewFromConfig (bindConfig, lines 169-205)

    [None]: the view name is outside the modelled pattern fragment.  When
    no opening brace follows the header, [indexOf] returns -1 and the
    scan starts one character before the header (or at the start of the
    text when the header is at the start: the character at index -1 is
    [undefined]). *)
Definition removeViewFromConfig (fs : FS) (now : Z) (viewName : text)
    : option (FS * result unit) :=
  let fail (m : text) : result unit :=
    Err (str "Failed to remove view " ++ viewName ++ str ": " ++ m) in
  match fs !! NAMED_CONF_LOCAL with
  | None => Some (fs, fail (ENOENT NAMED_CONF_LOCAL))
  | Some content =>
      match compile_name viewName with
      | None => None
      | Some viewPattern =>
          match view_search viewPattern None content with
          | None => Some (fs, Ok tt)
          | Some startIndex =>
              let afterMatch := slice_from startIndex content in
              let idx :=
                match indexOf_char 123 afterMatch with
                | Some openBraceIndex => (startIndex + openBraceIndex)%nat
                | None => (startIndex - 1)%nat
                end in
              match block_end content idx with
              | None => Some (fs, Ok tt)
              | Some (_, endIndex) =>
                  let newContent :=
                    slice 0 startIndex content ++ slice_from endIndex content in
                  let tmpFile :=
                    NAMED_CONF_LOCAL ++ str ".tmp." ++ Z_toString now in
                  let fs2 := writeFile tmpFile newContent fs in
                  match move tmpFile NAMED_CONF_LOCAL fs2 with
                  | Some fs3 => Some (fs3, Ok tt)
                  | None => Some (fs2, fail (ENOENT tmpFile))
                  end
              end
          end
      end
  end.

End ConfigOps.

(* ===================================================================== *)
(** * Editing the records of a zone (bindService.js) *)
(* ===================================================================== *)

Module RecordOps.
Import JS ZoneRecords BindConfig Pipeline.

(** What the record operations read from [settings.zones]. *)
Record ZoneSettings := mkZoneSettings {
  backupEnabled : bool;
  validateBeforeReload : bool;
  autoReload : bool
}.

(** The message of the [TypeError] raised by [record.type.padEnd] on a
    record without a type. *)
Definition TYPE_ERROR : text :=
  str "Cannot read properties of undefined (reading 'padEnd')".

(** The name and type that [deleteRecord] and [updateRecord] read off a
    line; [None] for a comment, a blank line and a line of fewer than four
    words. *)
Definition line_key (line : text) : option (text * option text) :=
  let trimmed := trim line in
  if starts_with (str ";") trimmed || text_eqb trimmed [] then None
  else
    let parts := split_ws trimmed in
    if (4 <=? length parts)%nat then
      Some (nth 0 parts [],
            if existsb (fun p => text_eqb p (str "IN")) parts
            then nth_error parts (array_indexOf (str "IN") parts + 1)
            else nth_error parts 3)
    else None.

(** [===] on values that may be [undefined]. *)
Definition same_type (a b : option text) : bool :=
  match a, b with
  | Some x, Some y => text_eqb x y
  | None, None => true
  | _, _ => false
  end.

(** [name === recordName && type === recordType]. *)
Definition line_matches (recordName : text) (recordType : option text)
    (line : text) : bool :=
  match line_key line with
  | Some (name, type) => text_eqb name recordName && same_type type recordType
  | None => false
  end.

(** The [filter] of [deleteRecord] and the [join] that follows it. *)
Definition delete_lines (recordName recordType zoneContent : text) : text :=
  join nl
    (List.filter (fun line => negb (line_matches recordName (Some recordType) line))
       (split_lines zoneContent)).

(** The [map] of [updateRecord], threading [recordFound]; [None] is the
    [TypeError] of [formatRecord]. *)
Fixpoint update_lines (oldRecord newRecord : ResourceRecord)
    (lines : list text) (recordFound : bool) : option (list text * bool) :=
  match lines with
  | [] => Some ([], recordFound)
  | line :: rest =>
      if line_matches (name oldRecord) (type oldRecord) line && negb recordFound
      then
        match formatRecord newRecord with
        | None => None
        | Some formatted =>
            match update_lines oldRecord newRecord rest true with
            | Some (ls, found) => Some (formatted :: ls, found)
            | None => None
            end
        end
      else
        match update_lines oldRecord newRecord rest recordFound with
        | Some (ls, found) => Some (line :: ls, found)
        | None => None
        end
  end.

Section Collaborators.

(** [settingsUtil.loadSettings().zones]. *)
Variable settings : ZoneSettings.

(** [getZone(zoneName).zone.file]. *)
Variable getZone : FS -> text -> result text.

(** [named-checkzone <zone> <file>]: [None] on exit status 0, otherwise
    the diagnostic text. *)
Variable checkZone : FS -> text -> text -> option text.

(** [reloadBind()]: [None] on success, otherwise the error message. *)
Variable reloadBind : FS -> option text.

(** The optional backup that opens each operation. *)
Definition backup_zone_file (fs : FS) (now : Z) (zoneFile : text) : option FS :=
  if backupEnabled settings
  then copyFile zoneFile (zoneFile ++ str ".backup." ++ Z_toString now) fs
  else Some fs.

(** *** addRecord (bindService.js, lines 292-345) *)
Definition addRecord (fs : FS) (now : Z) (zoneName : text)
    (record : ResourceRecord) : FS * result unit :=
  let fail (m : text) : result unit := Err (str "Failed to add record: " ++ m) in
  match getZone fs zoneName with
  | Err m => (fs, fail m)
  | Ok zoneFile =>
      match backup_zone_file fs now zoneFile with
      | None => (fs, fail (ENOENT zoneFile))
      | Some fs1 =>
          match fs1 !! zoneFile with
          | None => (fs1, fail (ENOENT zoneFile))
          | Some zoneContent =>
              let zoneContent := incrementSerial zoneContent in
              match formatRecord record with
              | None => (fs1, fail TYPE_ERROR)
              | Some recordLine =>
                  let zoneContent := zoneContent ++ nl ++ recordLine in
                  let fs2 := writeFile zoneFile zoneContent fs1 in
                  match (if validateBeforeReload settings
                         then checkZone fs2 zoneName zoneFile else None) with
                  | Some e => (fs2, fail (str "Zone syntax error: " ++ e))
                  | None =>
                      match (if autoReload settings then reloadBind fs2 else None) with
                      | Some e => (fs2, fail e)
                      | None => (fs2, Ok tt)
                      end
                  end
              end
          end
      end
  end.

(** *** deleteRecord (lines 350-405) *)
Definition deleteRecord (fs : FS) (now : Z) (zoneName recordName recordType : text)
    : FS * result unit :=
  let fail (m : text) : result unit := Err (str "Failed to delete record: " ++ m) in
  match getZone fs zoneName with
  | Err m => (fs, fail m)
  | Ok zoneFile =>
      match backup_zone_file fs now zoneFile with
      | None => (fs, fail (ENOENT zoneFile))
      | Some fs1 =>
          match fs1 !! zoneFile with
          | None => (fs1, fail (ENOENT zoneFile))
          | Some zoneContent =>
              let zoneContent := incrementSerial zoneContent in
              let zoneContent := delete_lines recordName recordType zoneContent in
              let fs2 := writeFile zoneFile zoneContent fs1 in
              match (if autoReload settings then reloadBind fs2 else None) with
              | Some e => (fs2, fail e)
              | None => (fs2, Ok tt)
              end
          end
      end
  end.

(** *** updateRecord (lines 413-490) *)
Definition updateRecord (fs : FS) (now : Z) (zoneName : text)
    (oldRecord newRecord : ResourceRecord) : FS * result unit :=
  let fail (m : text) : result unit := Err (str "Failed to update record: " ++ m) in
  match getZone fs zoneName with
  | Err m => (fs, fail m)
  | Ok zoneFile =>
      match backup_zone_file fs now zoneFile with
      | None => (fs, fail (ENOENT zoneFile))
      | Some fs1 =>
          match fs1 !! zoneFile with
          | None => (fs1, fail (ENOENT zoneFile))
          | Some zoneContent =>
              let zoneContent := incrementSerial zoneContent in
              match update_lines oldRecord newRecord (split_lines zoneContent) false with
              | None => (fs1, fail TYPE_ERROR)
              | Some (_, false) =>
                  (fs1, fail (str "Record not found: " ++ name oldRecord ++ str " "
                              ++ match type oldRecord with
                                 | Some t => t
                                 | None => str "undefined"
                                 end))
              | Some (updatedLines, true) =>
                  let fs2 := writeFile zoneFile (join nl updatedLines) fs1 in
                  match (if validateBeforeReload settings
                         then checkZone fs2 zoneName zoneFile else None) with
                  | Some e => (fs2, fail (str "Zone syntax error: " ++ e))
                  | None =>
                      match (if autoReload settings then reloadBind fs2 else None) with
                      | Some e => (fs2, fail e)
                      | None => (fs2, Ok tt)
                      end
                  end
              end
          end
      end
  end.

End Collaborators.

End RecordOps.

(* ===================================================================== *)
(** * Address validation (bindService.js) *)
(* ===================================================================== *)

Module Validation.
Import JS.

(** [\d{1,3}] at the head of [s], followed by something that is not a
    digit: the text after the digits.  The quantifier is greedy and what
    follows it in the pattern (a dot, or the end of the input) is never a
    digit, so the only run that can match is the maximal one. *)
Definition octet_here (s : text) : option text :=
  let '(d, r) := span is_digit s in
  if (1 <=? length d)%nat && (length d <=? 3)%nat then Some r else None.

(** [(\d{1,3}\.){n}] at the head of [s]. *)
Fixpoint dotted_octets (n : nat) (s : text) : option text :=
  match n with
  | O => Some s
  | S n' =>
      match octet_here s with
      | Some (c :: r) => if c =? 46 then dotted_octets n' r else None
      | _ => None
      end
  end.

(** [/^(\d{1,3}\.){3}\d{1,3}$/.test(ip)]. *)
Definition ipv4Regex_test (ip : text) : bool :=
  match dotted_octets 3 ip with
  | Some r => match octet_here r with Some [] => true | _ => false end
  | None => false
  end.

(** [x <= k] on numbers: false on [NaN]. *)
Definition num_leb (x : num) (k : Z) : bool :=
  match x with
  | JNum z => (z <=? k)%Z
  | JNaN => false
  end.

(** *** isValidIp (bindService.js, lines 2045-2060) *)
Definition isValidIp (ip : text) : bool :=
  if ipv4Regex_test ip then
    forallb (fun part => num_leb (parseInt part) 255) (split_on (N.eqb 46) ip)
  else if includes (str ":") ip then true
  else false.

(** One to three decimal digits. *)
Definition octet_shape (x : text) : bool :=
  forallb is_digit x && (1 <=? length x)%nat && (length x <=? 3)%nat.

End Validation.

(* ===================================================================== *)
(** * The resolver options file (bindService.js) *)
(* ===================================================================== *)

Module ResolverConfig.
Import JS BindConfig.

(** What [generateResolverConfig] reads from its argument; [None] is a
    missing property.  [adblock] stands for the truthiness of
    [adblock.enabled]. *)
Record ResolverSettings := mkResolverSettings {
  forwarders : option (list text);
  queryLogging : option bool;
  cacheSize : option text;
  dnssecValidation : option bool;
  adblock : option bool
}.

(** *** generateResolverConfig (bindService.js, lines 967-1041) *)
Definition generateResolverConfig (resolverSettings : ResolverSettings) : text :=
  let forwarders :=
    match forwarders resolverSettings with
    | Some l => l
    | None => [str "8.8.8.8"; str "8.8.4.4"; str "1.1.1.1"; str "1.0.0.1"]
    end in
  let queryLogging :=
    match queryLogging resolverSettings with Some b => b | None => false end in
  let cacheSize :=
    match cacheSize resolverSettings with Some s => s | None => str "256M" end in
  let dnssecValidation :=
    match dnssecValidation resolverSettings with Some b => b | None => true end in
  let adblock_enabled :=
    match adblock resolverSettings with Some b => b | None => false end in
  let config :=
    str "options {" ++ nl
    ++ str "    directory " ++ [34] ++ str "/var/cache/bind" ++ [34] ++ str ";" ++ nl
    ++ nl
    ++ str "    // DNS Resolver Configuration" ++ nl
    ++ str "    recursion yes;" ++ nl
    ++ str "    allow-recursion { any; };" ++ nl
    ++ str "    allow-query { any; };" ++ nl
    ++ str "    allow-query-cache { any; };" ++ nl
    ++ nl
    ++ str "    // Forwarders" ++ nl
    ++ str "    forwarders {" ++ nl in
  let config :=
    fold_left (fun config forwarder =>
                 config ++ str "        " ++ forwarder ++ str ";" ++ nl)
              forwarders config in
  let config :=
    config ++ str "    };" ++ nl
    ++ str "    forward only;" ++ nl
    ++ nl
    ++ str "    // DNSSEC" ++ nl
    ++ str "    dnssec-validation "
    ++ (if dnssecValidation then str "auto" else str "no") ++ str ";" ++ nl
    ++ nl
    ++ str "    // Query Logging" ++ nl in
  let config :=
    if queryLogging then config ++ str "    querylog yes;" ++ nl else config in
  let config :=
    config ++ nl
    ++ str "    // Cache Size" ++ nl
    ++ str "    max-cache-size " ++ cacheSize ++ str ";" ++ nl
    ++ nl
    ++ str "    // Additional options" ++ nl
    ++ str "    listen-on port 53 { any; };" ++ nl
    ++ str "    listen-on-v6 port 53 { any; };" ++ nl
    ++ nl
    ++ str "    // Disable version queries for security" ++ nl
    ++ str "    version none;" ++ nl
    ++ nl
    ++ str "    // Rate limiting" ++ nl
    ++ str "    rate-limit {" ++ nl
    ++ str "        responses-per-second 5;" ++ nl
    ++ str "        window 5;" ++ nl
    ++ str "    };" ++ nl in
  let config :=
    if adblock_enabled then
      config ++ nl
      ++ str "    // Response Policy Zone for Adblock" ++ nl
      ++ str "    response-policy {" ++ nl
      ++ str "        zone " ++ [34] ++ str "adblock" ++ [34] ++ str ";" ++ nl
      ++ str "    };" ++ nl
    else config in
  config ++ str "};" ++ nl ++ nl.

End ResolverConfig.

(* ===================================================================== *)
(** * Measures used to state the properties *)
(* ===================================================================== *)

Module Measures.
Import JS ZoneRecords BindConfig Pipeline RecordOps.

(** [Number.isSafeInteger]: the integers that the interpreter holds
    exactly; it prints them in plain decimal and [parseInt] reads them
    back unchanged. *)
Definition is_safe_integer (z : Z) : bool := (Z.abs z <=? 9007199254740991)%Z.

(** A numeric field of a record that is missing, not a number, or a safe
    integer. *)
Definition safe_field (x : option num) : bool :=
  match x with
  | Some (JNum z) => is_safe_integer z
  | _ => true
  end.

(** How often a view lists a zone. *)
Definition zone_count (zoneName : text) (v : ViewEntry) : nat :=
  length (List.filter (text_eqb zoneName) (list_or (view_zones v) [])).

(** How often the views list a zone, all together. *)
Definition membership_count (zoneName : text) (l : list ViewEntry) : nat :=
  list_sum (map (zone_count zoneName) l).

(** No run of newlines reaches three; [run] newlines have just been
    read. *)
Fixpoint newline_runs_ok (run : nat) (s : text) : bool :=
  match s with
  | [] => true
  | c :: r =>
      if c =? 10 then (run <? 2)%nat && newline_runs_ok (S run) r
      else newline_runs_ok 0 r
  end.

(** The class [[\n,;]] at which [normalizeList] splits. *)
Definition is_list_separator (c : N) : bool := (c =? 10) || (c =? 44) || (c =? 59).

(** No backslash is followed by the letter n. *)
Fixpoint no_escaped_newline (s : text) : bool :=
  match s with
  | [] => true
  | c :: r =>
      negb ((c =? 92) && match r with c' :: _ => c' =? 110 | [] => false end)
      && no_escaped_newline r
  end.

(** An entry of an address list as BIND expects it: not empty, no white
    space around it, no separator inside. *)
Definition clean_item (x : text) : Prop :=
  x <> [] /\ trim x = x /\ forallb (fun c => negb (is_list_separator c)) x = true.

(** What one element of its input contributes to [normalizeList]: the
    body of its loop. *)
Definition normalize_item (v : text) : list text :=
  match v with
  | [] => []
  | _ =>
      List.filter (fun s => negb (text_eqb s []))
        (map trim (split_on (fun c => (c =? 10) || (c =? 44) || (c =? 59))
                     (unescape_newlines v)))
  end.

(** The columns of a record, without its position in the file. *)
Definition record_columns (r : ResourceRecord)
    : text * option text * text * option num :=
  (name r, type r, value r, ttl r).

(** The records a deletion of ([recordName], [recordType]) keeps. *)
Definition other_record (recordName recordType : text)
    (k : text * option text * text * option num) : bool :=
  let '(name, type, _, _) := k in
  negb (text_eqb name recordName && same_type type (Some recordType)).

(** [written] is [given] with its trailing dots replaced by one dot. *)
Definition single_trailing_dot (written given : text) : Prop :=
  exists body k,
    given = body ++ repeat 46 k
    /\ written = body ++ str "."
    /\ forall b, body <> b ++ str ".".

(** A character that is not a digit is met within the first [n]
    characters. *)
Fixpoint stops_within (n : nat) (s : text) : bool :=
  match n with
  | O => false
  | S n' =>
      match s with
      | c :: r => if is_digit c then stops_within n' r else true
      | [] => false
      end
  end.

(** No position of [s] starts ten digits in a row, [s] being followed by
    [x]. *)
Fixpoint runs_stop (s x : text) : bool :=
  match s with
  | [] => true
  | c :: r => stops_within 10 (s ++ x) && runs_stop r x
  end.

(** [s] holds no ten digits in a row. *)
Definition no_ten_digits (s : text) : bool := runs_stop s [32].

(** [s] starts with a character that is not a digit. *)
Definition starts_plain (s : text) : bool :=
  match s with
  | c :: _ => negb (is_digit c)
  | [] => false
  end.

(** None of the texts spliced into the header before the serial holds
    ten digits in a row. *)
Definition header_fields_plain (now : Clock) (zoneName : text) (options : Options)
    : bool :=
  no_ten_digits zoneName
  && no_ten_digits (isoString now)
  && no_ten_digits (toString (num_or (opt_ttl options) 3600))
  && no_ten_digits (text_or (nameserver options) (str "ns1." ++ zoneName ++ str "."))
  && no_ten_digits (text_or (email options) (str "admin." ++ zoneName ++ str ".")).

(** Total depth of the texts of a list. *)
Definition depth_sum (l : list text) : Z :=
  fold_right (fun x acc => (depth x + acc)%Z) 0%Z l.

(** The lines that render an access list in a new view. *)
Definition acl_lines (viewAcl : Acl) : list text :=
  let allowList := normalizeList (list_or (allow viewAcl) [str "any"]) in
  let denyList := normalizeList (list_or (deny viewAcl) []) in
  (match allowList with
   | [] => []
   | _ => [str "    match-clients { " ++ join (str "; ") allowList ++ str "; };"]
   end)
  ++
  (match denyList with
   | [] => []
   | _ => [str "    // deny: " ++ join (str "; ") denyList ++ str ";"]
   end).

End Measures.

(* ===================================================================== *)
(** * More sample inputs *)
(* ===================================================================== *)

Module Fixtures.
Import JS ZoneRecords BindConfig Pipeline Samples ConfigOps RecordOps.

(** A view that already serves one zone, and a block to add to it. *)
Definition guest_view : text :=
  view_with (str "guest") (str "corp") (str "/etc/bind/zones/db.corp").

Definition example_block : text :=
  zone_block (str "example.com") (str "/etc/bind/zones/db.example.com").

Definition guest_view_extended : text :=
  match insertZoneIntoViewContent guest_view example_block (str "guest")
          default_acl with
  | Ok c => c
  | Err _ => []
  end.

(** [two_zones] after the removal of its first block. *)
Definition one_zone_left : text :=
  match removeZoneFromConfigContent two_zones (str "example-com.net") with
  | Some c => c
  | None => []
  end.

(** The configuration of [sample_world] after one more zone was added. *)
Definition with_example_org : FS :=
  match addZoneToConfig (files sample_world) (str "example.org")
          (str "/etc/bind/zones/db.example.org") (str "master") with
  | Some (fs, _) => fs
  | None => ∅
  end.

(** A zone file with a serial and two address records of the same name. *)
Definition zone_path : text := str "/etc/bind/zones/db.example.com".

Definition zone_text : text :=
  str "                        2024010501       ; Serial" ++ ZoneRecords.nl
  ++ str "www             300      IN A        192.0.2.1" ++ ZoneRecords.nl
  ++ str "www             300      IN A        192.0.2.2" ++ ZoneRecords.nl
  ++ str "ftp             300      IN A        192.0.2.9".

Definition zone_fs : FS := <[zone_path := zone_text]> ∅.

Definition backup_and_check : ZoneSettings := mkZoneSettings true true false.

Definition zone_lookup (_ : FS) (_ : text) : result text := Ok zone_path.
Definition check_fails (_ : FS) (_ _ : text) : option text :=
  Some (str "zone example.com/IN: not loaded due to errors.").
Definition reload_quiet (_ : FS) : option text := None.

Definition mail_record : ResourceRecord :=
  mkRecord None (str "mail") (Some (str "A")) (str "192.0.2.3")
    (Some (JNum 300)) None None None.

(** The line written for [mail_record]. *)
Definition mail_line : text :=
  match formatRecord mail_record with
  | Some l => l
  | None => []
  end.

(** The lines of [zone_text] after an update of the [www] record. *)
Definition zone_lines_updated : list text :=
  match update_lines www_record mail_record (split_lines zone_text) false with
  | Some (ls, _) => ls
  | None => []
  end.

(** [sample_world] with automatic reloading switched off. *)
Definition quiet_world : World Settings :=
  mkWorld (<[namedConfLocal := sample_conf]> ∅) (mkSettings false None).

(** [sample_world] after [example.com] was moved to the view [guest]. *)
Definition moved_world : World Settings :=
  match reassignZone Settings sample_load sample_update accept_all reload_ok
          sample_getZone sample_world 1700000000000 1700000000001
          (str "example.com") (str "guest") with
  | Some (w', _) => w'
  | None => sample_world
  end.

(** A document whose only zone is [example-com.net], and the same document
    followed by a block for [example.com.net] that is never closed. *)
Definition lookalike_only : text :=
  simple_zone (str "example-com.net") (str "/etc/bind/zones/db.example-com.net").

Definition unclosed_tail : text :=
  str "zone " ++ [34] ++ str "example.com.net" ++ [34] ++ str " {" ++ nl
  ++ str "    type master;" ++ nl.

Definition unclosed_behind_lookalike : text :=
  lookalike_only ++ nl ++ unclosed_tail.

(** A reload that reads more than the live file: it succeeds when the
    live file and at least one backup of it are present. *)
Definition reload_reads_backup (w : World Settings) : option text :=
  match files w !! namedConfLocal with
  | None => Some (str "rndc: open: /etc/bind/named.conf.local: file not found")
  | Some _ =>
      if existsb (fun p => starts_with (namedConfLocal ++ str ".backup.") p)
           (map fst (map_to_list (files w)))
      then None
      else Some (str "rndc: no backup of the configuration")
  end.

(** A configuration with two views, and the pattern for the first. *)
Definition views_fs : FS := <[NAMED_CONF_LOCAL := split_horizon]> ∅.

Definition dashed_pattern : list pat :=
  match compile_name (str "example-com.net") with
  | Some p => p
  | None => []
  end.

Definition internal_pattern : list pat :=
  match compile_name (str "internal") with
  | Some p => p
  | None => []
  end.

End Fixtures.

(* ===================================================================== *)
(** * Properties *)
(* ===================================================================== *)

(** ** Reverse-zone generation *)

Module GenerateFacts.
Import JS ZoneRecords Samples.

Section Sweep.
Variable domainForPTR : text.

(** The loop appends one line per value of [i], in order. *)
Lemma ptr_loop_lines n : forall i zoneContent,
  (i + n <= 255)%nat ->
  ptr_loop n domainForPTR (Z.of_nat i) zoneContent
  = zoneContent ++ concat (map (ptr_line domainForPTR) (map Z.of_nat (seq i n))).
Proof.
  induction n as [|n IH]; intros i zoneContent Hle; simpl.
  - now rewrite app_nil_r.
  - destruct (Z.leb_spec (Z.of_nat i) 254) as [_|Hgt]; [|lia].
    replace (Z.of_nat i + 1)%Z with (Z.of_nat (S i)) by lia.
    rewrite IH by lia.
    now rewrite <- app_assoc.
Qed.
End Sweep.



(** The scenario of the specification, read back through the parser: 254
    records of type PTR, named 1 to 254. *)
Example generated_reverse_zone_parses_to_254_ptr :
  let records :=
    List.filter (fun r => match type r with
                     | Some t => text_eqb t (str "PTR")
                     | None => false
                     end)
           (parseZoneFile
              (generateZoneFile sample_clock (str "1.2.3.in-addr.arpa.") no_options)) in
  map name records = map (fun i => Z_toString (Z.of_nat i)) (seq 1 254)
  /\ map value records
     = map (fun i => str "host" ++ Z_toString (Z.of_nat i) ++ str ".example.com.")
           (seq 1 254).
Proof. vm_compute. split; reflexivity. Qed.

End GenerateFacts.

(** ** Lines mentioning SOA *)

Module ParseFacts.
Import JS ZoneRecords.

(** A line whose trimmed text contains [SOA] pushes no record. *)
Lemma parse_line_SOA id line :
  includes (str "SOA") (trim line) = true -> parse_line id line = None.
Proof.
  intros H. unfold parse_line. rewrite H.
  now destruct (_ || _).
Qed.

Lemma parse_lines_filter_SOA lines : forall id,
  parse_lines lines id
  = parse_lines
      (List.filter (fun l => negb (includes (str "SOA") (trim l))) lines) id.
Proof.
  induction lines as [|l lines IH]; intros id; [reflexivity|].
  cbn [List.filter parse_lines].
  destruct (includes (str "SOA") (trim l)) eqn:E; cbn [negb].
  - rewrite (parse_line_SOA _ _ E). apply IH.
  - cbn [parse_lines]. destruct (parse_line id l); [f_equal|]; apply IH.
Qed.

(** C10. The records returned for any content are those of the lines whose
    trimmed text does not contain [SOA]: every line that mentions [SOA]
    anywhere, an ordinary record line included, contributes nothing, not
    even to the numbering of the records that follow. *)
Theorem parseZoneFile_excludes_SOA_lines content :
  parseZoneFile content
  = parse_lines
      (List.filter (fun l => negb (includes (str "SOA") (trim l)))
         (split_lines content))
      1.
Proof. unfold parseZoneFile. apply parse_lines_filter_SOA. Qed.

(** A TXT record whose value mentions SOA is lost; its neighbours are
    numbered as if it were not there. *)
Example txt_record_mentioning_SOA_is_dropped :
  map (fun r => (rid r, name r))
      (parseZoneFile
         (str "www 300 IN A 192.0.2.1" ++ nl
          ++ str "note 300 IN TXT see-the-SOA-record" ++ nl
          ++ str "ftp 300 IN A 192.0.2.2"))
  = [(Some 1%Z, str "www"); (Some 2%Z, str "ftp")].
Proof. vm_compute. reflexivity. Qed.

End ParseFacts.

(** ** Removing a zone block *)

Module RemoveFacts.
Import JS BindConfig Samples.

(** A count that stays positive along the text never finds its brace. *)
Lemma brace_scan_positive s : forall braceCount i,
  (forall n, (0 < n <= length s)%nat -> (0 < braceCount + depth (firstn n s))%Z) ->
  brace_scan s braceCount i = None.
Proof.
  induction s as [|ch r IH]; intros braceCount i Hpos; [reflexivity|].
  assert (H1 := Hpos 1%nat ltac:(simpl; lia)).
  cbn [firstn depth] in H1.
  cbn [brace_scan].
  destruct (ch =? 123) eqn:Eo.
  - apply IH. intros n Hn.
    specialize (Hpos (S n) ltac:(simpl; lia)).
    cbn [firstn depth] in Hpos. rewrite Eo in Hpos. lia.
  - destruct (ch =? 125) eqn:Ec.
    + destruct (Z.eqb_spec (braceCount - 1) 0) as [E0|_]; [simpl in H1; lia|].
      apply IH. intros n Hn.
      specialize (Hpos (S n) ltac:(simpl; lia)).
      cbn [firstn depth] in Hpos. rewrite Eo, Ec in Hpos. lia.
    + apply IH. intros n Hn.
      specialize (Hpos (S n) ltac:(simpl; lia)).
      cbn [firstn depth] in Hpos. rewrite Eo, Ec in Hpos. lia.
Qed.

Lemma skipn_add {A} (a b : nat) (l : list A) :
  skipn (a + b) l = skipn b (skipn a l).
Proof.
  revert l. induction a as [|a IH]; intros l; [reflexivity|].
  destruct l; simpl; [now rewrite skipn_nil | apply IH].
Qed.

Lemma block_end_unclosed content startIndex openBraceIndex :
  indexOf_char 123 (skipn startIndex content) = Some openBraceIndex ->
  unclosed (skipn startIndex content) ->
  block_end content (startIndex + openBraceIndex) = None.
Proof.
  intros Hopen Hun. unfold unclosed in Hun. rewrite Hopen in Hun.
  unfold block_end. rewrite skipn_add.
  rewrite brace_scan_positive; [reflexivity|].
  intros n Hn. specialize (Hun n Hn). lia.
Qed.

(** Read with the pattern that the function compiles from the name,
    both early returns give the text back as it was: the pattern matches
    nowhere, or the block at its first match never closes. *)
Lemma removeZone_early_returns content zoneName search :
  compile_name zoneName = Some search ->
  zone_search search None content = None
  \/ (exists startIndex,
        zone_search search None content = Some startIndex
        /\ unclosed (skipn startIndex content)) ->
  removeZoneFromConfigContent content zoneName = Some content.
Proof.
  intros Hc H. unfold removeZoneFromConfigContent. rewrite Hc. f_equal.
  destruct H as [Hnone | (startIndex & Hsome & Hun)].
  - now rewrite Hnone.
  - rewrite Hsome. unfold slice_from.
    destruct (indexOf_char 123 (skipn startIndex content)) as [k|] eqn:Eo;
      [|reflexivity].
    now rewrite (block_end_unclosed _ _ _ Eo Hun).
Qed.

Lemma unterminated_zone_unclosed : unclosed (skipn 0 unterminated_zone).
Proof.
  unfold unclosed.
  change (indexOf_char 123 (skipn 0 unterminated_zone)) with (Some 19%nat).
  intros n Hn.
  change (length (skipn 19 (skipn 0 unterminated_zone))) with 47%nat in Hn.
  assert (Hall : forallb (fun n => (0 <? depth (firstn n
                   (skipn 19 (skipn 0 unterminated_zone))))%Z) (seq 1 47) = true)
    by (vm_compute; reflexivity).
  rewrite forallb_forall in Hall.
  apply Z.ltb_lt, Hall, in_seq. lia.
Qed.

Lemma removeZone_early_returns_sample :
  removeZoneFromConfigContent unterminated_zone (str "example.com")
  = Some unterminated_zone
  /\ removeZoneFromConfigContent (str "options { recursion no; };") (str "example.com")
     = Some (str "options { recursion no; };").
Proof.
  split.
  - apply (removeZone_early_returns unterminated_zone (str "example.com")
             [Lit 101; Lit 120; Lit 97; Lit 109; Lit 112; Lit 108; Lit 101;
              AnyChar; Lit 99; Lit 111; Lit 109]).
    + reflexivity.
    + right. exists 0%nat. split; [reflexivity | exact unterminated_zone_unclosed].
  - apply (removeZone_early_returns (str "options { recursion no; };")
             (str "example.com")
             [Lit 101; Lit 120; Lit 97; Lit 109; Lit 112; Lit 108; Lit 101;
              AnyChar; Lit 99; Lit 111; Lit 109]).
    + reflexivity.
    + left. reflexivity.
Defined.

Lemma unclosed_tail_unclosed :
  unclosed (skipn 93 Fixtures.unclosed_behind_lookalike).
Proof.
  unfold unclosed.
  change (indexOf_char 123 (skipn 93 Fixtures.unclosed_behind_lookalike))
    with (Some 23%nat).
  intros n Hn.
  change (length (skipn 23 (skipn 93 Fixtures.unclosed_behind_lookalike)))
    with 19%nat in Hn.
  assert (Hall : forallb (fun n => (0 <? depth (firstn n
                   (skipn 23 (skipn 93 Fixtures.unclosed_behind_lookalike))))%Z)
                   (seq 1 19) = true)
    by (vm_compute; reflexivity).
  rewrite forallb_forall in Hall.
  apply Z.ltb_lt, Hall, in_seq. lia.
Qed.

(** C7 (failing input). Asked to remove [example.com.net], the function
    edits documents it should give back untouched, because the dots of
    the name are read as wild cards and the header of [example-com.net]
    is taken for the one asked for.  (1) In a document that holds only
    the zone [example-com.net], neither the header [zone "example.com.net"]
    nor the name occurs, yet the whole document is removed.  (2) In a
    document where that zone is followed by a block for [example.com.net]
    that never closes, the header occurs once and its block is unclosed,
    yet the block of [example-com.net] before it is removed. *)
Theorem removeZone_edits_on_lookalike :
  let header := str "zone " ++ [34] ++ str "example.com.net" ++ [34] in
  (indexOf header Fixtures.lookalike_only = None
   /\ includes (str "example.com.net") Fixtures.lookalike_only = false
   /\ removeZoneFromConfigContent Fixtures.lookalike_only (str "example.com.net")
      = Some nl
   /\ nl <> Fixtures.lookalike_only)
  /\ (indexOf header Fixtures.unclosed_behind_lookalike = Some 93%nat
      /\ zone_blocks_named (str "example.com.net")
           Fixtures.unclosed_behind_lookalike = 1%nat
      /\ skipn 93 Fixtures.unclosed_behind_lookalike = Fixtures.unclosed_tail
      /\ unclosed (skipn 93 Fixtures.unclosed_behind_lookalike)
      /\ removeZoneFromConfigContent Fixtures.unclosed_behind_lookalike
           (str "example.com.net")
         = Some Fixtures.unclosed_tail
      /\ Fixtures.unclosed_tail <> Fixtures.unclosed_behind_lookalike).
Proof.
  intros header. split.
  - split; [vm_compute; reflexivity|]. split; [vm_compute; reflexivity|].
    split; [vm_compute; reflexivity|]. intros H. vm_compute in H. discriminate H.
  - split; [vm_compute; reflexivity|]. split; [vm_compute; reflexivity|].
    split; [vm_compute; reflexivity|]. split; [exact unclosed_tail_unclosed|].
    split; [vm_compute; reflexivity|]. intros H. vm_compute in H. discriminate H.
Qed.

End RemoveFacts.

(** ** The commit pipeline *)

Module PipelineFacts.
Import JS BindConfig Pipeline Samples.

Lemma path_suffix_ne (p suffix : text) : suffix <> [] -> p ++ suffix <> p.
Proof.
  intros Hne Heq. apply (f_equal (@length N)) in Heq.
  rewrite length_app in Heq. destruct suffix; [congruence | simpl in Heq; lia].
Qed.

Lemma tmp_ne_live p stamp : p ++ str ".tmp." ++ stamp <> p.
Proof. apply path_suffix_ne. discriminate. Qed.

Lemma backup_ne_live p stamp : p ++ str ".backup." ++ stamp <> p.
Proof. apply path_suffix_ne. discriminate. Qed.

Lemma backup_ne_tmp p s1 s2 : p ++ str ".backup." ++ s2 <> p ++ str ".tmp." ++ s1.
Proof. intros H. apply app_inv_head in H. discriminate. Qed.

Section Collaborators.
Variable Store : Type.
Variable loadSettings : Store -> Settings.
Variable updateSettings : Store -> list ViewEntry -> result Store.
Variable validator : FS -> text -> option text.
Variable reloadBind : World Store -> option text.
Variable getZone : World Store -> text -> result ZoneInfo.

Local Abbreviation writeConfigWithValidation := (writeConfigWithValidation validator).
Local Abbreviation reassign_candidate := (reassign_candidate Store loadSettings).
Local Abbreviation reassign_commit :=
  (reassign_commit Store loadSettings validator getZone).
Local Abbreviation reassignZone :=
  (reassignZone Store loadSettings updateSettings validator reloadBind getZone).

(** A rejected candidate in [writeConfigWithValidation]: error, temp file
    removed, target untouched. *)
Lemma writeConfigWithValidation_rejected fs now filePath content diagnostic :
  includes (str "named.conf") filePath = true ->
  let tmpFile := filePath ++ str ".tmp." ++ Z_toString now in
  validator (writeFile tmpFile content fs) tmpFile = Some diagnostic ->
  exists fs',
    writeConfigWithValidation fs now filePath content
    = (fs', Err (str "Failed to write config: BIND config validation failed: "
                 ++ diagnostic))
    /\ fs' !! tmpFile = None
    /\ fs' !! filePath = fs !! filePath.
Proof.
  intros Hconf tmpFile Hrej. unfold Pipeline.writeConfigWithValidation.
  rewrite Hconf. fold tmpFile. rewrite Hrej.
  eexists. split; [reflexivity|]. unfold unlink, writeFile. split.
  - apply lookup_delete_eq.
  - rewrite lookup_delete_ne by apply tmp_ne_live.
    apply lookup_insert_ne, tmp_ne_live.
Qed.

(** The candidate is built from the live file and goes to a temp path
    next to it. *)
Lemma reassign_candidate_ok w now1 zoneName zoneFile newViewName tmpFile newContent :
  reassign_candidate w now1 zoneName zoneFile newViewName
  = Some (Ok (tmpFile, newContent)) ->
  tmpFile = namedConfLocal ++ str ".tmp." ++ Z_toString now1
  /\ exists content, files w !! namedConfLocal = Some content.
Proof.
  unfold Pipeline.reassign_candidate.
  change NAMED_CONF_LOCAL with namedConfLocal.
  destruct (files w !! namedConfLocal) as [content|]; [|discriminate].
  destruct (buildMoveZoneToViewContent _ _ _ _ _) as [[c|m]|];
    try discriminate.
  intros H. split; [congruence | eauto].
Qed.

(** A rejected candidate in [reassignZone]: error, live file untouched,
    but the temp file stays where it was written. *)
Lemma reassign_commit_rejected w now1 now2 zoneName newViewName
      zone tmpFile newContent diagnostic :
  text_eqb zoneName (str ".") || text_eqb zoneName (str "adblock") = false ->
  getZone w zoneName = Ok zone ->
  text_eqb (match view zone with Some v => v | None => [] end) newViewName = false ->
  reassign_candidate w now1 zoneName (file zone) newViewName
  = Some (Ok (tmpFile, newContent)) ->
  validator (writeFile tmpFile newContent (files w)) tmpFile = Some diagnostic ->
  exists w',
    reassignZone w now1 now2 zoneName newViewName
    = Some (w', Err (str "Failed to reassign zone: "
                     ++ str "Config validation failed for proposed change: "
                     ++ diagnostic))
    /\ files w' !! namedConfLocal = files w !! namedConfLocal
    /\ files w' !! tmpFile = Some newContent.
Proof.
  intros Hsys Hzone Hview Hcand Hrej.
  destruct (reassign_candidate_ok _ _ _ _ _ _ _ Hcand) as [Htmp _].
  unfold Pipeline.reassignZone, Pipeline.reassign_commit.
  rewrite Hsys, Hzone, Hview, Hcand, Hrej. unfold reassign_fail.
  eexists. split; [reflexivity|]. cbn [files]. unfold writeFile. split.
  - apply lookup_insert_ne. rewrite Htmp. apply tmp_ne_live.
  - apply lookup_insert_eq.
Qed.

(** What the file system looks like right after the replace. *)
Lemma reassign_commit_replaced w now1 now2 zoneName newViewName fs3 backupFile :
  reassign_commit w now1 now2 zoneName newViewName = Some (Replaced fs3 backupFile) ->
  exists content newContent,
    files w !! namedConfLocal = Some content
    /\ backupFile = namedConfLocal ++ str ".backup." ++ Z_toString now2
    /\ fs3 !! backupFile = Some content
    /\ fs3 !! namedConfLocal = Some newContent.
Proof.
  unfold Pipeline.reassign_commit, reassign_fail.
  destruct (_ || _); [discriminate|].
  destruct (getZone w zoneName) as [zone|m]; [|discriminate].
  destruct (text_eqb _ newViewName); [discriminate|].
  destruct (reassign_candidate w now1 zoneName (file zone) newViewName)
    as [[[tmpFile newContent]|m]|] eqn:Hcand; try discriminate.
  destruct (validator _ tmpFile); [discriminate|].
  destruct (reassign_replace _ _ _) as [fs|] eqn:Hrep; [|discriminate].
  intros H. assert (fs = fs3) by congruence.
  assert (Hbackup : backupFile
            = namedConfLocal ++ str ".backup." ++ Z_toString now2) by congruence.
  subst fs. clear H.
  destruct (reassign_candidate_ok _ _ _ _ _ _ _ Hcand) as [Htmp Hlive].
  destruct Hlive as [content Hlive].
  exists content, newContent. split; [exact Hlive|]. split; [exact Hbackup|].
  rewrite Hbackup.
  unfold reassign_replace, copyFile, move, writeFile in Hrep.
  rewrite lookup_insert_ne in Hrep by (rewrite Htmp; apply tmp_ne_live).
  rewrite Hlive in Hrep.
  rewrite lookup_insert_ne in Hrep
    by (rewrite Htmp; apply backup_ne_tmp).
  rewrite lookup_insert_eq in Hrep.
  assert (Hfs3 : fs3 = <[namedConfLocal := newContent]>
                         (delete tmpFile
                            (<[namedConfLocal ++ str ".backup." ++ Z_toString now2
                               := content]>
                               (<[tmpFile := newContent]> (files w)))))
    by congruence.
  rewrite Hfs3. split.
  - rewrite lookup_insert_ne by (apply not_eq_sym, backup_ne_live).
    rewrite lookup_delete_ne by (rewrite Htmp; apply not_eq_sym, backup_ne_tmp).
    apply lookup_insert_eq.
  - apply lookup_insert_eq.
Qed.


End Collaborators.



(** C1 (failing input). With a validator that rejects the candidate,
    [reassignZone] raises the error and leaves the live file as it was,
    but the temp file it wrote is still on disk afterwards, whereas
    [writeConfigWithValidation] removes it
    ([writeConfigWithValidation_rejected]). *)
Theorem reassignZone_rejected_leaves_temp_file :
  let tmpFile := str "/etc/bind/named.conf.local.tmp.1700000000000" in
  exists w' candidate,
    reassignZone Settings sample_load sample_update reject_all reload_ok
      sample_getZone sample_world 1700000000000 1700000000001
      (str "example.com") (str "guest")
    = Some (w', Err (str "Failed to reassign zone: "
                     ++ str "Config validation failed for proposed change: "
                     ++ str "syntax error"))
    /\ files w' !! namedConfLocal = files sample_world !! namedConfLocal
    /\ files sample_world !! tmpFile = None
    /\ files w' !! tmpFile = Some candidate.
Proof.
  intros tmpFile.
  edestruct (reassign_commit_rejected Settings sample_load sample_update
               reject_all reload_ok sample_getZone sample_world
               1700000000000 1700000000001 (str "example.com") (str "guest"))
    as (w' & Hrun & Hlive & Htmp);
    [reflexivity | reflexivity | reflexivity | vm_compute; reflexivity
    | reflexivity |].
  exists w'. eexists. split; [exact Hrun|]. split; [exact Hlive|].
  split; [vm_compute; reflexivity | exact Htmp].
Qed.

End PipelineFacts.

(** ** Zone names are spliced into the pattern unescaped *)

Module MoveFacts.
Import JS BindConfig Samples.

(** C6 (failing input). Asked to remove [example.com.net] from a document
    that holds the zones [example-com.net] and [example.com.net], each
    once, the function removes the block of [example-com.net], because the
    dots of the name are read as wild cards, and a new scan for
    [example.com.net] still finds its block, at the very start. *)
Theorem removeZone_removes_lookalike_zone :
  zone_blocks_named (str "example.com.net") two_zones = 1%nat
  /\ zone_blocks_named (str "example-com.net") two_zones = 1%nat
  /\ depth two_zones = 0%Z
  /\ exists search cleaned,
       compile_name (str "example.com.net") = Some search
       /\ removeZoneFromConfigContent two_zones (str "example.com.net") = Some cleaned
       /\ cleaned = simple_zone (str "example.com.net")
                      (str "/etc/bind/zones/db.example.com.net")
       /\ zone_search search None cleaned = Some 0%nat
       /\ indexOf (str "zone " ++ [34] ++ str "example.com.net" ++ [34]) cleaned
          = Some 0%nat
       /\ zone_blocks_named (str "example-com.net") cleaned = 0%nat.
Proof.
  split; [vm_compute; reflexivity|].
  split; [vm_compute; reflexivity|].
  split; [vm_compute; reflexivity|].
  do 2 eexists.
  split; [vm_compute; reflexivity|].
  split; [vm_compute; reflexivity|].
  split; [vm_compute; reflexivity|].
  split; [vm_compute; reflexivity|].
  split; vm_compute; reflexivity.
Qed.

(** C5 (failing input). Moving [example.com.net] to the view [guest] twice
    in a row, starting from the same document: the first call removes the
    look-alike zone and adds a second block for [example.com.net]; after
    the second call the view holds two blocks with that name. *)
Theorem moveZone_twice_duplicates_zone :
  let move content :=
    buildMoveZoneToViewContent content (str "example.com.net")
      (str "/etc/bind/zones/db.example.com.net") (str "guest") default_acl in
  exists once twice,
    move two_zones = Some (Ok once)
    /\ move once = Some (Ok twice)
    /\ zone_blocks_named (str "example.com.net") once = 2%nat
    /\ zone_blocks_named (str "example.com.net") twice = 2%nat
    /\ zone_blocks_named (str "example-com.net") twice = 0%nat
    /\ indexOf (str "view " ++ [34] ++ str "guest" ++ [34]) twice = Some 0%nat.
Proof.
  intros move.
  set (file := str "/etc/bind/zones/db.example.com.net").
  exists (moved two_zones (str "example.com.net") file (str "guest")).
  exists (moved (moved two_zones (str "example.com.net") file (str "guest"))
                (str "example.com.net") file (str "guest")).
  split; [vm_compute; reflexivity|].
  split; [vm_compute; reflexivity|].
  split; [vm_compute; reflexivity|].
  split; [vm_compute; reflexivity|].
  split; vm_compute; reflexivity.
Qed.

(** The same happens without any dot in the name when the zone is
    present in two views: each call removes the first block only. *)
Example moveZone_twice_split_horizon :
  let move content :=
    buildMoveZoneToViewContent content (str "corp")
      (str "/etc/bind/zones/db.corp") (str "guest") default_acl in
  exists once twice,
    zone_blocks_named (str "corp") split_horizon = 2%nat
    /\ move split_horizon = Some (Ok once)
    /\ move once = Some (Ok twice)
    /\ zone_blocks_named (str "corp") twice = 2%nat.
Proof.
  intros move.
  set (file := str "/etc/bind/zones/db.corp").
  exists (moved split_horizon (str "corp") file (str "guest")).
  exists (moved (moved split_horizon (str "corp") file (str "guest"))
                (str "corp") file (str "guest")).
  split; [vm_compute; reflexivity|].
  split; [vm_compute; reflexivity|].
  split; vm_compute; reflexivity.
Qed.

End MoveFacts.

(** ** Decimal notation *)

Module NumFacts.
Import JS.

Lemma is_digit_spec c : is_digit c = true <-> 48 <= c <= 57.
Proof. unfold is_digit. rewrite andb_true_iff, !N.leb_le. tauto. Qed.

Lemma digit_not_ws c : is_digit c = true -> is_ws c = false.
Proof.
  rewrite is_digit_spec. intros H. unfold is_ws.
  repeat match goal with
         | |- context [?a <=? ?b] => destruct (N.leb_spec a b); try lia
         | |- context [?a =? ?b] => destruct (N.eqb_spec a b); try lia
         end; reflexivity.
Qed.

Lemma digits_value_app acc s t :
  digits_value acc (s ++ t) = digits_value (digits_value acc s) t.
Proof. apply fold_left_app. Qed.

(** Horner evaluation splits into the contribution of the accumulator
    and the value of the digits. *)
Lemma digits_value_acc s : forall acc,
  digits_value acc s = acc * 10 ^ N.of_nat (length s) + digits_value 0 s.
Proof.
  induction s as [|c s IH]; intros acc.
  - cbn. lia.
  - cbn [digits_value fold_left length]. fold (digits_value (acc * 10 + (c - 48)) s).
    fold (digits_value (0 * 10 + (c - 48)) s).
    rewrite (IH (acc * 10 + (c - 48))), (IH (0 * 10 + (c - 48))).
    rewrite Nat2N.inj_succ, N.pow_succ_r'. lia.
Qed.

Lemma digits_value_bound s :
  forallb is_digit s = true -> digits_value 0 s < 10 ^ N.of_nat (length s).
Proof.
  induction s as [|c s IH] using rev_ind; intros Hd.
  - cbn. lia.
  - rewrite forallb_app in Hd. apply andb_true_iff in Hd as [Hs Hc].
    cbn in Hc. rewrite andb_true_r in Hc. apply is_digit_spec in Hc.
    rewrite digits_value_app, length_app. cbn [length digits_value fold_left].
    specialize (IH Hs).
    replace (N.of_nat (length s + 1)) with (N.succ (N.of_nat (length s))) by lia.
    rewrite N.pow_succ_r'. lia.
Qed.

Lemma digits_value_lower c s :
  49 <= c <= 57 -> 10 ^ N.of_nat (length s) <= digits_value 0 (c :: s).
Proof.
  intros Hc. cbn [digits_value fold_left]. fold (digits_value (0 * 10 + (c - 48)) s).
  rewrite digits_value_acc.
  assert (1 <= c - 48) by lia. nia.
Qed.

Lemma uint_chars_digits u : forallb is_digit (uint_chars u) = true.
Proof. induction u; cbn; auto. Qed.

Lemma uint_chars_length u : length (uint_chars u) = N.to_nat (Unsigned.usize u).
Proof. induction u; cbn [uint_chars length Unsigned.usize]; lia. Qed.

(** The characters of a decimal numeral evaluate to the number it
    denotes. *)
Lemma digits_value_uint_chars u : forall acc,
  digits_value acc (uint_chars u)
  = acc * 10 ^ Unsigned.usize u + Unsigned.of_lu (Decimal.rev u).
Proof.
  induction u; intros acc;
    try (unfold Decimal.rev; cbn [revapp uint_chars digits_value fold_left];
         rewrite Unsigned.of_lu_revapp;
         match goal with
         | |- fold_left ?f _ ?a = _ =>
             change (fold_left f (uint_chars u) a)
               with (digits_value a (uint_chars u))
         end;
         rewrite IHu; cbn [Unsigned.of_lu Unsigned.usize];
         rewrite N.pow_succ_r'; lia).
  cbn. lia.
Qed.

Lemma digits_value_to_uint n : digits_value 0 (uint_chars (N.to_uint n)) = n.
Proof.
  rewrite digits_value_uint_chars, N.mul_0_l, N.add_0_l.
  rewrite <- Unsigned.of_uint_alt. apply DecimalN.Unsigned.of_to.
Qed.

(** A positive number is written without a leading zero. *)
Lemma to_uint_head n :
  0 < n -> exists c s, uint_chars (N.to_uint n) = c :: s /\ 49 <= c <= 57.
Proof.
  intros Hpos.
  assert (Hn : N.to_uint n = unorm (N.to_uint n)).
  { rewrite <- (DecimalN.Unsigned.to_of (N.to_uint n)).
    now rewrite DecimalN.Unsigned.of_to. }
  unfold unorm in Hn.
  pose proof (nzhead_nonzero (N.to_uint n)) as Hnz.
  destruct (nzhead (N.to_uint n)) eqn:E;
    try (rewrite Hn; cbn; eexists _, _; split; [reflexivity | lia]).
  - exfalso.
    assert (H0 : N.of_uint (N.to_uint n) = 0) by (rewrite Hn; reflexivity).
    rewrite DecimalN.Unsigned.of_to in H0. lia.
  - exfalso. now apply (Hnz u).
Qed.

(** The number of digits of a positive number. *)
Lemma to_uint_width n k :
  0 < n ->
  (length (uint_chars (N.to_uint n)) = S k <-> 10 ^ N.of_nat k <= n < 10 ^ N.of_nat (S k)).
Proof.
  intros Hpos.
  destruct (to_uint_head n Hpos) as (c & s & Hcs & Hc).
  pose proof (digits_value_to_uint n) as Hval.
  pose proof (uint_chars_digits (N.to_uint n)) as Hdig.
  rewrite Hcs in *.
  pose proof (digits_value_lower c s Hc) as Hlo.
  pose proof (digits_value_bound (c :: s) Hdig) as Hhi.
  rewrite Hval in Hlo, Hhi. cbn [length] in *.
  split.
  - intros Hlen. injection Hlen as <-. lia.
  - intros [H1 H2]. f_equal.
    destruct (Nat.lt_trichotomy (length s) k) as [Hlt | [Heq | Hgt]]; [|exact Heq|].
    + exfalso.
      assert (10 ^ N.of_nat (S (length s)) <= 10 ^ N.of_nat k)
        by (apply N.pow_le_mono_r; lia).
      lia.
    + exfalso.
      assert (10 ^ N.of_nat (S k) <= 10 ^ N.of_nat (length s))
        by (apply N.pow_le_mono_r; lia).
      lia.
Qed.

Lemma Z_toString_nonneg z :
  (0 <= z)%Z -> Z_toString z = uint_chars (N.to_uint (Z.to_N z)).
Proof. destruct z; [reflexivity | reflexivity | lia]. Qed.

Lemma Z_toString_neg p : Z_toString (Zneg p) = 45 :: uint_chars (N.to_uint (Npos p)).
Proof. reflexivity. Qed.

Lemma span_all p s : forallb p s = true -> span p s = (s, []).
Proof.
  induction s as [|c s IH]; [reflexivity|].
  cbn. intros H. apply andb_true_iff in H as [Hc Hs].
  now rewrite Hc, (IH Hs).
Qed.

Lemma skip_ws_non_ws c s : is_ws c = false -> skip_ws (c :: s) = c :: s.
Proof. intros H. cbn. now rewrite H. Qed.

(** [parseInt] on a run of digits. *)
Lemma parseInt_digits c s :
  forallb is_digit (c :: s) = true ->
  parseInt (c :: s) = JNum (Z.of_N (digits_value 0 (c :: s))).
Proof.
  intros Hd. pose proof Hd as Hd'. cbn [forallb] in Hd'.
  apply andb_true_iff in Hd' as [Hc Hs].
  unfold parseInt, trimStart. rewrite (skip_ws_non_ws _ _ (digit_not_ws _ Hc)).
  pose proof (proj1 (is_digit_spec c) Hc) as Hc'.
  destruct (N.eqb_spec c 45); [lia|]. destruct (N.eqb_spec c 43); [lia|].
  assert (Hhex : match c :: s with
                 | c0 :: x :: _ => (c0 =? 48) && ((x =? 120) || (x =? 88))
                 | _ => false
                 end = false).
  { destruct s as [|x s]; [reflexivity|].
    cbn [forallb] in Hs. apply andb_true_iff in Hs as [Hx _].
    apply is_digit_spec in Hx.
    destruct (N.eqb_spec x 120); [lia|]. destruct (N.eqb_spec x 88); [lia|].
    apply andb_false_r. }
  rewrite Hhex, (span_all _ _ Hd). reflexivity.
Qed.

Lemma parseInt_Z_toString z : parseInt (Z_toString z) = JNum z.
Proof.
  destruct z as [|p|p].
  - reflexivity.
  - rewrite Z_toString_nonneg by lia.
    destruct (to_uint_head (Z.to_N (Zpos p)) ltac:(lia)) as (c & s & Hcs & _).
    pose proof (uint_chars_digits (N.to_uint (Z.to_N (Zpos p)))) as Hd.
    pose proof (digits_value_to_uint (Z.to_N (Zpos p))) as Hv.
    rewrite Hcs in *. rewrite parseInt_digits, Hv by exact Hd. f_equal.
  - rewrite Z_toString_neg.
    destruct (to_uint_head (Npos p) ltac:(lia)) as (c & s & Hcs & _).
    pose proof (uint_chars_digits (N.to_uint (Npos p))) as Hd.
    pose proof (digits_value_to_uint (Npos p)) as Hv.
    rewrite Hcs in *.
    unfold parseInt.
    change (trimStart (45 :: c :: s)) with (45 :: c :: s).
    cbv beta iota zeta. change (45 =? 45) with true. cbv beta iota.
    assert (Hhex : match c :: s with
                   | c0 :: x :: _ => (c0 =? 48) && ((x =? 120) || (x =? 88))
                   | _ => false
                   end = false).
    { destruct s as [|x s]; [reflexivity|].
      cbn [forallb] in Hd. apply andb_true_iff in Hd as [_ Hx].
      apply andb_true_iff in Hx as [Hx _].
      apply is_digit_spec in Hx.
      destruct (N.eqb_spec x 120); [lia|]. destruct (N.eqb_spec x 88); [lia|].
      apply andb_false_r. }
    rewrite Hhex, (span_all _ _ Hd). cbn [fst]. rewrite Hv. reflexivity.
Qed.

End NumFacts.

(** ** The serial field *)

Module SerialFacts.
Import JS ZoneRecords NumFacts.

Lemma take_digits_spec n : forall s d r,
  take_digits n s = Some (d, r) ->
  s = d ++ r /\ length d = n /\ forallb is_digit d = true.
Proof.
  induction n as [|n IH]; intros s d r H; cbn in H.
  - injection H as <- <-. auto.
  - destruct s as [|c s]; [discriminate|].
    destruct (is_digit c) eqn:Ec; [|discriminate].
    destruct (take_digits n s) as [[d' r']|] eqn:E; [|discriminate].
    injection H as <- <-. destruct (IH _ _ _ E) as (-> & <- & Hd).
    cbn. rewrite Ec. auto.
Qed.

Lemma take_digits_exact d r :
  forallb is_digit d = true -> take_digits (length d) (d ++ r) = Some (d, r).
Proof.
  induction d as [|c d IH]; intros H; cbn in *; [reflexivity|].
  apply andb_true_iff in H as [Hc Hd]. now rewrite Hc, (IH Hd).
Qed.

Lemma take_digits_app n : forall s d r x,
  take_digits n s = Some (d, r) -> take_digits n (s ++ x) = Some (d, r ++ x).
Proof.
  intros s d r x H. destruct (take_digits_spec _ _ _ _ H) as (-> & <- & Hd).
  rewrite <- app_assoc. now apply take_digits_exact.
Qed.

(** Digits taken from [u ++ y] all come from [u], or [u] is too short and
    the rest is taken from [y]. *)
Lemma take_digits_app_inv n : forall u y a r,
  take_digits n (u ++ y) = Some (a, r) ->
  (exists r', take_digits n u = Some (a, r') /\ r = r' ++ y)
  \/ ((length u < n)%nat /\ exists a2,
        take_digits (n - length u) y = Some (a2, r)).
Proof.
  induction n as [|n IH]; intros u y a r H.
  - cbn in H. injection H as <- <-. left. exists u. auto.
  - destruct u as [|c u].
    + right. cbn [length app] in *. split; [lia|]. exists a. exact H.
    + cbn [app take_digits] in *.
      destruct (is_digit c); [|discriminate].
      destruct (take_digits n (u ++ y)) as [[d' r']|] eqn:E; [|discriminate].
      injection H as <- <-.
      destruct (IH _ _ _ _ E) as [(r0 & -> & ->) | (Hlen & a2 & Ha2)].
      * left. eauto.
      * right. cbn [length]. split; [lia|]. exists a2. exact Ha2.
Qed.

Lemma skip_ws_app_cons s c r x :
  skip_ws s = c :: r -> skip_ws (s ++ x) = c :: r ++ x.
Proof.
  induction s as [|a s IH]; cbn; [discriminate|].
  destruct (is_ws a); [exact IH|]. intros H. injection H as <- <-. reflexivity.
Qed.

Lemma skip_ws_app_nil s x : skip_ws s = [] -> skip_ws (s ++ x) = skip_ws x.
Proof.
  induction s as [|a s IH]; cbn; [reflexivity|].
  destruct (is_ws a); [exact IH | discriminate].
Qed.

Lemma skip_ws_digit c s : is_digit c = true -> skip_ws (c :: s) = c :: s.
Proof. intros H. apply skip_ws_non_ws, digit_not_ws, H. Qed.

Lemma match_ci_app p : forall s r x,
  match_ci p s = Some r -> match_ci p (s ++ x) = Some (r ++ x).
Proof.
  induction p as [|a p IH]; intros s r x H; cbn in *.
  - destruct s; injection H as <-; reflexivity.
  - destruct s as [|b s]; [discriminate|]. cbn.
    destruct (eq_ci b a); [now apply IH | discriminate].
Qed.

(** A literal that matches no digit cannot run into a digit. *)
Lemma match_ci_app_inv p : forall s c y b,
  forallb (fun x => negb (eq_ci c x)) p = true ->
  match_ci p (s ++ c :: y) = Some b ->
  exists r, match_ci p s = Some r /\ b = r ++ c :: y.
Proof.
  induction p as [|a p IH]; intros s c y b Hp H.
  - destruct s; cbn in *; injection H as <-; eauto.
  - cbn [forallb] in Hp. apply andb_true_iff in Hp as [Ha Hp].
    destruct s as [|x s]; cbn [app match_ci] in *.
    + apply negb_true_iff in Ha. rewrite Ha in H. discriminate.
    + destruct (eq_ci x a); [|discriminate]. eauto.
Qed.

Lemma digit_not_Serial c :
  is_digit c = true ->
  forallb (fun x => negb (eq_ci c x)) (str "Serial") = true.
Proof.
  intros Hc. apply is_digit_spec in Hc.
  assert (Hu : upper c = c).
  { unfold upper, is_lower. destruct (N.leb_spec 97 c); [lia|reflexivity]. }
  unfold eq_ci. rewrite Hu.
  cbv [str String.list_ascii_of_string map forallb].
  repeat match goal with
         | |- context [c =? ?k] =>
             let k' := eval vm_compute in k in
             change k with k'; destruct (N.eqb_spec c k'); [lia|]
         end.
  reflexivity.
Qed.

Lemma serial_match_here_eq s :
  serial_match_here s =
  match take_digits 10 s with
  | Some (d, r1) =>
      match skip_ws r1 with
      | c :: r2 =>
          if c =? 59 then
            match match_ci (str "Serial") (skip_ws r2) with
            | Some r3 => Some (d, r3)
            | None => None
            end
          else None
      | [] => None
      end
  | None => None
  end.
Proof. reflexivity. Qed.

Local Opaque take_digits.

(** A match stays a match when text is appended. *)
Lemma serial_match_here_app u a r x :
  serial_match_here u = Some (a, r) ->
  serial_match_here (u ++ x) = Some (a, r ++ x).
Proof.
  rewrite !serial_match_here_eq.
  destruct (take_digits 10 u) as [[d r1]|] eqn:Et; [|discriminate].
  rewrite (take_digits_app _ _ _ _ x Et).
  destruct (skip_ws r1) as [|c r2] eqn:E1; [discriminate|].
  rewrite (skip_ws_app_cons _ _ _ x E1).
  destruct (c =? 59); [|discriminate].
  destruct (skip_ws r2) as [|c' r2'] eqn:E2; [discriminate|].
  rewrite (skip_ws_app_cons _ _ _ x E2).
  destruct (match_ci (str "Serial") (c' :: r2')) as [r3|] eqn:Em; [|discriminate].
  change (c' :: r2' ++ x) with ((c' :: r2') ++ x).
  rewrite (match_ci_app _ _ _ x Em). congruence.
Qed.

(** A match that starts before a run of ten digits ends before it. *)
Lemma serial_match_here_confined u D T a b :
  u <> [] -> length D = 10%nat -> forallb is_digit D = true ->
  serial_match_here (u ++ D ++ T) = Some (a, b) ->
  exists r, serial_match_here u = Some (a, r) /\ b = r ++ D ++ T.
Proof.
  intros Hu HlenD HD. rewrite !serial_match_here_eq.
  destruct D as [|dg D']; [discriminate|].
  assert (Hdg : is_digit dg = true) by (cbn in HD; now apply andb_true_iff in HD).
  pose proof (proj1 (is_digit_spec dg) Hdg) as Hdg'.
  destruct (take_digits 10 (u ++ (dg :: D') ++ T)) as [[d r1]|] eqn:Et;
    [|discriminate].
  destruct (take_digits_app_inv _ _ _ _ _ Et)
    as [(r1' & Et' & ->) | (Hlen & a2 & Ha2)].
  - rewrite Et'.
    destruct (skip_ws r1') as [|c r2'] eqn:E1.
    + rewrite (skip_ws_app_nil _ _ E1).
      change ((dg :: D') ++ T) with (dg :: D' ++ T).
      rewrite (skip_ws_digit _ _ Hdg).
      destruct (N.eqb_spec dg 59); [lia | discriminate].
    + rewrite (skip_ws_app_cons _ _ _ _ E1).
      destruct (c =? 59); [|discriminate].
      destruct (skip_ws r2') as [|c' r2''] eqn:E2.
      * rewrite (skip_ws_app_nil _ _ E2).
        change ((dg :: D') ++ T) with (dg :: D' ++ T).
        rewrite (skip_ws_digit _ _ Hdg).
        destruct (match_ci (str "Serial") (dg :: D' ++ T)) as [r3|] eqn:Em;
          [|discriminate].
        exfalso.
        destruct (match_ci_app_inv (str "Serial") [] dg (D' ++ T) r3
                    (digit_not_Serial _ Hdg) Em) as (r & Hr & _).
        discriminate Hr.
      * rewrite (skip_ws_app_cons _ _ _ _ E2).
        destruct (match_ci (str "Serial") (c' :: r2'' ++ (dg :: D') ++ T))
          as [r3|] eqn:Em; [|discriminate].
        change (c' :: r2'' ++ (dg :: D') ++ T)
          with ((c' :: r2'') ++ dg :: D' ++ T) in Em.
        destruct (match_ci_app_inv _ _ _ _ _ (digit_not_Serial _ Hdg) Em)
          as (r & Hr & ->).
        rewrite Hr. intros H. injection H as <- <-. eauto.
  - intros H. exfalso.
    destruct (take_digits_spec _ _ _ _ Ha2) as (HY & Hlen2 & _).
    assert (Hk : (0 < length a2 < 10)%nat).
    { destruct u; [congruence|]. cbn [length] in *. lia. }
    assert (Hr1 : r1 = skipn (length a2) (dg :: D') ++ T).
    { apply (f_equal (skipn (length a2))) in HY.
      rewrite skipn_app, (skipn_app (length a2) a2) in HY.
      rewrite skipn_all, Nat.sub_diag in HY. cbn [skipn app] in HY.
      replace (length a2 - length (dg :: D'))%nat with 0%nat in HY by lia.
      rewrite !drop_0 in HY. congruence. }
    destruct (skipn (length a2) (dg :: D')) as [|c rest] eqn:Es.
    { apply (f_equal (@length N)) in Es. rewrite length_skipn in Es.
      cbn [length] in *. lia. }
    assert (Hc : is_digit c = true).
    { assert (Hall : forallb is_digit (skipn (length a2) (dg :: D')) = true).
      { rewrite <- (firstn_skipn (length a2) (dg :: D')), forallb_app in HD.
        now apply andb_true_iff in HD. }
      rewrite Es in Hall. cbn in Hall. now apply andb_true_iff in Hall. }
    subst r1. cbn [app] in H. rewrite (skip_ws_digit _ _ Hc) in H.
    apply is_digit_spec in Hc.
    destruct (N.eqb_spec c 59); [lia | discriminate].
Qed.

Lemma serial_search_eq s :
  serial_search s =
  match serial_match_here s with
  | Some (d, r) => Some ([], d, r)
  | None =>
      match s with
      | [] => None
      | c :: s' =>
          match serial_search s' with
          | Some (b, d, r) => Some (c :: b, d, r)
          | None => None
          end
      end
  end.
Proof. destruct s; reflexivity. Qed.

(** The search result splits the text at a match. *)
Lemma serial_search_split s : forall b d r,
  serial_search s = Some (b, d, r) ->
  exists x, s = b ++ x /\ serial_match_here x = Some (d, r).
Proof.
  induction s as [|c s IH]; intros b d r; rewrite serial_search_eq.
  - destruct (serial_match_here []) as [[d0 r0]|] eqn:E; [|discriminate].
    intros H. injection H as <- <- <-. eauto.
  - destruct (serial_match_here (c :: s)) as [[d0 r0]|] eqn:E.
    + intros H. injection H as <- <- <-. eauto.
    + destruct (serial_search s) as [[[b' d'] r']|] eqn:Es; [|discriminate].
      intros H. injection H as <- <- <-.
      destruct (IH _ _ _ eq_refl) as (x & -> & Hx). eauto.
Qed.

(** Replacing the matched text by ten digits and a tag keeps the match
    where it was: no earlier match appears. *)
Lemma serial_search_rewrite before : forall x d r D T d' r',
  serial_search (before ++ x) = Some (before, d, r) ->
  length D = 10%nat -> forallb is_digit D = true ->
  serial_match_here (D ++ T) = Some (d', r') ->
  serial_search (before ++ D ++ T) = Some (before, d', r').
Proof.
  induction before as [|c before IH]; intros x d r D T d' r' Hs HlenD HD Hm.
  - cbn [app]. rewrite serial_search_eq, Hm. reflexivity.
  - cbn [app] in *. rewrite serial_search_eq in Hs. rewrite serial_search_eq.
    destruct (serial_match_here (c :: before ++ x)) as [[d0 r0]|] eqn:E0;
      [discriminate|].
    destruct (serial_search (before ++ x)) as [[[b1 d1] r1]|] eqn:Es;
      [|discriminate].
    assert (b1 = before /\ d1 = d /\ r1 = r) as (-> & -> & ->).
    { injection Hs as ? ? ?. auto. }
    destruct (serial_match_here (c :: before ++ D ++ T)) as [[d2 r2]|] eqn:E2.
    + exfalso.
      destruct (serial_match_here_confined (c :: before) D T d2 r2)
        as (r3 & Hr3 & _); [discriminate | assumption | assumption | exact E2 |].
      apply (serial_match_here_app _ _ _ x) in Hr3.
      cbn [app] in Hr3. congruence.
    + now rewrite (IH _ _ _ _ _ _ _ Es HlenD HD Hm).
Qed.

(** The tag written by [incrementSerial] closes a match. *)
Lemma serial_match_here_written D after :
  length D = 10%nat -> forallb is_digit D = true ->
  serial_match_here (D ++ str "       ; Serial" ++ after) = Some (D, after).
Proof.
  intros Hlen HD. rewrite serial_match_here_eq.
  rewrite <- Hlen, (take_digits_exact _ _ HD). reflexivity.
Qed.

(** What the first match looks like. *)
Lemma serial_search_token content before token after :
  serial_search content = Some (before, token, after) ->
  length token = 10%nat /\ forallb is_digit token = true
  /\ exists x, content = before ++ x.
Proof.
  intros Hs. destruct (serial_search_split _ _ _ _ Hs) as (x & -> & Hx).
  rewrite serial_match_here_eq in Hx.
  destruct (take_digits 10 x) as [[d r1]|] eqn:Et; [|discriminate].
  destruct (take_digits_spec _ _ _ _ Et) as (_ & Hlen & Hd).
  assert (d = token) as ->.
  { destruct (skip_ws r1) as [|c r2]; [discriminate|].
    destruct (c =? 59); [|discriminate].
    destruct (match_ci _ _); [congruence | discriminate]. }
  eauto.
Qed.

Lemma incrementSerial_eq content before token after :
  serial_search content = Some (before, token, after) ->
  incrementSerial content
  = before ++ toString (num_add (parseInt token) 1)
    ++ str "       ; Serial" ++ after.
Proof. unfold incrementSerial. now intros ->. Qed.

Lemma token_value token :
  length token = 10%nat -> forallb is_digit token = true ->
  parseInt token = JNum (Z.of_N (digits_value 0 token)).
Proof.
  intros Hlen Hd. destruct token as [|c s]; [discriminate|].
  now apply parseInt_digits.
Qed.

(** The successor of [v] takes ten characters exactly in this range. *)
Lemma width_of_successor v :
  (0 <= v)%Z ->
  length (Z_toString (v + 1)) = 10%nat <-> (999999999 <= v <= 9999999998)%Z.
Proof.
  intros Hv. rewrite Z_toString_nonneg by lia.
  rewrite (to_uint_width (Z.to_N (v + 1)) 9) by lia.
  change (10 ^ N.of_nat 9) with 1000000000.
  change (10 ^ N.of_nat 10) with 10000000000.
  lia.
Qed.

(** C3. The incremented value is written in plain decimal, with no
    padding, followed by seven spaces and [; Serial]; it is as wide as the
    token it replaces exactly when the old value lies between 999999999
    and 9999999998. *)
Theorem incrementSerial_writes_unpadded content before token after :
  serial_search content = Some (before, token, after) ->
  exists v : Z,
    parseInt token = JNum v
    /\ incrementSerial content
       = before ++ Z_toString (v + 1) ++ str "       ; Serial" ++ after
    /\ (length (Z_toString (v + 1)) = length token
        <-> (999999999 <= v <= 9999999998)%Z).
Proof.
  intros Hs. destruct (serial_search_token _ _ _ _ Hs) as (Hlen & Hd & _).
  exists (Z.of_N (digits_value 0 token)).
  pose proof (token_value _ Hlen Hd) as Hv. split; [exact Hv|]. split.
  - now rewrite (incrementSerial_eq _ _ _ _ Hs), Hv.
  - rewrite Hlen. apply width_of_successor. lia.
Qed.

Lemma incrementSerial_writes_unpadded_witness :
  exists v : Z,
    parseInt (str "2024010101") = JNum v
    /\ incrementSerial (str "        2024010101  ; serial" ++ nl)
       = str "        " ++ Z_toString (v + 1) ++ str "       ; Serial" ++ nl
    /\ (length (Z_toString (v + 1)) = length (str "2024010101")
        <-> (999999999 <= v <= 9999999998)%Z).
Proof.
  apply (incrementSerial_writes_unpadded
           (str "        2024010101  ; serial" ++ nl)
           (str "        ") (str "2024010101") nl).
  vm_compute. reflexivity.
Defined.

(** The field shrinks to one character, or grows to eleven. *)
Lemma serial_written_without_padding :
  serialToken (str "0000000001 ; Serial") = Some (str "0000000001")
  /\ incrementSerial (str "0000000001 ; Serial") = str "2       ; Serial"
  /\ serialToken (str "9999999999 ; Serial") = Some (str "9999999999")
  /\ incrementSerial (str "9999999999 ; Serial") = str "10000000000       ; Serial".
Proof. repeat split; vm_compute; reflexivity. Qed.

Lemma currentSerial_incremented content s :
  currentSerial content = Some (JNum s) ->
  (999999999 <= s <= 9999999998)%Z ->
  currentSerial (incrementSerial content) = Some (JNum (s + 1)).
Proof.
  unfold currentSerial at 1.
  destruct (serial_search content) as [[[before token] after]|] eqn:Hs;
    [|discriminate].
  intros Hcur Hrange. injection Hcur as Hcur.
  destruct (serial_search_token _ _ _ _ Hs) as (Hlen & Hd & x & Hx).
  rewrite (incrementSerial_eq _ _ _ _ Hs), Hcur. cbn [num_add toString].
  set (D := Z_toString (s + 1)).
  assert (HlenD : length D = 10%nat) by (apply width_of_successor; lia).
  assert (HD : forallb is_digit D = true).
  { unfold D. rewrite Z_toString_nonneg by lia. apply uint_chars_digits. }
  rewrite Hx in Hs. unfold currentSerial.
  rewrite (serial_search_rewrite before x token after D
             (str "       ; Serial" ++ after) D after Hs HlenD HD
             (serial_match_here_written D after HlenD HD)).
  unfold D. now rewrite parseInt_Z_toString.
Qed.

(** C2. A text without a tagged ten-digit token is returned unchanged.
    When the first tagged token reads as a value [s] between 999999999 and
    9999999998, the text returned carries the serial [s + 1]; hence [n]
    successive edits starting from [s] lead to [s + n], as long as that
    stays below 10^10. *)
Theorem incrementSerial_bumps_serial :
  (forall content,
      currentSerial content = None -> incrementSerial content = content)
  /\ (forall content s,
        currentSerial content = Some (JNum s) ->
        (999999999 <= s <= 9999999998)%Z ->
        currentSerial (incrementSerial content) = Some (JNum (s + 1)))
  /\ (forall n content s,
        currentSerial content = Some (JNum s) ->
        (999999999 <= s)%Z -> (s + Z.of_nat n <= 9999999999)%Z ->
        currentSerial (Nat.iter n incrementSerial content)
        = Some (JNum (s + Z.of_nat n))).
Proof.
  split; [|split].
  - intros content. unfold currentSerial, incrementSerial.
    destruct (serial_search content) as [[[b d] r]|]; [discriminate | reflexivity].
  - exact currentSerial_incremented.
  - induction n as [|n IH]; intros content s Hcur Hlo Hhi.
    + cbn [Nat.iter]. now rewrite Z.add_0_r.
    + change (Nat.iter (S n) incrementSerial content)
        with (incrementSerial (Nat.iter n incrementSerial content)).
      rewrite (currentSerial_incremented _ (s + Z.of_nat n)).
      * f_equal. f_equal. lia.
      * apply IH; [assumption | lia | lia].
      * lia.
Qed.

Lemma incrementSerial_bumps_serial_witness :
  incrementSerial (str "; no serial in this file") = str "; no serial in this file"
  /\ currentSerial (incrementSerial (str "  2024010101 ; Serial"))
     = Some (JNum 2024010102)
  /\ currentSerial (Nat.iter 3 incrementSerial (str "  2024010101 ; Serial"))
     = Some (JNum 2024010104).
Proof.
  destruct incrementSerial_bumps_serial as (Hnone & Hone & Hmany).
  split; [|split].
  - apply Hnone. vm_compute. reflexivity.
  - apply (Hone (str "  2024010101 ; Serial") 2024010101%Z).
    + vm_compute. reflexivity.
    + lia.
  - apply (Hmany 3%nat (str "  2024010101 ; Serial") 2024010101%Z).
    + vm_compute. reflexivity.
    + lia.
    + simpl. lia.
Defined.

(** At 9999999999 the next serial read back is 0. *)
Lemma serial_wraps_at_ten_digits :
  currentSerial (str "9999999999 ; Serial") = Some (JNum 9999999999)
  /\ currentSerial (incrementSerial (str "9999999999 ; Serial")) = Some (JNum 0)
  /\ currentSerial (incrementSerial (str "9999999999 ; Serial"))
     <> Some (JNum (9999999999 + 1)).
Proof.
  split; [|split]; [vm_compute; reflexivity | vm_compute; reflexivity |].
  vm_compute. discriminate.
Qed.

End SerialFacts.

(** ** Words of a line *)

Module TokenFacts.
Import JS ZoneRecords NumFacts.

Lemma text_eqb_eq a b : text_eqb a b = true <-> a = b.
Proof. unfold text_eqb. apply bool_decide_eq_true. Qed.

Lemma text_eqb_neq a b : text_eqb a b = false <-> a <> b.
Proof. unfold text_eqb. apply bool_decide_eq_false. Qed.

Lemma text_eqb_refl a : text_eqb a a = true.
Proof. now apply text_eqb_eq. Qed.

Lemma is_token_spec t : is_token t = true <-> t <> [] /\ ws_free t = true.
Proof.
  unfold is_token. rewrite andb_true_iff, negb_true_iff, text_eqb_neq. tauto.
Qed.

Lemma ws_free_app a b : ws_free (a ++ b) = ws_free a && ws_free b.
Proof. apply forallb_app. Qed.

Lemma ws_free_cons c t : ws_free (c :: t) = negb (is_ws c) && ws_free t.
Proof. reflexivity. Qed.

(** *** split_ws *)

Lemma split_ws_not_nil s : split_ws s <> [].
Proof.
  induction s as [|c s IH]; [discriminate|]. cbn [split_ws].
  destruct (is_ws c).
  - destruct s as [|c' s']; [discriminate|]. destruct (is_ws c'); [exact IH | discriminate].
  - destruct (split_ws s); discriminate.
Qed.

Lemma split_ws_cons c r :
  split_ws (c :: r) =
  if is_ws c then
    match r with
    | c' :: _ => if is_ws c' then split_ws r else [] :: split_ws r
    | [] => [] :: split_ws r
    end
  else match split_ws r with
       | p :: ps => (c :: p) :: ps
       | [] => [[c]]
       end.
Proof. reflexivity. Qed.

Lemma skip_ws_cons c r : skip_ws (c :: r) = if is_ws c then skip_ws r else c :: r.
Proof. reflexivity. Qed.

Lemma split_ws_ws c s : is_ws c = true -> split_ws (c :: s) = [] :: split_ws (skip_ws s).
Proof.
  intros Hc. revert c Hc. induction s as [|c' s IH]; intros c Hc.
  - rewrite split_ws_cons, Hc. reflexivity.
  - rewrite split_ws_cons, Hc, skip_ws_cons.
    destruct (is_ws c') eqn:Ec'; [|reflexivity].
    now apply IH.
Qed.

Lemma split_ws_non_ws c s :
  is_ws c = false ->
  split_ws (c :: s) = (c :: hd [] (split_ws s)) :: tl (split_ws s).
Proof.
  intros Hc. cbn [split_ws]. rewrite Hc.
  pose proof (split_ws_not_nil s). destruct (split_ws s); [congruence | reflexivity].
Qed.

Lemma split_ws_ws_free_alone t : ws_free t = true -> split_ws t = [t].
Proof.
  induction t as [|c t IH]; [reflexivity|].
  rewrite ws_free_cons, andb_true_iff, negb_true_iff. intros [Hc Ht].
  rewrite (split_ws_non_ws _ _ Hc), (IH Ht). reflexivity.
Qed.

(** A word followed by white space is the first piece. *)
Lemma split_ws_word t c s :
  ws_free t = true -> is_ws c = true ->
  split_ws (t ++ c :: s) = t :: split_ws (skip_ws s).
Proof.
  intros Ht Hc. induction t as [|x t IH].
  - now apply split_ws_ws.
  - rewrite ws_free_cons, andb_true_iff, negb_true_iff in Ht. destruct Ht as [Hx Ht].
    cbn [app]. rewrite (split_ws_non_ws _ _ Hx), (IH Ht). reflexivity.
Qed.

Lemma skip_ws_all w s : forallb is_ws w = true -> skip_ws (w ++ s) = skip_ws s.
Proof.
  induction w as [|c w IH]; [reflexivity|]. cbn.
  rewrite andb_true_iff. intros [-> Hw]. auto.
Qed.

Lemma skip_ws_head c s : is_ws c = false -> skip_ws (c :: s) = c :: s.
Proof. intros H. cbn. now rewrite H. Qed.

(** Every piece is free of white space. *)
Lemma split_ws_ws_free s : Forall (fun t => ws_free t = true) (split_ws s).
Proof.
  induction s as [|c s IH]; [repeat constructor|].
  destruct (is_ws c) eqn:Ec.
  - cbn [split_ws]. rewrite Ec.
    destruct s as [|c' s']; [repeat constructor|].
    destruct (is_ws c'); [exact IH | constructor; [reflexivity | exact IH]].
  - rewrite (split_ws_non_ws _ _ Ec).
    pose proof (split_ws_not_nil s). destruct (split_ws s) as [|p ps]; [congruence|].
    inversion IH; subst. constructor; [|assumption].
    cbn [hd]. rewrite ws_free_cons, Ec. assumption.
Qed.

(** *** trimEnd *)

Lemma trimEnd_cons_non_ws c s : is_ws c = false -> trimEnd (c :: s) = c :: trimEnd s.
Proof. intros Hc. cbn [trimEnd]. rewrite Hc. now destruct (trimEnd s). Qed.

Lemma trimEnd_ws_free t : ws_free t = true -> trimEnd t = t.
Proof.
  induction t as [|c t IH]; [reflexivity|].
  rewrite ws_free_cons, andb_true_iff, negb_true_iff. intros [Hc Ht].
  now rewrite (trimEnd_cons_non_ws _ _ Hc), (IH Ht).
Qed.

Lemma trimEnd_all_ws w : forallb is_ws w = true -> trimEnd w = [].
Proof.
  induction w as [|c w IH]; [reflexivity|]. cbn [forallb trimEnd].
  rewrite andb_true_iff. intros [Hc Hw]. now rewrite (IH Hw), Hc.
Qed.

Lemma trimEnd_app_keep a s : trimEnd s <> [] -> trimEnd (a ++ s) = a ++ trimEnd s.
Proof.
  intros Hs. induction a as [|c a IH]; [reflexivity|].
  cbn [app trimEnd]. rewrite IH.
  destruct (a ++ trimEnd s) eqn:E; [|reflexivity].
  apply app_eq_nil in E. tauto.
Qed.

Lemma trimEnd_app_ws s w : forallb is_ws w = true -> trimEnd (s ++ w) = trimEnd s.
Proof.
  intros Hw. induction s as [|c s IH].
  - now apply trimEnd_all_ws.
  - cbn [app trimEnd]. now rewrite IH.
Qed.

Lemma trimEnd_cons c r :
  trimEnd (c :: r) =
  match trimEnd r with
  | [] => if is_ws c then [] else [c]
  | r' => c :: r'
  end.
Proof. reflexivity. Qed.

Lemma trimEnd_idem s : trimEnd (trimEnd s) = trimEnd s.
Proof.
  induction s as [|c s IH]; [reflexivity|]. rewrite trimEnd_cons.
  destruct (trimEnd s) as [|x r] eqn:E.
  - destruct (is_ws c) eqn:Ec; [reflexivity|].
    rewrite trimEnd_cons. cbn [trimEnd]. now rewrite Ec.
  - rewrite trimEnd_cons, IH. reflexivity.
Qed.

(** *** Lines made of words *)

Lemma token_head t :
  is_token t = true -> exists c t', t = c :: t' /\ is_ws c = false.
Proof.
  rewrite is_token_spec. intros [Hne Hws]. destruct t as [|c t']; [congruence|].
  rewrite ws_free_cons, andb_true_iff, negb_true_iff in Hws. exists c, t'. tauto.
Qed.

Lemma words_head s ts :
  words s ts -> exists c s', s = c :: s' /\ is_ws c = false.
Proof.
  intros [t w Ht _ | t c w s' ts' Ht _ _ _];
    destruct (token_head _ Ht) as (x & t' & -> & Hx); cbn [app]; eauto.
Qed.

Lemma trimEnd_head c s : is_ws c = false -> exists r, trimEnd (c :: s) = c :: r.
Proof. intros Hc. rewrite (trimEnd_cons_non_ws _ _ Hc). eauto. Qed.

Lemma words_trimEnd_ne s ts : words s ts -> trimEnd s <> [].
Proof.
  intros H. destruct (words_head _ _ H) as (c & s' & -> & Hc).
  destruct (trimEnd_head c s' Hc) as [r ->]. discriminate.
Qed.

(** Trimming and splitting a line of words gives the words back. *)
Lemma words_split s ts : words s ts -> split_ws (trim s) = ts.
Proof.
  intros H.
  assert (Htrim : trim s = trimEnd s).
  { destruct (words_head _ _ H) as (c & s' & -> & Hc).
    unfold trim, trimStart. now rewrite (skip_ws_head _ _ Hc). }
  rewrite Htrim. clear Htrim.
  induction H as [t w Ht Hw | t c w s ts Ht Hc Hw Hs IH].
  - apply is_token_spec in Ht as [_ Ht].
    rewrite (trimEnd_app_ws _ _ Hw), (trimEnd_ws_free _ Ht).
    now apply split_ws_ws_free_alone.
  - apply is_token_spec in Ht as [_ Ht].
    pose proof (words_trimEnd_ne _ _ Hs) as Hne.
    change (t ++ c :: w ++ s) with (t ++ (c :: w) ++ s).
    rewrite app_assoc, (trimEnd_app_keep _ _ Hne), <- app_assoc.
    cbn [app]. rewrite (split_ws_word _ _ _ Ht Hc), (skip_ws_all _ _ Hw).
    destruct (words_head _ _ Hs) as (x & s' & -> & Hx).
    destruct (trimEnd_head x s' Hx) as [r Hr]. rewrite Hr in *.
    now rewrite (skip_ws_head _ _ Hx), IH.
Qed.

(** The trimmed line starts with its first word. *)
Lemma words_trim_first s t ts :
  words s (t :: ts) -> exists rest, trim s = t ++ rest.
Proof.
  intros H.
  assert (Htrim : trim s = trimEnd s).
  { destruct (words_head _ _ H) as (c & s' & -> & Hc).
    unfold trim, trimStart. now rewrite (skip_ws_head _ _ Hc). }
  rewrite Htrim. inversion H as [t0 w Ht Hw | t0 c w s0 ts0 Ht Hc Hw Hs]; subst.
  - apply is_token_spec in Ht as [_ Ht].
    rewrite (trimEnd_app_ws _ _ Hw), (trimEnd_ws_free _ Ht). exists []. now rewrite app_nil_r.
  - pose proof (words_trimEnd_ne _ _ Hs) as Hne.
    change (t ++ c :: w ++ s0) with (t ++ (c :: w) ++ s0).
    rewrite app_assoc, (trimEnd_app_keep _ _ Hne), <- app_assoc. eauto.
Qed.

(** Words joined by single spaces. *)
Lemma words_join t ts :
  Forall (fun x => is_token x = true) (t :: ts) ->
  words (join (str " ") (t :: ts)) (t :: ts).
Proof.
  revert t. induction ts as [|t' ts IH]; intros t Hall.
  - inversion Hall as [|? ? Ht _]; subst. cbn [join].
    pose proof (words_last t [] Ht eq_refl) as H. now rewrite app_nil_r in H.
  - inversion Hall as [|? ? Ht Hrest]; subst.
    change (join (str " ") (t :: t' :: ts))
      with (t ++ 32 :: [] ++ join (str " ") (t' :: ts)).
    constructor; auto.
Qed.

(** *** Substrings and words *)

Lemma includes_eq p s :
  includes p s
  = starts_with p s || match s with [] => false | _ :: s' => includes p s' end.
Proof.
  unfold includes. destruct s as [|c s]; cbn [indexOf];
    destruct (starts_with p _); try reflexivity.
  now destruct (indexOf p s).
Qed.

Lemma ws_neq a c : is_ws a = false -> is_ws c = true -> (a =? c) = false.
Proof.
  intros Ha Hc. destruct (N.eqb_spec a c) as [->|]; [congruence | reflexivity].
Qed.

(** Whether a word starts a text depends on the first piece only. *)
Lemma starts_with_first_piece p : forall s,
  ws_free p = true -> starts_with p s = starts_with p (hd [] (split_ws s)).
Proof.
  induction p as [|a p IH]; intros s Hp; [reflexivity|].
  rewrite ws_free_cons, andb_true_iff, negb_true_iff in Hp. destruct Hp as [Ha Hp].
  destruct s as [|c s]; [reflexivity|].
  destruct (is_ws c) eqn:Ec.
  - rewrite (split_ws_ws _ _ Ec). cbn [hd starts_with].
    now rewrite (ws_neq _ _ Ha Ec).
  - rewrite (split_ws_non_ws _ _ Ec). cbn [hd starts_with].
    now rewrite (IH s Hp).
Qed.

(** A word occurs in a text exactly when it occurs in one of its
    pieces. *)
Lemma includes_split_ws p s :
  p <> [] -> ws_free p = true ->
  includes p s = existsb (includes p) (split_ws s).
Proof.
  intros Hne Hp.
  assert (Hnil : includes p [] = false).
  { rewrite includes_eq. destruct p; [congruence | reflexivity]. }
  induction s as [|c s IH].
  - cbn [split_ws existsb]. now rewrite orb_false_r.
  - rewrite includes_eq, IH. destruct (is_ws c) eqn:Ec.
    + assert (Hsw : starts_with p (c :: s) = false).
      { destruct p as [|a p]; [congruence|].
        rewrite ws_free_cons, andb_true_iff, negb_true_iff in Hp.
        cbn [starts_with]. now rewrite (ws_neq a c). }
      rewrite Hsw, split_ws_cons, Ec. cbn [orb].
      destruct s as [|c' s']; [cbn [existsb]; now rewrite Hnil|].
      destruct (is_ws c'); [reflexivity|].
      cbn [existsb]. now rewrite Hnil.
    + rewrite (starts_with_first_piece p (c :: s) Hp).
      rewrite (split_ws_non_ws _ _ Ec). cbn [hd existsb].
      pose proof (split_ws_not_nil s).
      destruct (split_ws s) as [|q qs]; [congruence|].
      cbn [hd tl existsb].
      rewrite (includes_eq p (c :: q)). now rewrite orb_assoc.
Qed.

Lemma includes_absent x p s :
  forallb (fun c => negb (x =? c)) s = true -> includes (x :: p) s = false.
Proof.
  induction s as [|c s IH]; intros H; rewrite includes_eq; [reflexivity|].
  cbn [forallb] in H. apply andb_true_iff in H as [Hc Hs].
  apply negb_true_iff in Hc. cbn [starts_with]. rewrite Hc. now apply IH.
Qed.

Lemma starts_with_app_first a t rest :
  t <> [] -> starts_with [a] (t ++ rest) = starts_with [a] t.
Proof.
  intros Hne. destruct t as [|c t]; [congruence|]. cbn [app starts_with].
  reflexivity.
Qed.

(** *** The formatted line *)

Lemma repeat_ws k : forallb is_ws (repeat 32 k) = true.
Proof. induction k; [reflexivity|]. cbn [repeat forallb]. now rewrite IHk. Qed.

Lemma repeat_snoc k (rest : text) : repeat 32 k ++ 32 :: rest = 32 :: repeat 32 k ++ rest.
Proof.
  induction k as [|k IH]; [reflexivity|]. cbn [repeat app]. now rewrite IH.
Qed.

(** A padded column followed by a space, then more words. *)
Lemma words_column n t rest ts :
  is_token t = true -> words rest ts ->
  words (padEnd n t ++ 32 :: rest) (t :: ts).
Proof.
  intros Ht Hrest. unfold padEnd. rewrite <- app_assoc, repeat_snoc.
  apply words_cons; auto using repeat_ws.
Qed.

(** The last column when nothing follows but a space. *)
Lemma words_column_last n t :
  is_token t = true -> words (padEnd n t ++ [32]) [t].
Proof.
  intros Ht. unfold padEnd. rewrite <- app_assoc, repeat_snoc.
  apply words_last; [assumption|]. cbn [forallb app]. rewrite app_nil_r.
  now rewrite repeat_ws.
Qed.

Lemma IN_token : is_token (str "IN") = true.
Proof. reflexivity. Qed.

Lemma words_formatted nm tt ty vs :
  is_token nm = true -> is_token tt = true -> is_token ty = true ->
  Forall (fun x => is_token x = true) vs ->
  words (padEnd 15 nm ++ str " " ++ padEnd 8 tt ++ str " IN " ++ padEnd 8 ty
         ++ str " " ++ join (str " ") vs)
        (nm :: tt :: str "IN" :: ty :: vs).
Proof.
  intros Hnm Htt Hty Hvs.
  change (str " ") with [32].
  change (str " IN ") with (32 :: padEnd 0 (str "IN") ++ [32]).
  cbn [app]. rewrite <- app_assoc. cbn [app].
  apply words_column; [assumption|].
  apply words_column; [assumption|].
  apply words_column; [exact IN_token|].
  destruct vs as [|v vs].
  - cbn [join]. now apply words_column_last.
  - apply words_column; [assumption|]. now apply words_join.
Qed.

(** *** Parsing a line of words *)

Lemma existsb_false {A} (f : A -> bool) l :
  Forall (fun x => f x = false) l -> existsb f l = false.
Proof. induction 1 as [|x l Hx _ IH]; [reflexivity|]. cbn. now rewrite Hx, IH. Qed.

Lemma parse_line_words id line nm tt ty vs :
  words line (nm :: tt :: str "IN" :: ty :: vs) ->
  starts_with (str ";") nm = false ->
  starts_with (str "$") nm = false ->
  nm <> str "IN" -> tt <> str "IN" ->
  Forall (fun x => includes (str "SOA") x = false) (nm :: tt :: ty :: vs) ->
  parse_line id line
  = Some {| rid := Some id; name := nm; type := Some ty;
            value := join (str " ") vs;
            ttl := Some (if negb (isNaN_str tt) then parseInt tt else JNum 3600);
            priority := None; weight := None; port := None |}.
Proof.
  intros Hw Hsemi Hdollar Hnm Htt Hsoa.
  destruct (words_trim_first _ _ _ Hw) as [rest Htrim].
  pose proof (words_split _ _ Hw) as Hsplit.
  assert (Hnm_tok : is_token nm = true) by (inversion Hw; assumption).
  apply is_token_spec in Hnm_tok as [Hne _].
  unfold parse_line. rewrite Hsplit.
  assert (H1 : starts_with (str ";") (trim line) = false).
  { rewrite Htrim. change (str ";") with [59].
    now rewrite (starts_with_app_first _ _ _ Hne). }
  assert (H2 : text_eqb (trim line) [] = false).
  { apply text_eqb_neq. rewrite Htrim. destruct nm; [congruence | discriminate]. }
  assert (H3 : starts_with (str "$") (trim line) = false).
  { rewrite Htrim. change (str "$") with [36].
    now rewrite (starts_with_app_first _ _ _ Hne). }
  assert (H4 : includes (str "SOA") (trim line) = false).
  { rewrite includes_split_ws, Hsplit by (discriminate || reflexivity).
    apply existsb_false.
    inversion Hsoa as [|? ? S1 Hs1]; subst.
    inversion Hs1 as [|? ? S2 Hs2]; subst.
    inversion Hs2 as [|? ? S3 Hs3]; subst.
    repeat constructor; assumption. }
  rewrite H1, H2, H3, H4. cbn [orb].
  apply text_eqb_neq in Hnm, Htt.
  cbn [length Nat.leb existsb array_indexOf].
  rewrite Hnm, Htt, text_eqb_refl.
  cbn [orb andb Nat.add nth nth_error skipn]. reflexivity.
Qed.

(** *** The TTL column *)

Lemma Z_toString_chars z :
  Z_toString z <> []
  /\ forallb (fun c => is_digit c || (c =? 45)) (Z_toString z) = true.
Proof.
  assert (Hd : forall u, forallb (fun c => is_digit c || (c =? 45)) (uint_chars u) = true).
  { intros u. pose proof (uint_chars_digits u) as H.
    rewrite forallb_forall in *. intros c Hc. now rewrite (H c Hc). }
  destruct z as [|p|p].
  - split; [discriminate | reflexivity].
  - rewrite Z_toString_nonneg by lia. split; [|apply Hd].
    destruct (to_uint_head (Z.to_N (Zpos p)) ltac:(lia)) as (c & s & -> & _).
    discriminate.
  - rewrite Z_toString_neg. split; [discriminate|].
    cbn [forallb]. now rewrite Hd.
Qed.

Lemma forallb_impl {A} (f g : A -> bool) l :
  (forall x, f x = true -> g x = true) -> forallb f l = true -> forallb g l = true.
Proof. rewrite !forallb_forall. auto. Qed.

Lemma sign_or_digit_not_ws c : is_digit c || (c =? 45) = true -> is_ws c = false.
Proof.
  intros H. apply orb_true_iff in H as [H|H]; [now apply digit_not_ws|].
  apply N.eqb_eq in H. now subst.
Qed.

Lemma Z_toString_token z : is_token (Z_toString z) = true.
Proof.
  destruct (Z_toString_chars z) as [Hne Hch]. apply is_token_spec. split; [assumption|].
  apply (forallb_impl _ _ _ (fun c H => proj2 (negb_true_iff _) (sign_or_digit_not_ws c H))).
  exact Hch.
Qed.

Lemma Z_toString_not_IN z : Z_toString z <> str "IN".
Proof.
  intros E. destruct (Z_toString_chars z) as [_ Hch]. rewrite E in Hch. discriminate.
Qed.

Lemma Z_toString_no_SOA z : includes (str "SOA") (Z_toString z) = false.
Proof.
  change (str "SOA") with (83 :: str "OA"). apply includes_absent.
  destruct (Z_toString_chars z) as [_ Hch].
  revert Hch. apply forallb_impl. intros c H.
  apply negb_true_iff, N.eqb_neq. intros <-. discriminate.
Qed.

Lemma trim_ws_free t : ws_free t = true -> trim t = t.
Proof.
  intros H. unfold trim, trimStart.
  destruct t as [|c t]; [reflexivity|].
  pose proof H as H'. rewrite ws_free_cons, andb_true_iff, negb_true_iff in H'.
  rewrite (skip_ws_head _ _ (proj1 H')). now apply trimEnd_ws_free.
Qed.

Lemma unsigned_decimal_digits s :
  s <> [] -> forallb is_digit s = true -> unsigned_decimal_ok s = true.
Proof.
  intros Hne Hd. unfold unsigned_decimal_ok.
  destruct (text_eqb s (str "Infinity")); [reflexivity|].
  rewrite (span_all _ _ Hd). cbn iota.
  apply text_eqb_neq in Hne. now rewrite Hne.
Qed.

Lemma isNaN_Z_toString z : isNaN_str (Z_toString z) = false.
Proof.
  pose proof (Z_toString_token z) as Ht. apply is_token_spec in Ht as [_ Ht].
  unfold isNaN_str. rewrite (trim_ws_free _ Ht).
  destruct z as [|p|p].
  - reflexivity.
  - rewrite Z_toString_nonneg by lia.
    destruct (to_uint_head (Z.to_N (Zpos p)) ltac:(lia)) as (c & s & Hcs & Hc).
    pose proof (uint_chars_digits (N.to_uint (Z.to_N (Zpos p)))) as Hd.
    rewrite Hcs in *.
    destruct (N.eqb_spec c 43); [lia|]. destruct (N.eqb_spec c 45); [lia|].
    cbn [orb]. rewrite (unsigned_decimal_digits (c :: s)) by (discriminate || assumption).
    now rewrite orb_true_r.
  - rewrite Z_toString_neg.
    destruct (to_uint_head (Npos p) ltac:(lia)) as (c & s & Hcs & Hc).
    pose proof (uint_chars_digits (N.to_uint (Npos p))) as Hd.
    rewrite Hcs in *. change ((45 =? 43) || (45 =? 45)) with true. cbn iota.
    now rewrite (unsigned_decimal_digits (c :: s)) by (discriminate || assumption).
Qed.

(** *** Values as words *)

Lemma split_ws_join vs :
  Forall (fun x => is_token x = true) vs -> vs <> [] ->
  split_ws (join (str " ") vs) = vs.
Proof.
  induction vs as [|t vs IH]; intros Hall Hne; [congruence|].
  inversion Hall as [|? ? Ht Hrest]; subst.
  pose proof Ht as Ht'. apply is_token_spec in Ht' as [_ Hws].
  destruct vs as [|t' vs].
  - cbn [join]. now apply split_ws_ws_free_alone.
  - change (join (str " ") (t :: t' :: vs)) with (t ++ 32 :: join (str " ") (t' :: vs)).
    rewrite (split_ws_word t 32 _ Hws eq_refl).
    destruct (words_head _ _ (words_join t' vs Hrest)) as (c & s' & Hj & Hc).
    rewrite Hj, (skip_ws_head _ _ Hc), <- Hj. f_equal. apply IH; [assumption | discriminate].
Qed.

Lemma filter_nonempty_tokens vs :
  Forall (fun x => is_token x = true) vs ->
  List.filter (fun t => negb (text_eqb t [])) vs = vs.
Proof.
  induction 1 as [|t vs Ht _ IH]; [reflexivity|].
  cbn [List.filter]. unfold is_token in Ht. apply andb_true_iff in Ht as [-> _].
  now rewrite IH.
Qed.

Lemma value_tokens_join vs :
  Forall (fun x => is_token x = true) vs -> value_tokens (join (str " ") vs) = vs.
Proof.
  intros Hall. unfold value_tokens. destruct vs as [|t vs]; [reflexivity|].
  rewrite (split_ws_join _ Hall) by discriminate. now apply filter_nonempty_tokens.
Qed.

Lemma value_tokens_are_tokens v :
  Forall (fun x => is_token x = true) (value_tokens v).
Proof.
  unfold value_tokens. pose proof (split_ws_ws_free v) as H.
  induction H as [|t l Ht _ IH]; [constructor|].
  cbn [List.filter]. destruct (text_eqb t []) eqn:E; cbn [negb]; [exact IH|].
  constructor; [|exact IH]. unfold is_token. now rewrite E, Ht.
Qed.

Lemma existsb_false_inv {A} (f : A -> bool) l :
  existsb f l = false -> Forall (fun x => f x = false) l.
Proof.
  induction l as [|x l IH]; [constructor|]. cbn.
  intros H. apply orb_false_iff in H as [Hx Hl]. constructor; auto.
Qed.

Lemma Forall_filter {A} (P : A -> Prop) f l : Forall P l -> Forall P (List.filter f l).
Proof.
  induction 1 as [|x l Hx _ IH]; [constructor|]. cbn.
  destruct (f x); [constructor|]; assumption.
Qed.

Lemma value_tokens_no_SOA v :
  includes (str "SOA") v = false ->
  Forall (fun x => includes (str "SOA") x = false) (value_tokens v).
Proof.
  intros H. rewrite includes_split_ws in H by (discriminate || reflexivity).
  apply Forall_filter, existsb_false_inv, H.
Qed.

(** *** Lines without a newline *)

Lemma split_lines_single line :
  forallb (fun c => negb (10 =? c)) line = true -> split_lines line = [line].
Proof.
  unfold split_lines. induction line as [|c line IH]; [reflexivity|].
  cbn [forallb split_on]. rewrite andb_true_iff, negb_true_iff. intros [-> Hl].
  now rewrite (IH Hl).
Qed.

Lemma ws_free_no_newline t :
  ws_free t = true -> forallb (fun c => negb (10 =? c)) t = true.
Proof.
  apply forallb_impl. intros c H. apply negb_true_iff in H.
  apply negb_true_iff, N.eqb_neq. intros <-. discriminate.
Qed.

Lemma padEnd_no_newline n t :
  ws_free t = true -> forallb (fun c => negb (10 =? c)) (padEnd n t) = true.
Proof.
  intros H. unfold padEnd. rewrite forallb_app, (ws_free_no_newline _ H).
  induction (n - length t)%nat; [reflexivity | assumption].
Qed.

Lemma join_no_newline vs :
  Forall (fun x => is_token x = true) vs ->
  forallb (fun c => negb (10 =? c)) (join (str " ") vs) = true.
Proof.
  induction 1 as [|t vs Ht Hvs IH]; [reflexivity|].
  apply is_token_spec in Ht as [_ Ht].
  destruct vs as [|t' vs]; [now apply ws_free_no_newline|].
  change (join (str " ") (t :: t' :: vs)) with (t ++ 32 :: join (str " ") (t' :: vs)).
  rewrite forallb_app, (ws_free_no_newline _ Ht). cbn [forallb andb]. exact IH.
Qed.

(** The line written for the columns [nm], [tt], [ty] and the words [vs]
    is read back as one record with those columns. *)
Lemma parse_formatted nm tt ty vs :
  is_token nm = true -> is_token tt = true -> is_token ty = true ->
  Forall (fun x => is_token x = true) vs ->
  starts_with (str ";") nm = false ->
  starts_with (str "$") nm = false ->
  nm <> str "IN" -> tt <> str "IN" ->
  Forall (fun x => includes (str "SOA") x = false) (nm :: tt :: ty :: vs) ->
  parseZoneFile (padEnd 15 nm ++ str " " ++ padEnd 8 tt ++ str " IN "
                 ++ padEnd 8 ty ++ str " " ++ join (str " ") vs)
  = [ {| rid := Some 1%Z; name := nm; type := Some ty;
         value := join (str " ") vs;
         ttl := Some (if negb (isNaN_str tt) then parseInt tt else JNum 3600);
         priority := None; weight := None; port := None |} ].
Proof.
  intros Hnm Htt Hty Hvs Hsemi Hdollar Hin1 Hin2 Hsoa.
  unfold parseZoneFile. rewrite split_lines_single.
  - cbn [parse_lines].
    now rewrite (parse_line_words 1 _ nm tt ty vs
                   (words_formatted _ _ _ _ Hnm Htt Hty Hvs)).
  - apply is_token_spec in Hnm as [_ Hnm]. apply is_token_spec in Htt as [_ Htt].
    apply is_token_spec in Hty as [_ Hty].
    rewrite !forallb_app, !padEnd_no_newline, join_no_newline by assumption.
    reflexivity.
Qed.

Lemma num_or_JNum x d : exists z, num_or x d = JNum z.
Proof.
  destruct x as [[z|]|]; cbn; [destruct (z =? 0)%Z|..]; eauto.
Qed.

(** The TTL column is read back as the number it was written from. *)
Lemma ttl_column x :
  exists tt, toString (num_or x 3600) = tt
             /\ is_token tt = true /\ tt <> str "IN"
             /\ includes (str "SOA") tt = false
             /\ (if negb (isNaN_str tt) then parseInt tt else JNum 3600)
                = num_or x 3600.
Proof.
  destruct (num_or_JNum x 3600) as [z ->]. exists (Z_toString z).
  split; [reflexivity|]. split; [apply Z_toString_token|].
  split; [apply Z_toString_not_IN|]. split; [apply Z_toString_no_SOA|].
  now rewrite isNaN_Z_toString, parseInt_Z_toString.
Qed.

Lemma well_formed_record_inv r ty :
  type r = Some ty -> well_formed_record r = true ->
  is_token (name r) = true /\ is_token ty = true
  /\ starts_with (str ";") (name r) = false
  /\ starts_with (str "$") (name r) = false
  /\ name r <> str "IN"
  /\ includes (str "SOA") (name r) = false
  /\ includes (str "SOA") ty = false
  /\ includes (str "SOA") (value r) = false
  /\ value r = join (str " ") (value_tokens (value r)).
Proof.
  unfold well_formed_record. intros ->.
  rewrite !andb_true_iff, !negb_true_iff, text_eqb_neq, text_eqb_eq. tauto.
Qed.

(** Reading back the line written for a well-formed record of a type
    without extra columns. *)
Lemma parse_format_plain r ty :
  type r = Some ty -> well_formed_record r = true ->
  ty <> str "MX" -> ty <> str "SRV" ->
  exists line,
    formatRecord r = Some line
    /\ parseZoneFile line
       = [ {| rid := Some 1%Z; name := name r; type := Some ty;
              value := value r; ttl := Some (num_or (ttl r) 3600);
              priority := None; weight := None; port := None |} ].
Proof.
  intros Hty Hwf Hmx Hsrv.
  destruct (well_formed_record_inv _ _ Hty Hwf)
    as (Hnm & Htyt & Hsemi & Hdollar & Hin & S1 & S2 & S3 & Hval).
  destruct (ttl_column (ttl r)) as (tt & Htt & Httt & Hin2 & S4 & Hback).
  unfold formatRecord. rewrite Hty, Htt.
  apply text_eqb_neq in Hmx, Hsrv. rewrite Hmx, Hsrv.
  eexists. split; [reflexivity|].
  repeat rewrite <- app_assoc. rewrite Hval at 1.
  rewrite parse_formatted; auto using value_tokens_are_tokens.
  - now rewrite Hback, <- Hval.
  - repeat constructor; auto. now apply value_tokens_no_SOA.
Qed.

(** *** What the parser returns *)

Lemma skip_ws_result l c r : skip_ws l = c :: r -> is_ws c = false.
Proof.
  induction l as [|a l IH]; [discriminate|]. rewrite skip_ws_cons.
  destruct (is_ws a) eqn:Ea; [exact IH|]. intros H. injection H as <- _. exact Ea.
Qed.

Lemma trimEnd_tail c r : trimEnd (c :: r) = c :: r -> trimEnd r = r.
Proof.
  rewrite trimEnd_cons. destruct (trimEnd r) as [|x r'].
  - destruct (is_ws c); [discriminate|]. intros H. now injection H as <-.
  - intros H. now injection H as <-.
Qed.

Lemma trimEnd_fixed_ws c : is_ws c = true -> trimEnd [c] <> [c].
Proof. intros Hc. cbn. now rewrite Hc. Qed.

(** In a text without trailing white space, only the first piece can be
    empty. *)
Lemma tl_pieces_nonempty s :
  trimEnd s = s -> Forall (fun t => t <> []) (tl (split_ws s)).
Proof.
  induction s as [|c s IH]; intros Hfix; [constructor|].
  pose proof (trimEnd_tail _ _ Hfix) as Hs. specialize (IH Hs).
  rewrite split_ws_cons. destruct (is_ws c) eqn:Ec.
  - destruct s as [|c' s'].
    + now destruct (trimEnd_fixed_ws c Ec).
    + destruct (is_ws c') eqn:Ec'; [exact IH|]. cbn [tl].
      rewrite (split_ws_non_ws _ _ Ec') in *. cbn [tl] in IH.
      constructor; [discriminate | exact IH].
  - pose proof (split_ws_not_nil s). destruct (split_ws s); [congruence|exact IH].
Qed.

Lemma trimmed_pieces s c s' :
  trimEnd s = s -> s = c :: s' -> is_ws c = false ->
  exists p ps, split_ws s = (c :: p) :: ps
               /\ Forall (fun x => is_token x = true) ((c :: p) :: ps).
Proof.
  intros Hfix -> Hc.
  pose proof (tl_pieces_nonempty _ Hfix) as Htl.
  pose proof (split_ws_ws_free (c :: s')) as Hfree.
  rewrite (split_ws_non_ws _ _ Hc) in *. cbn [tl] in Htl.
  eexists _, _. split; [reflexivity|].
  inversion Hfree as [|? ? Hh Ht]; subst. constructor.
  - apply is_token_spec. split; [discriminate | assumption].
  - clear - Htl Ht. induction Ht as [|x l Hx _ IH]; [constructor|].
    inversion Htl; subst. constructor; [|auto].
    apply is_token_spec. auto.
Qed.

Lemma trim_shape line :
  trim line = [] \/
  exists c s', trim line = c :: s' /\ is_ws c = false /\ trimEnd (trim line) = trim line.
Proof.
  unfold trim, trimStart. destruct (skip_ws line) as [|c r] eqn:E; [now left|].
  right. pose proof (skip_ws_result _ _ _ E) as Hc.
  destruct (trimEnd_head c r Hc) as [r' Hr]. rewrite Hr.
  exists c, r'. repeat split; [assumption|]. rewrite <- Hr. apply trimEnd_idem.
Qed.

Lemma Forall_skipn {A} (P : A -> Prop) n l : Forall P l -> Forall P (skipn n l).
Proof.
  revert l. induction n as [|n IH]; intros l H; [exact H|].
  destruct l; [constructor|]. inversion H; subst. now apply IH.
Qed.

Lemma Forall_nth_error {A} (P : A -> Prop) l n x :
  Forall P l -> nth_error l n = Some x -> P x.
Proof.
  intros H Hn. apply nth_error_In in Hn. rewrite List.Forall_forall in H. auto.
Qed.

(** A record returned by the parser is well formed, unless its name is
    the class keyword or its type is missing. *)
Lemma parse_line_well_formed id line r ty :
  parse_line id line = Some r -> type r = Some ty -> name r <> str "IN" ->
  well_formed_record r = true
  /\ priority r = None /\ weight r = None /\ port r = None
  /\ exists t, ttl r = Some t.
Proof.
  unfold parse_line.
  destruct (starts_with (str ";") (trim line)) eqn:Hsemi; [discriminate|].
  destruct (text_eqb (trim line) []) eqn:Hne; [discriminate|].
  destruct (starts_with (str "$") (trim line)) eqn:Hdollar; [discriminate|].
  cbn [orb].
  destruct (includes (str "SOA") (trim line)) eqn:Hsoa; [discriminate|].
  destruct (_ && _); [|discriminate].
  intros Hr Hty Hin. injection Hr as <-. cbn [type name value priority weight port ttl] in *.
  split; [|eauto 6].
  apply text_eqb_neq in Hne.
  destruct (trim_shape line) as [E | (c & s' & Etrim & Hc & Hfix)]; [congruence|].
  destruct (trimmed_pieces _ _ _ Hfix Etrim Hc) as (p & ps & Hparts & Htok).
  rewrite includes_split_ws in Hsoa by (discriminate || reflexivity).
  apply existsb_false_inv in Hsoa.
  rewrite Hparts in *. cbn [nth] in *.
  set (vs := skipn (array_indexOf (str "IN") ((c :: p) :: ps) + 2) ((c :: p) :: ps)).
  assert (Hvs : Forall (fun x => is_token x = true) vs) by now apply Forall_skipn.
  assert (Hvsoa : Forall (fun x => includes (str "SOA") x = false) vs)
    by now apply Forall_skipn.
  unfold well_formed_record. cbn [type name value]. rewrite Hty.
  inversion Htok as [|? ? Hnm _]; subst.
  inversion Hsoa as [|? ? Snm _]; subst.
  rewrite Hnm, Snm.
  rewrite (Forall_nth_error _ _ _ _ Htok Hty).
  rewrite (Forall_nth_error _ _ _ _ Hsoa Hty).
  rewrite Etrim in Hsemi, Hdollar.
  change (starts_with (str ";") (c :: p)) with (starts_with (str ";") (c :: s')).
  change (starts_with (str "$") (c :: p)) with (starts_with (str "$") (c :: s')).
  rewrite Hsemi, Hdollar.
  apply text_eqb_neq in Hin. rewrite Hin.
  fold vs. rewrite (value_tokens_join _ Hvs), text_eqb_refl.
  assert (Hv : includes (str "SOA") (join (str " ") vs) = false).
  { destruct vs as [|v vs'] eqn:Evs; [reflexivity|].
    rewrite includes_split_ws by (discriminate || reflexivity).
    rewrite (split_ws_join _ Hvs) by discriminate. now apply existsb_false. }
  rewrite Hv. reflexivity.
Qed.

Lemma parse_lines_In lines : forall id r,
  In r (parse_lines lines id) -> exists id' line, parse_line id' line = Some r.
Proof.
  induction lines as [|l lines IH]; intros id r Hin; [destruct Hin|].
  cbn [parse_lines] in Hin. destruct (parse_line id l) as [r0|] eqn:E.
  - destruct Hin as [<- | Hin]; eauto.
  - eauto.
Qed.

(** Extra columns written before the value come back as words of the
    value. *)
Lemma parse_format_columns r ty cols :
  type r = Some ty -> well_formed_record r = true -> value r <> [] ->
  Forall (fun x => is_token x = true /\ includes (str "SOA") x = false) cols ->
  parseZoneFile
    (padEnd 15 (name r) ++ str " "
     ++ padEnd 8 (toString (num_or (ttl r) 3600)) ++ str " IN "
     ++ padEnd 8 ty ++ str " " ++ join (str " ") (cols ++ value_tokens (value r)))
  = [ {| rid := Some 1%Z; name := name r; type := Some ty;
         value := join (str " ") (cols ++ value_tokens (value r));
         ttl := Some (num_or (ttl r) 3600);
         priority := None; weight := None; port := None |} ].
Proof.
  intros Hty Hwf Hv Hcols.
  destruct (well_formed_record_inv _ _ Hty Hwf)
    as (Hnm & Htyt & Hsemi & Hdollar & Hin & S1 & S2 & S3 & Hval).
  destruct (ttl_column (ttl r)) as (tt & Htt & Httt & Hin2 & S4 & Hback).
  rewrite Htt.
  assert (Hc1 : Forall (fun x => is_token x = true) cols)
    by (eapply List.Forall_impl; [|exact Hcols]; cbn; tauto).
  assert (Hc2 : Forall (fun x => includes (str "SOA") x = false) cols)
    by (eapply List.Forall_impl; [|exact Hcols]; cbn; tauto).
  rewrite parse_formatted; auto.
  - now rewrite Hback.
  - apply Forall_app. split; [assumption | apply value_tokens_are_tokens].
  - repeat constructor; auto. apply Forall_app. split; [assumption|].
    now apply value_tokens_no_SOA.
Qed.

Lemma number_column x d :
  is_token (toString (num_or x d)) = true
  /\ includes (str "SOA") (toString (num_or x d)) = false.
Proof.
  destruct (num_or_JNum x d) as [z ->].
  split; [apply Z_toString_token | apply Z_toString_no_SOA].
Qed.

Lemma join_cons_value c v :
  v <> [] -> v = join (str " ") (value_tokens v) ->
  c ++ str " " ++ v = join (str " ") (c :: value_tokens v).
Proof.
  intros Hne Hv. destruct (value_tokens v) as [|t ts] eqn:E.
  - cbn in Hv. congruence.
  - rewrite Hv at 1. reflexivity.
Qed.

End TokenFacts.

(** ** Formatting and parsing records *)

Module RoundTripFacts.
Import JS ZoneRecords Measures NumFacts TokenFacts Samples.

(** C4. Numbers are written and read back as the interpreter does for
    safe integers (magnitude at most 2^53 - 1); every numeric field that
    is written is assumed missing, not a number, or a safe integer.
    (1) A well-formed record whose type is neither MX nor SRV is
    written to a line that parses back to exactly one record with the same
    name, type and value, the TTL it was written with (3600 when the TTL
    is missing or zero) and no priority, weight or port.  (2) For a record
    returned by the parser, with a type other than MX and SRV and a name
    other than [IN], formatting and parsing again returns a record with
    the same name, type and value.  (3) For MX and SRV records the numbers
    written before the value come back as the first words of the value,
    and the parsed record has no priority, weight or port. *)
Theorem parse_format_round_trip :
  (forall r ty,
      type r = Some ty -> well_formed_record r = true ->
      safe_field (ttl r) = true ->
      ty <> str "MX" -> ty <> str "SRV" ->
      exists line,
        formatRecord r = Some line
        /\ parseZoneFile line
           = [ {| rid := Some 1%Z; name := name r; type := Some ty;
                  value := value r; ttl := Some (num_or (ttl r) 3600);
                  priority := None; weight := None; port := None |} ])
  /\ (forall content r ty,
        In r (parseZoneFile content) -> type r = Some ty ->
        safe_field (ttl r) = true ->
        name r <> str "IN" -> ty <> str "MX" -> ty <> str "SRV" ->
        exists line r',
          formatRecord r = Some line /\ parseZoneFile line = [r']
          /\ name r' = name r /\ type r' = type r /\ value r' = value r)
  /\ (forall r,
        well_formed_record r = true -> value r <> [] ->
        safe_field (ttl r) = true ->
        (type r = Some (str "MX") ->
         safe_field (priority r) = true ->
         exists line,
           formatRecord r = Some line
           /\ parseZoneFile line
              = [ {| rid := Some 1%Z; name := name r; type := Some (str "MX");
                     value := toString (num_or (priority r) 10) ++ str " " ++ value r;
                     ttl := Some (num_or (ttl r) 3600);
                     priority := None; weight := None; port := None |} ])
        /\ (type r = Some (str "SRV") ->
            safe_field (priority r) = true ->
            safe_field (weight r) = true ->
            safe_field (port r) = true ->
            exists line,
              formatRecord r = Some line
              /\ parseZoneFile line
                 = [ {| rid := Some 1%Z; name := name r; type := Some (str "SRV");
                        value := toString (num_or (priority r) 10) ++ str " "
                                 ++ toString (num_or (weight r) 0) ++ str " "
                                 ++ toString (num_or (port r) 0) ++ str " "
                                 ++ value r;
                        ttl := Some (num_or (ttl r) 3600);
                        priority := None; weight := None; port := None |} ])).
Proof.
  split; [|split].
  - intros r ty Hty Hwf _ Hmx Hsrv. exact (parse_format_plain r ty Hty Hwf Hmx Hsrv).
  - intros content r ty Hin Hty _ Hname Hmx Hsrv.
    destruct (parse_lines_In _ _ _ Hin) as (id & line & Hline).
    destruct (parse_line_well_formed _ _ _ _ Hline Hty Hname) as (Hwf & _).
    destruct (parse_format_plain r ty Hty Hwf Hmx Hsrv) as (line' & Hf & Hp).
    eexists _, _. split; [exact Hf|]. split; [exact Hp|]. cbn. auto.
  - intros r Hwf Hv _. split.
    + intros Hty _.
      destruct (well_formed_record_inv _ _ Hty Hwf) as (_ & _ & _ & _ & _ & _ & _ & _ & Hval).
      unfold formatRecord. rewrite Hty. cbn [text_eqb].
      change (text_eqb (str "MX") (str "MX")) with true. cbn iota.
      eexists. split; [reflexivity|].
      repeat rewrite <- app_assoc.
      rewrite (join_cons_value _ _ Hv Hval).
      apply (parse_format_columns r (str "MX") [_] Hty Hwf Hv).
      repeat constructor; apply number_column.
    + intros Hty _ _ _.
      destruct (well_formed_record_inv _ _ Hty Hwf) as (_ & _ & _ & _ & _ & _ & _ & _ & Hval).
      unfold formatRecord. rewrite Hty.
      change (text_eqb (str "SRV") (str "MX")) with false.
      change (text_eqb (str "SRV") (str "SRV")) with true. cbn iota.
      eexists. split; [reflexivity|].
      repeat rewrite <- app_assoc.
      rewrite (join_cons_value _ _ Hv Hval).
      apply (parse_format_columns r (str "SRV") [_; _; _] Hty Hwf Hv).
      repeat constructor; apply number_column.
Qed.

Lemma parse_format_round_trip_witness :
  (exists line,
      formatRecord www_record = Some line
      /\ parseZoneFile line
         = [ {| rid := Some 1%Z; name := str "www"; type := Some (str "A");
                value := str "192.0.2.1"; ttl := Some (JNum 300);
                priority := None; weight := None; port := None |} ])
  /\ (exists line r',
        formatRecord www_parsed = Some line /\ parseZoneFile line = [r']
        /\ name r' = str "www" /\ type r' = Some (str "A")
        /\ value r' = str "192.0.2.1")
  /\ (exists line,
        formatRecord mx_record = Some line
        /\ parseZoneFile line
           = [ {| rid := Some 1%Z; name := str "@"; type := Some (str "MX");
                  value := str "20" ++ str " " ++ str "mail.example.com.";
                  ttl := Some (JNum 3600);
                  priority := None; weight := None; port := None |} ]).
Proof.
  destruct parse_format_round_trip as (Hformat & Hparse & Hcolumns).
  split; [|split].
  - apply (Hformat www_record (str "A")).
    + reflexivity.
    + vm_compute. reflexivity.
    + vm_compute. reflexivity.
    + intros H. vm_compute in H. discriminate H.
    + intros H. vm_compute in H. discriminate H.
  - apply (Hparse (str "www 300 IN A 192.0.2.1") www_parsed (str "A")).
    + vm_compute. left. reflexivity.
    + reflexivity.
    + vm_compute. reflexivity.
    + intros H. vm_compute in H. discriminate H.
    + intros H. vm_compute in H. discriminate H.
    + intros H. vm_compute in H. discriminate H.
  - apply (proj1 (Hcolumns mx_record ltac:(vm_compute; reflexivity)
                    ltac:(intros H; vm_compute in H; discriminate H)
                    ltac:(vm_compute; reflexivity))).
    + reflexivity.
    + vm_compute. reflexivity.
Defined.

(** An MX record loses its priority field and gains a word in its value;
    an MX line read, written and read again has the priority twice. *)
Lemma mx_priority_not_reproduced :
  well_formed_record mx_record = true
  /\ (exists line r',
        formatRecord mx_record = Some line /\ parseZoneFile line = [r']
        /\ value mx_record = str "mail.example.com."
        /\ value r' = str "20 mail.example.com."
        /\ priority mx_record = Some (JNum 20)
        /\ priority r' = None)
  /\ (exists r1 line r2,
        parseZoneFile (str "@ 3600 IN MX 10 mail.example.com.") = [r1]
        /\ formatRecord r1 = Some line /\ parseZoneFile line = [r2]
        /\ value r1 = str "10 mail.example.com."
        /\ value r2 = str "10 10 mail.example.com.").
Proof.
  split; [vm_compute; reflexivity|]. split.
  - do 2 eexists. split; [vm_compute; reflexivity|].
    split; [vm_compute; reflexivity|]. repeat split; vm_compute; reflexivity.
  - do 3 eexists. split; [vm_compute; reflexivity|].
    split; [vm_compute; reflexivity|].
    split; [vm_compute; reflexivity|]. split; vm_compute; reflexivity.
Qed.

End RoundTripFacts.

(* ===================================================================== *)
(** * Further properties *)
(* ===================================================================== *)

(** ** Lists and texts *)

Module TextFacts.
Import JS BindConfig TokenFacts.

Lemma Ok_inj {A} (a b : A) : Ok a = Ok b -> a = b.
Proof. intros H. congruence. Qed.

Lemma outcome_inj {A B} (a b : A) (r : B) : Some (a, r) = Some (b, r) -> a = b.
Proof. intros H. congruence. Qed.

Lemma list_ind2 {A} (P : list A -> Prop) :
  P [] -> (forall a, P [a]) ->
  (forall a b l, P l -> P (b :: l) -> P (a :: b :: l)) ->
  forall l, P l.
Proof.
  intros H0 H1 H2 l.
  assert (H : P l /\ forall a, P (a :: l)).
  { induction l as [|b l [IH1 IH2]]; [auto|]. split; [apply IH2|].
    intros a. apply H2; auto. }
  apply H.
Qed.

Lemma split_on_cons sep c r :
  split_on sep (c :: r)
  = if sep c then [] :: split_on sep r
    else match split_on sep r with
         | p :: ps => (c :: p) :: ps
         | [] => [[c]]
         end.
Proof. reflexivity. Qed.

Lemma split_on_head sep s :
  exists p ps, split_on sep s = p :: ps /\ (p = [] \/ hd_error p = hd_error s).
Proof.
  destruct s as [|c r]; [exists [], []; auto|]. rewrite split_on_cons.
  destruct (sep c); [eexists _, _; eauto|].
  destruct (split_on sep r) as [|p ps]; eexists _, _; split; try reflexivity;
    right; reflexivity.
Qed.

Lemma split_on_pieces sep s :
  Forall (fun p => forallb (fun c => negb (sep c)) p = true) (split_on sep s).
Proof.
  induction s as [|c r IH]; [repeat constructor|]. rewrite split_on_cons.
  destruct (sep c) eqn:E; [constructor; [reflexivity | exact IH]|].
  destruct (split_on sep r) as [|p ps].
  - repeat constructor. cbn. rewrite E. reflexivity.
  - inversion IH; subst. constructor; [|assumption]. cbn [forallb].
    rewrite E. assumption.
Qed.

Lemma split_on_free sep s :
  forallb (fun c => negb (sep c)) s = true -> split_on sep s = [s].
Proof.
  induction s as [|c r IH]; [reflexivity|]. cbn [forallb].
  rewrite andb_true_iff, negb_true_iff. intros [Hc Hr].
  rewrite split_on_cons, Hc, (IH Hr). reflexivity.
Qed.

Lemma split_on_app_sep c a b :
  split_on (N.eqb c) (a ++ c :: b) = split_on (N.eqb c) a ++ split_on (N.eqb c) b.
Proof.
  induction a as [|x a IH].
  - cbn [app]. rewrite split_on_cons, N.eqb_refl. reflexivity.
  - cbn [app]. rewrite !split_on_cons. destruct (c =? x).
    + rewrite IH. reflexivity.
    + rewrite IH. destruct (split_on_head (N.eqb c) a) as (p & ps & E & _).
      rewrite E. reflexivity.
Qed.

Lemma split_on_join c ls :
  ls <> [] ->
  Forall (fun l => forallb (fun x => negb (c =? x)) l = true) ls ->
  split_on (N.eqb c) (join [c] ls) = ls.
Proof.
  intros Hne H. induction H as [|l ls Hl Hls IH]; [congruence|].
  destruct ls as [|l' ls'].
  - cbn [join]. apply split_on_free, Hl.
  - change (join [c] (l :: l' :: ls')) with (l ++ c :: join [c] (l' :: ls')).
    rewrite split_on_app_sep, (split_on_free _ _ Hl), IH by discriminate.
    reflexivity.
Qed.

Lemma starts_with_app p r : starts_with p (p ++ r) = true.
Proof.
  induction p as [|c p IH]; [destruct r; reflexivity|].
  cbn [app starts_with]. now rewrite N.eqb_refl.
Qed.

Lemma includes_app_intro p a b : includes p (a ++ p ++ b) = true.
Proof.
  induction a as [|c a IH].
  - cbn [app]. rewrite includes_eq, starts_with_app. reflexivity.
  - cbn [app]. rewrite includes_eq, IH. apply orb_true_r.
Qed.

Lemma includes_char k s : includes [k] s = existsb (N.eqb k) s.
Proof.
  induction s as [|c s IH]; [reflexivity|]. rewrite includes_eq, IH.
  cbn [starts_with existsb]. now rewrite andb_true_r.
Qed.

Lemma nth_error_from {A} (l : list A) a b :
  nth_error (skipn a l) b = nth_error l (a + b).
Proof.
  revert l; induction a as [|a IH]; intros l; [reflexivity|].
  destruct l; [now rewrite skipn_nil, !nth_error_nil | apply IH].
Qed.

Lemma skipn_head {A} (l : list A) i x :
  nth_error l i = Some x -> skipn i l = x :: skipn (S i) l.
Proof.
  revert l; induction i as [|i IH]; intros [|y l] H; try discriminate.
  - cbn in H. injection H as ->. reflexivity.
  - apply IH. exact H.
Qed.

Lemma take_slice a b (s : text) :
  (a <= b)%nat -> firstn a s ++ slice a b s = firstn b s.
Proof.
  intros H. unfold slice. rewrite take_take_drop. f_equal. lia.
Qed.

Lemma slice_drop a b (s : text) :
  (a <= b)%nat -> slice a b s ++ skipn b s = skipn a s.
Proof.
  intros H. unfold slice. rewrite <- (take_drop (b - a) (skipn a s)) at 2.
  rewrite drop_drop. do 2 f_equal. lia.
Qed.

Lemma slice_app a b c (s : text) :
  (a <= b <= c)%nat -> slice a b s ++ slice b c s = slice a c s.
Proof.
  intros H. unfold slice. replace (skipn b s) with (skipn (b - a) (skipn a s)).
  - rewrite take_take_drop. f_equal. lia.
  - rewrite drop_drop. f_equal. lia.
Qed.

Lemma indexOf_char_nth c s : forall k,
  indexOf_char c s = Some k -> nth_error s k = Some c.
Proof.
  induction s as [|a r IH]; intros k; [discriminate|]. cbn [indexOf_char].
  destruct (N.eqb_spec a c) as [->|_].
  - intros H. injection H as <-. reflexivity.
  - destruct (indexOf_char c r) as [j|]; [|discriminate].
    intros H. injection H as <-. apply IH. reflexivity.
Qed.

Lemma trim_idem s : trim (trim s) = trim s.
Proof.
  destruct (trim_shape s) as [E | (c & r & E & Hc & Hfix)].
  - rewrite E. reflexivity.
  - unfold trim at 1. unfold trimStart. rewrite E at 1.
    rewrite (skip_ws_head _ _ Hc), <- E. exact Hfix.
Qed.

Lemma trimEnd_last s t c : trimEnd s = t ++ [c] -> is_ws c = false.
Proof.
  revert t. induction s as [|a r IH]; intros t.
  - destruct t; discriminate.
  - rewrite trimEnd_cons. destruct (trimEnd r) as [|x r'] eqn:E.
    + destruct (is_ws a) eqn:Ea; [destruct t; discriminate|].
      destruct t as [|y [|z t]]; try discriminate.
      intros H. injection H as <-. exact Ea.
    + destruct t as [|y t]; [discriminate|]. intros H. injection H as _ H.
      apply (IH t H).
Qed.

Lemma trimEnd_hd s : trimEnd s = [] \/ hd_error (trimEnd s) = hd_error s.
Proof.
  destruct s as [|c r]; [now left|]. rewrite trimEnd_cons.
  destruct (trimEnd r); [destruct (is_ws c); [left|right]; reflexivity|].
  right. reflexivity.
Qed.

Lemma skip_ws_forallb (P : N -> bool) s :
  forallb P s = true -> forallb P (skip_ws s) = true.
Proof.
  induction s as [|c r IH]; intros H; [reflexivity|]. rewrite skip_ws_cons.
  destruct (is_ws c); [|exact H]. apply IH. cbn in H.
  apply andb_true_iff in H. apply H.
Qed.

Lemma trimEnd_forallb (P : N -> bool) s :
  forallb P s = true -> forallb P (trimEnd s) = true.
Proof.
  induction s as [|c r IH]; intros H; [reflexivity|]. cbn [forallb] in H.
  apply andb_true_iff in H. destruct H as [Hc Hr]. specialize (IH Hr).
  rewrite trimEnd_cons. destruct (trimEnd r) as [|x r'].
  - destruct (is_ws c); [reflexivity|]. cbn. now rewrite Hc.
  - cbn [forallb] in *. now rewrite Hc, IH.
Qed.

Lemma text_eqb_sym a b : text_eqb a b = text_eqb b a.
Proof.
  destruct (text_eqb a b) eqn:H1, (text_eqb b a) eqn:H2; try reflexivity.
  - apply text_eqb_eq in H1. subst. rewrite text_eqb_refl in H2. discriminate.
  - apply text_eqb_eq in H2. subst. rewrite text_eqb_refl in H1. discriminate.
Qed.

End TextFacts.

(** ** The brace scanner *)

Module ScannerFacts.
Import JS BindConfig Samples RemoveFacts TextFacts.

Lemma brace_scan_sound s : forall c i j,
  (0 < c)%Z -> brace_scan s c i = Some j ->
  exists k, j = (i + k)%nat
    /\ nth_error s k = Some 125
    /\ (c + depth (firstn (S k) s) = 0)%Z
    /\ forall n, (n <= k)%nat -> (0 < c + depth (firstn n s))%Z.
Proof.
  induction s as [|ch r IH]; intros c i j Hc; [discriminate|].
  cbn [brace_scan].
  destruct (ch =? 123) eqn:Eo.
  - intros H. apply IH in H; [|lia]. destruct H as (k & -> & Hk & Hd & Hpos).
    exists (S k). split; [lia|]. split; [exact Hk|]. split.
    + change (firstn (S (S k)) (ch :: r)) with (ch :: firstn (S k) r).
      cbn [depth]. rewrite Eo. lia.
    + intros [|n] Hn; [rewrite take_0; cbn [depth]; lia|]. cbn [firstn depth]. rewrite Eo.
      specialize (Hpos n ltac:(lia)). lia.
  - destruct (ch =? 125) eqn:Ec.
    + destruct (Z.eqb_spec (c - 1) 0) as [E0|E0].
      * intros H. exists 0%nat. split; [injection H; lia|].
        apply N.eqb_eq in Ec. subst ch. split; [reflexivity|]. split.
        -- cbn [firstn depth]. rewrite Eo. change (125 =? 125) with true.
           cbv iota. rewrite take_0. cbn [depth]. lia.
        -- intros n Hn. replace n with 0%nat by lia. rewrite take_0.
           cbn [depth]. lia.
      * intros H. apply IH in H; [|lia]. destruct H as (k & -> & Hk & Hd & Hpos).
        exists (S k). split; [lia|]. split; [exact Hk|]. split.
        -- change (firstn (S (S k)) (ch :: r)) with (ch :: firstn (S k) r).
           cbn [depth]. rewrite Eo, Ec. lia.
        -- intros [|n] Hn; [rewrite take_0; cbn [depth]; lia|]. cbn [firstn depth]. rewrite Eo, Ec.
           specialize (Hpos n ltac:(lia)). lia.
    + intros H. apply IH in H; [|lia]. destruct H as (k & -> & Hk & Hd & Hpos).
      exists (S k). split; [lia|]. split; [exact Hk|]. split.
      * change (firstn (S (S k)) (ch :: r)) with (ch :: firstn (S k) r).
        cbn [depth]. rewrite Eo, Ec. lia.
      * intros [|n] Hn; [rewrite take_0; cbn [depth]; lia|]. cbn [firstn depth]. rewrite Eo, Ec.
        specialize (Hpos n ltac:(lia)). lia.
Qed.

Lemma brace_scan_none s : forall c i,
  (0 < c)%Z -> brace_scan s c i = None ->
  forall n, (n <= length s)%nat -> (0 < c + depth (firstn n s))%Z.
Proof.
  induction s as [|ch r IH]; intros c i Hc H n Hn.
  - rewrite firstn_nil. cbn. lia.
  - destruct n as [|n]; [rewrite take_0; cbn [depth]; lia|]. cbn [length] in Hn.
    cbn [brace_scan] in H. cbn [firstn depth].
    destruct (ch =? 123) eqn:Eo.
    + eapply IH with (n := n) in H; lia.
    + destruct (ch =? 125) eqn:Ec.
      * destruct (Z.eqb_spec (c - 1) 0) as [E0|E0]; [discriminate|].
        eapply IH with (n := n) in H; lia.
      * eapply IH with (n := n) in H; lia.
Qed.

Lemma count_separators_spec s :
  let k := count_separators s in
  (k <= length s)%nat
  /\ forallb is_separator (firstn k s) = true
  /\ match nth_error s k with
     | Some c => is_separator c = false
     | None => True
     end.
Proof.
  induction s as [|c r IH]; [cbn; auto|]. cbn [count_separators].
  destruct (is_separator c) eqn:E.
  - cbn zeta in IH. destruct IH as (H1 & H2 & H3).
    cbn [length firstn forallb nth_error]. rewrite E, H2.
    split; [lia|]. split; [reflexivity | exact H3].
  - cbn. rewrite E. split; [lia | auto].
Qed.

(** What a successful scan from an opening brace has found. *)
Lemma block_end_inv content idx closing endIndex :
  nth_error content idx = Some 123 ->
  block_end content idx = Some (closing, endIndex) ->
  exists k,
    closing = (S idx + k)%nat
    /\ (closing < length content)%nat
    /\ nth_error content closing = Some 125
    /\ (1 + depth (firstn (S k) (skipn (S idx) content)) = 0)%Z
    /\ (forall n, (n <= k)%nat ->
                  (0 < 1 + depth (firstn n (skipn (S idx) content)))%Z)
    /\ endIndex = (closing + 1
                   + count_separators (skipn (closing + 1) content))%nat
    /\ (endIndex <= length content)%nat.
Proof.
  intros Hopen. unfold block_end.
  destruct (brace_scan _ 0 idx) as [i|] eqn:Hscan; [|discriminate].
  intros H. assert (i = closing) by congruence. subst i.
  assert (Hend : endIndex = (closing + 1
                  + count_separators (skipn (closing + 1) content))%nat)
    by congruence. clear H.
  rewrite (skipn_head _ _ _ Hopen) in Hscan. cbn [brace_scan] in Hscan.
  change (123 =? 123) with true in Hscan. cbv iota in Hscan.
  apply brace_scan_sound in Hscan; [|lia].
  destruct Hscan as (k & Hj & Hk & Hd & Hpos).
  rewrite nth_error_from in Hk.
  assert (Hlen : (S idx + k < length content)%nat).
  { apply nth_error_Some. rewrite Hk. discriminate. }
  destruct (count_separators_spec (skipn (closing + 1) content)) as (Hs & _).
  rewrite length_skipn in Hs.
  exists k. rewrite Hj. repeat split; auto; try lia.
  - rewrite <- Hj. exact Hend.
Qed.

(** X1. The scan that starts at an opening brace stops at the brace that
    closes it: the text from one to the other is balanced, none of its
    proper prefixes is, and the block ends after the run of white space
    and semicolons that follows the closing brace. *)
Theorem block_end_matching content idx closing endIndex :
  nth_error content idx = Some 123 ->
  block_end content idx = Some (closing, endIndex) ->
  (idx < closing < length content)%nat
  /\ nth_error content closing = Some 125
  /\ depth (slice idx (closing + 1) content) = 0%Z
  /\ (forall n, (0 < n <= closing - idx)%nat ->
                (0 < depth (slice idx (idx + n) content))%Z)
  /\ (closing < endIndex <= length content)%nat
  /\ forallb is_separator (slice (closing + 1) endIndex content) = true
  /\ match nth_error content endIndex with
     | Some c => is_separator c = false
     | None => True
     end.
Proof.
  intros Hopen Hend.
  destruct (block_end_inv _ _ _ _ Hopen Hend)
    as (k & Hj & Hlen & Hclose & Hd & Hpos & He & Hle).
  destruct (count_separators_spec (skipn (closing + 1) content))
    as (_ & Hs2 & Hs3).
  assert (Hslice : forall n, slice idx (idx + S n) content
                             = 123 :: firstn n (skipn (S idx) content)).
  { intros n. unfold slice. replace (idx + S n - idx)%nat with (S n) by lia.
    rewrite (skipn_head _ _ _ Hopen). reflexivity. }
  split; [lia|]. split; [exact Hclose|]. split.
  { replace (closing + 1)%nat with (idx + S (S k))%nat by lia.
    rewrite Hslice. cbn [depth]. change (123 =? 123) with true. cbv iota.
    exact Hd. }
  split.
  { intros [|n] Hn; [lia|]. rewrite Hslice. cbn [depth].
    change (123 =? 123) with true. cbv iota. apply Hpos. lia. }
  split; [lia|]. split.
  { unfold slice. rewrite He.
    replace (closing + 1 + _ - (closing + 1))%nat
      with (count_separators (skipn (closing + 1) content)) by lia.
    exact Hs2. }
  rewrite nth_error_from in Hs3. rewrite He. exact Hs3.
Qed.

Lemma block_end_matching_witness :
  (19 < 81 < length sample_conf)%nat
  /\ nth_error sample_conf 81 = Some 125
  /\ depth (slice 19 (81 + 1) sample_conf) = 0%Z
  /\ (forall n, (0 < n <= 81 - 19)%nat ->
                (0 < depth (slice 19 (19 + n) sample_conf))%Z)
  /\ (81 < 84 <= length sample_conf)%nat
  /\ forallb is_separator (slice (81 + 1) 84 sample_conf) = true
  /\ match nth_error sample_conf 84 with
     | Some c => is_separator c = false
     | None => True
     end.
Proof.
  apply (block_end_matching sample_conf 19 81 84).
  - vm_compute. reflexivity.
  - vm_compute. reflexivity.
Defined.

(** X2. The scan that starts at an opening brace fails exactly when the
    brace is never closed: every non-empty prefix of the text from the
    brace on has positive depth. *)
Theorem block_end_none_iff content idx :
  nth_error content idx = Some 123 ->
  block_end content idx = None
  <-> forall n, (0 < n <= length content - idx)%nat ->
                (0 < depth (slice idx (idx + n) content))%Z.
Proof.
  intros Hopen.
  assert (Hslice : forall n, slice idx (idx + n) content
                             = firstn n (skipn idx content)).
  { intros n. unfold slice. replace (idx + n - idx)%nat with n by lia. reflexivity. }
  unfold block_end. split.
  - destruct (brace_scan _ 0 idx) as [i|] eqn:Hscan; [discriminate|]. intros _.
    rewrite (skipn_head _ _ _ Hopen) in Hscan. cbn [brace_scan] in Hscan.
    change (123 =? 123) with true in Hscan. cbv iota in Hscan.
    intros [|n] Hn; [lia|]. rewrite Hslice, (skipn_head _ _ _ Hopen).
    cbn [firstn depth]. change (123 =? 123) with true. cbv iota.
    apply (brace_scan_none _ 1%Z (S idx)); [lia | exact Hscan |].
    rewrite length_skipn. lia.
  - intros Hpos. rewrite brace_scan_positive; [reflexivity|].
    intros n Hn. rewrite length_skipn in Hn. rewrite <- Hslice.
    specialize (Hpos n Hn). lia.
Qed.

Lemma block_end_none_iff_witness :
  block_end unterminated_zone 19 = None
  <-> forall n, (0 < n <= length unterminated_zone - 19)%nat ->
                (0 < depth (slice 19 (19 + n) unterminated_zone))%Z.
Proof.
  apply (block_end_none_iff unterminated_zone 19). vm_compute. reflexivity.
Defined.

End ScannerFacts.

(** ** Adding a zone to a view *)

Module InsertFacts.
Import JS BindConfig Samples Fixtures Measures TextFacts ScannerFacts.

(** The first occurrence of a character: nothing before it is that
    character. *)
Lemma indexOf_char_first c s n :
  indexOf_char c s = Some n ->
  forall j, (j < n)%nat -> nth_error s j <> Some c.
Proof.
  revert n. induction s as [|a s IH]; intros n; [discriminate|].
  cbn [indexOf_char]. destruct (a =? c) eqn:Hac.
  - intros H j Hj. assert (n = 0%nat) by congruence. lia.
  - destruct (indexOf_char c s) as [m|]; [|discriminate].
    cbn [option_map]. intros H j Hj. assert (n = S m) by congruence. subst n.
    destruct j as [|j]; cbn [nth_error].
    + intros E. apply N.eqb_neq in Hac. congruence.
    + apply (IH m eq_refl). lia.
Qed.

(** The brace found by the scan from an opening brace is the one that
    matches it. *)
Lemma block_end_closes content idx closing endIndex :
  nth_error content idx = Some 123 ->
  block_end content idx = Some (closing, endIndex) ->
  (idx < closing < length content)%nat
  /\ (closing < endIndex <= length content)%nat
  /\ nth_error content closing = Some 125
  /\ depth (slice idx (closing + 1) content) = 0%Z
  /\ (forall n, (0 < n <= closing - idx)%nat ->
                (0 < depth (slice idx (idx + n) content))%Z).
Proof.
  intros Hopen Hend.
  destruct (block_end_inv _ _ _ _ Hopen Hend)
    as (k & Hj & Hlen & Hclose & Hd & Hpos & He & Hle).
  assert (Hslice : forall n, slice idx (idx + S n) content
                             = 123 :: firstn n (skipn (S idx) content)).
  { intros n. unfold slice. replace (idx + S n - idx)%nat with (S n) by lia.
    rewrite (skipn_head _ _ _ Hopen). reflexivity. }
  split; [lia|]. split; [lia|]. split; [exact Hclose|]. split.
  { replace (closing + 1)%nat with (idx + S (S k))%nat by lia.
    rewrite Hslice. cbn [depth]. change (123 =? 123) with true. cbv iota.
    exact Hd. }
  intros [|n] Hn; [lia|]. rewrite Hslice. cbn [depth].
  change (123 =? 123) with true. cbv iota. apply Hpos. lia.
Qed.

(** X3. Whenever [insertZoneIntoViewContent] succeeds, its result is the
    input with one piece of text inserted and nothing removed or changed.
    When the header of the view occurs, the piece is a newline, four
    spaces and the zone block, and it is placed right before the brace
    that closes the view: the first opening brace from the header on, and
    the closing brace that matches it (the text between the two, braces
    included, has depth zero and no shorter prefix of it has).  When the
    header does not occur, the piece is a new view block with that name,
    the lines of its access list and the zone block, placed at the end. *)
Theorem insertZoneIntoViewContent_keeps_content
    content zoneBlock viewName viewAcl result :
  insertZoneIntoViewContent content zoneBlock viewName viewAcl = Ok result ->
  match indexOf (str "view " ++ [34] ++ viewName ++ [34]) content with
  | None =>
      result = content
               ++ (nl ++ str "view " ++ [34] ++ viewName ++ [34] ++ str " {" ++ nl
                   ++ join nl (acl_lines viewAcl) ++ nl ++ nl
                   ++ str "    " ++ zoneBlock ++ nl ++ str "};" ++ nl)
  | Some idx =>
      exists opening closing,
        (idx <= opening < closing)%nat
        /\ (closing < length content)%nat
        /\ nth_error content opening = Some 123
        /\ (forall j, (idx <= j < opening)%nat -> nth_error content j <> Some 123)
        /\ nth_error content closing = Some 125
        /\ depth (slice opening (closing + 1) content) = 0%Z
        /\ (forall n, (0 < n <= closing - opening)%nat ->
                      (0 < depth (slice opening (opening + n) content))%Z)
        /\ result = firstn closing content
                    ++ (nl ++ str "    " ++ zoneBlock)
                    ++ skipn closing content
  end.
Proof.
  unfold insertZoneIntoViewContent.
  destruct (indexOf _ content) as [idx|] eqn:Hidx.
  - unfold slice_from.
    destruct (indexOf_char 123 (skipn idx content)) as [ob|] eqn:Hob;
      [|discriminate].
    destruct (block_end content (idx + ob)) as [[closing endIndex]|] eqn:Hend;
      [|discriminate].
    intros H. apply Ok_inj in H. subst result.
    assert (Hopen : nth_error content (idx + ob) = Some 123).
    { rewrite <- nth_error_from. apply indexOf_char_nth, Hob. }
    destruct (block_end_closes _ _ _ _ Hopen Hend)
      as (Hb1 & Hb2 & Hclose & Hd & Hpos).
    exists (idx + ob)%nat, closing.
    split; [lia|]. split; [lia|]. split; [exact Hopen|]. split.
    { intros j Hj. replace j with (idx + (j - idx))%nat by lia.
      rewrite <- nth_error_from. apply (indexOf_char_first _ _ _ Hob). lia. }
    split; [exact Hclose|]. split; [exact Hd|]. split; [exact Hpos|].
    rewrite <- (take_slice idx closing) by lia.
    rewrite <- (slice_app idx (idx + ob + 1) closing content) by lia.
    rewrite <- (slice_drop closing endIndex content) by lia.
    unfold slice at 1. rewrite drop_0, Nat.sub_0_r.
    rewrite <- !app_assoc. reflexivity.
  - intros H. apply Ok_inj in H. subst result. reflexivity.
Qed.

Lemma insertZoneIntoViewContent_keeps_content_witness :
  match indexOf (str "view " ++ [34] ++ str "guest" ++ [34]) guest_view with
  | None =>
      guest_view_extended
      = guest_view
        ++ (nl ++ str "view " ++ [34] ++ str "guest" ++ [34] ++ str " {" ++ nl
            ++ join nl (acl_lines default_acl) ++ nl ++ nl
            ++ str "    " ++ example_block ++ nl ++ str "};" ++ nl)
  | Some idx =>
      exists opening closing,
        (idx <= opening < closing)%nat
        /\ (closing < length guest_view)%nat
        /\ nth_error guest_view opening = Some 123
        /\ (forall j, (idx <= j < opening)%nat -> nth_error guest_view j <> Some 123)
        /\ nth_error guest_view closing = Some 125
        /\ depth (slice opening (closing + 1) guest_view) = 0%Z
        /\ (forall n, (0 < n <= closing - opening)%nat ->
                      (0 < depth (slice opening (opening + n) guest_view))%Z)
        /\ guest_view_extended
           = firstn closing guest_view
             ++ (nl ++ str "    " ++ example_block)
             ++ skipn closing guest_view
  end.
Proof.
  apply (insertZoneIntoViewContent_keeps_content guest_view example_block
           (str "guest") default_acl guest_view_extended).
  vm_compute. reflexivity.
Defined.

Lemma insert_contains_block content zoneBlock viewName viewAcl result :
  insertZoneIntoViewContent content zoneBlock viewName viewAcl = Ok result ->
  exists a b, result = a ++ zoneBlock ++ b.
Proof.
  unfold insertZoneIntoViewContent.
  destruct (indexOf _ content) as [idx|].
  - destruct (indexOf_char 123 _) as [ob|]; [|discriminate].
    destruct (block_end content _) as [[closing endIndex]|]; [|discriminate].
    intros H. apply Ok_inj in H. subst result.
    exists (slice 0 idx content ++ slice idx (idx + ob + 1) content
            ++ slice (idx + ob + 1) closing content ++ nl ++ str "    "),
           (slice closing endIndex content ++ slice_from endIndex content).
    rewrite <- !app_assoc. reflexivity.
  - match goal with |- context [join nl ?a] => set (aclLines := a) end.
    intros H. apply Ok_inj in H. subst result.
    exists (content ++ nl ++ str "view " ++ [34] ++ viewName ++ [34] ++ str " {"
            ++ nl ++ join nl aclLines ++ nl ++ nl ++ str "    "),
           (nl ++ str "};" ++ nl).
    rewrite <- !app_assoc. reflexivity.
Qed.

Lemma count_occurrences_app p a b :
  p <> [] -> (1 <= count_occurrences p (a ++ p ++ b))%nat.
Proof.
  intros Hp. induction a as [|c a IH].
  - cbn [app]. destruct p as [|x p]; [congruence|].
    cbn [app count_occurrences].
    change (x :: p ++ b) with ((x :: p) ++ b). rewrite starts_with_app. lia.
  - cbn [app count_occurrences]. lia.
Qed.

(** X23. After a successful move the zone is there: the document
    returned by [buildMoveZoneToViewContent] contains the block written
    for the zone (type master, the given file), hence at least one header
    [zone "<name>"]. *)
Theorem moved_zone_is_present content zoneName zoneFile targetView targetViewAcl
        result :
  buildMoveZoneToViewContent content zoneName zoneFile targetView targetViewAcl
  = Some (Ok result) ->
  (exists a b, result = a ++ zone_block zoneName zoneFile ++ b)
  /\ (1 <= zone_blocks_named zoneName result)%nat.
Proof.
  unfold buildMoveZoneToViewContent.
  destruct (removeZoneFromConfigContent content zoneName) as [cleaned|];
    [|discriminate].
  intros H. assert (Hins : insertZoneIntoViewContent cleaned
                             (zone_block zoneName zoneFile) targetView targetViewAcl
                           = Ok result) by congruence.
  destruct (insert_contains_block _ _ _ _ _ Hins) as (a & b & ->).
  split; [eauto|]. unfold zone_blocks_named, zone_block.
  rewrite <- !app_assoc.
  set (header := str "zone " ++ [34] ++ zoneName ++ [34]).
  match goal with
  | |- context [a ++ str "zone " ++ [34] ++ zoneName ++ [34] ++ ?x] =>
      replace (str "zone " ++ [34] ++ zoneName ++ [34] ++ x) with (header ++ x)
        by (unfold header; rewrite <- !app_assoc; reflexivity)
  end.
  apply count_occurrences_app. discriminate.
Qed.

Lemma moved_zone_is_present_witness :
  let result :=
    moved sample_conf (str "example.com") (str "/etc/bind/zones/db.example.com")
      (str "guest") in
  (exists a b,
      result = a ++ zone_block (str "example.com")
                      (str "/etc/bind/zones/db.example.com") ++ b)
  /\ (1 <= zone_blocks_named (str "example.com") result)%nat.
Proof.
  apply (moved_zone_is_present sample_conf (str "example.com")
           (str "/etc/bind/zones/db.example.com") (str "guest") default_acl).
  vm_compute. reflexivity.
Defined.

End InsertFacts.

(** ** The document left by a removal *)

Module NormalFormFacts.
Import JS BindConfig Samples Fixtures Measures TokenFacts TextFacts.

Lemma newline_runs_weaken s : forall a b,
  (b <= a)%nat -> newline_runs_ok a s = true -> newline_runs_ok b s = true.
Proof.
  induction s as [|c r IH]; intros a b Hab; [reflexivity|]. cbn [newline_runs_ok].
  destruct (c =? 10); [|auto].
  rewrite !andb_true_iff, !Nat.ltb_lt. intros [H1 H2]. split; [lia|].
  apply (IH (S a)); [lia | exact H2].
Qed.

Lemma newline_runs_tail run c r :
  newline_runs_ok run (c :: r) = true -> newline_runs_ok 0 r = true.
Proof.
  cbn [newline_runs_ok]. destruct (c =? 10); [|auto].
  rewrite andb_true_iff. intros [_ H]. apply (newline_runs_weaken r (S run)); [lia|exact H].
Qed.

Lemma collapse_newlines_runs s : forall run,
  newline_runs_ok (Nat.min run 2) (collapse_newlines_from run s) = true.
Proof.
  induction s as [|c r IH]; intros run; [reflexivity|].
  cbn [collapse_newlines_from].
  destruct (c =? 10) eqn:Ec.
  - destruct (Nat.ltb_spec run 2) as [Hlt|Hge].
    + cbn [newline_runs_ok]. change (10 =? 10) with true. cbv iota.
      rewrite andb_true_iff, Nat.ltb_lt. split; [lia|].
      specialize (IH (S run)).
      apply (newline_runs_weaken _ (Nat.min (S run) 2)); [lia | exact IH].
    + specialize (IH (S run)).
      apply (newline_runs_weaken _ (Nat.min (S run) 2)); [lia | exact IH].
  - cbn [newline_runs_ok]. rewrite Ec. apply (IH 0%nat).
Qed.

Lemma skip_ws_runs s : forall run,
  newline_runs_ok run s = true -> newline_runs_ok 0 (skip_ws s) = true.
Proof.
  induction s as [|c r IH]; intros run H; [reflexivity|].
  rewrite skip_ws_cons. destruct (is_ws c).
  - apply (IH 0%nat). apply (newline_runs_tail run c), H.
  - apply (newline_runs_weaken _ run); [lia | exact H].
Qed.

Lemma trimEnd_runs s : forall run,
  newline_runs_ok run s = true -> newline_runs_ok run (trimEnd s) = true.
Proof.
  induction s as [|c r IH]; intros run H; [reflexivity|].
  rewrite trimEnd_cons. cbn [newline_runs_ok] in H.
  destruct (trimEnd r) as [|x r'] eqn:E.
  - destruct (is_ws c); [reflexivity|]. cbn [newline_runs_ok].
    destruct (c =? 10); [|reflexivity].
    apply andb_true_iff in H. destruct H as [H _]. rewrite H. reflexivity.
  - cbn [newline_runs_ok]. destruct (c =? 10).
    + apply andb_true_iff in H. destruct H as [H1 H2]. rewrite H1.
      apply (IH _ H2).
    + apply (IH _ H).
Qed.

Lemma newline_runs_snoc t : forall run,
  newline_runs_ok run t = true ->
  (forall t' c, t = t' ++ [c] -> is_ws c = false) ->
  (t = [] -> (run < 2)%nat) ->
  newline_runs_ok run (t ++ [10]) = true.
Proof.
  induction t as [|a t IH]; intros run H Hlast Hrun.
  - cbn [app newline_runs_ok]. change (10 =? 10) with true. cbv iota.
    apply andb_true_iff. split; [apply Nat.ltb_lt; auto | reflexivity].
  - assert (Htl : forall t' c, t = t' ++ [c] -> is_ws c = false).
    { intros t' c ->. apply (Hlast (a :: t') c). reflexivity. }
    assert (Hone : t = [] -> (a =? 10) = false).
    { intros ->. specialize (Hlast [] a eq_refl).
      destruct (N.eqb_spec a 10) as [->|]; [discriminate | reflexivity]. }
    cbn [app newline_runs_ok] in *.
    destruct (a =? 10) eqn:Ea.
    + apply andb_true_iff in H. destruct H as [H1 H2]. rewrite H1. cbn [andb].
      apply IH; [exact H2 | exact Htl |]. intros Ht. specialize (Hone Ht). discriminate.
    + apply IH; [exact H | exact Htl | lia].
Qed.

Lemma newline_runs_includes s : forall run,
  newline_runs_ok run s = true ->
  includes [10; 10; 10] s = false
  /\ ((1 <= run)%nat -> starts_with [10; 10] s = false)
  /\ ((2 <= run)%nat -> starts_with [10] s = false).
Proof.
  induction s as [|c r IH]; intros run H.
  - repeat split; reflexivity.
  - cbn [newline_runs_ok] in H. rewrite includes_eq. cbn [starts_with].
    destruct (c =? 10) eqn:Ec.
    + apply N.eqb_eq in Ec. subst c. change (10 =? 10) with true. cbn [andb].
      apply andb_true_iff in H. destruct H as [H1 H2]. apply Nat.ltb_lt in H1.
      destruct (IH _ H2) as (I1 & I2 & I3).
      split; [|split].
      * rewrite I1, orb_false_r. apply I2. lia.
      * intros Hr. apply I3. lia.
      * intros Hr. lia.
    + rewrite N.eqb_sym, Ec. cbn [andb orb].
      destruct (IH _ H) as (I1 & _). repeat split; auto.
Qed.

(** X4. When [removeZoneFromConfigContent] removes a block, what it
    returns is tidy: a body with no white space at either end, followed
    by exactly one newline, and nowhere three newlines in a row. *)
Theorem removeZone_result_normalised content zoneName result :
  removeZoneFromConfigContent content zoneName = Some result ->
  result <> content ->
  exists body,
    result = body ++ nl
    /\ trim body = body
    /\ includes [10; 10; 10] result = false.
Proof.
  unfold removeZoneFromConfigContent.
  destruct (compile_name zoneName) as [search|]; [|discriminate].
  intros H Hne. injection H as H.
  destruct (zone_search search None content) as [startIndex|]; [|congruence].
  destruct (indexOf_char 123 _) as [ob|]; [|congruence].
  destruct (block_end content _) as [[closing endIndex]|]; [|congruence].
  set (joined := slice 0 startIndex content ++ slice_from endIndex content) in H.
  exists (trim (collapse_newlines joined)).
  split; [symmetry; exact H|]. split; [apply trim_idem|].
  rewrite <- H. fold (trim (collapse_newlines joined)).
  apply (newline_runs_includes _ 0%nat).
  apply newline_runs_snoc.
  - apply trimEnd_runs. apply (skip_ws_runs _ 0%nat).
    apply (collapse_newlines_runs joined 0%nat).
  - intros t' c Ht. apply (trimEnd_last _ _ _ Ht).
  - lia.
Qed.

Lemma removeZone_result_normalised_witness :
  exists body,
    one_zone_left = body ++ nl
    /\ trim body = body
    /\ includes [10; 10; 10] one_zone_left = false.
Proof.
  apply (removeZone_result_normalised two_zones (str "example-com.net")
           one_zone_left).
  - vm_compute. reflexivity.
  - intros H. apply (f_equal (@length N)) in H. vm_compute in H. lia.
Defined.

End NormalFormFacts.

(** ** Address lists *)

Module AclFacts.
Import JS BindConfig Measures TokenFacts TextFacts.

Lemma unescape_newlines_cons2 c c' r :
  unescape_newlines (c :: c' :: r)
  = if (c =? 92) && (c' =? 110) then 10 :: unescape_newlines r
    else c :: unescape_newlines (c' :: r).
Proof. reflexivity. Qed.

Lemma unescape_newlines_head c r :
  exists t, unescape_newlines (c :: r) = c :: t
            \/ (c = 92 /\ unescape_newlines (c :: r) = 10 :: t).
Proof.
  destruct r as [|c' r]; [exists []; left; reflexivity|].
  rewrite unescape_newlines_cons2.
  destruct (N.eqb_spec c 92) as [->|]; cbn [andb]; [|eexists; left; reflexivity].
  destruct (c' =? 110); eexists; [right; split; reflexivity | left; reflexivity].
Qed.

Lemma unescape_newlines_clean s : no_escaped_newline (unescape_newlines s) = true.
Proof.
  induction s as [| a | a b l IH1 IH2] using list_ind2; [reflexivity| |].
  - cbn. rewrite andb_false_r. reflexivity.
  - rewrite unescape_newlines_cons2.
    destruct ((a =? 92) && (b =? 110)) eqn:E.
    + cbn [no_escaped_newline]. change (10 =? 92) with false. cbn [andb negb].
      exact IH1.
    + cbn [no_escaped_newline]. rewrite IH2, andb_true_r.
      destruct (unescape_newlines_head b l) as (t & [Ht | [Hb Ht]]); rewrite Ht.
      * rewrite E. reflexivity.
      * change (10 =? 110) with false. rewrite andb_false_r. reflexivity.
Qed.

Lemma unescape_newlines_fixed s :
  no_escaped_newline s = true -> unescape_newlines s = s.
Proof.
  induction s as [| a | a b l IH1 IH2] using list_ind2; [reflexivity..|].
  intros H. cbn [no_escaped_newline] in H.
  apply andb_true_iff in H. destruct H as [H1 H2]. apply negb_true_iff in H1.
  rewrite unescape_newlines_cons2, H1. f_equal. apply IH2. exact H2.
Qed.

Lemma no_escaped_newline_tail c r :
  no_escaped_newline (c :: r) = true -> no_escaped_newline r = true.
Proof. cbn [no_escaped_newline]. intros H. apply andb_true_iff in H. apply H. Qed.

Lemma no_escaped_newline_cons c p r :
  no_escaped_newline (c :: r) = true -> no_escaped_newline p = true ->
  (p = [] \/ hd_error p = hd_error r) ->
  no_escaped_newline (c :: p) = true.
Proof.
  cbn [no_escaped_newline]. intros H Hp Hhd. rewrite Hp, andb_true_r.
  apply andb_true_iff in H. destruct H as [H _].
  destruct Hhd as [-> | Hhd]; [now rewrite andb_false_r|].
  destruct p as [|x p], r as [|y r]; try discriminate; try now rewrite andb_false_r.
  cbn in Hhd. injection Hhd as ->. exact H.
Qed.

Lemma split_on_no_escape sep s :
  no_escaped_newline s = true ->
  Forall (fun p => no_escaped_newline p = true) (split_on sep s).
Proof.
  induction s as [|c r IH]; intros H; [repeat constructor|].
  specialize (IH (no_escaped_newline_tail _ _ H)). rewrite split_on_cons.
  destruct (sep c); [constructor; [reflexivity | exact IH]|].
  destruct (split_on_head sep r) as (p & ps & E & Hhd). rewrite E in *.
  inversion IH; subst. constructor; [|assumption].
  apply (no_escaped_newline_cons c p r); assumption.
Qed.

Lemma skip_ws_no_escape s :
  no_escaped_newline s = true -> no_escaped_newline (skip_ws s) = true.
Proof.
  induction s as [|c r IH]; intros H; [reflexivity|]. rewrite skip_ws_cons.
  destruct (is_ws c); [|exact H]. apply IH, (no_escaped_newline_tail _ _ H).
Qed.

Lemma trimEnd_no_escape s :
  no_escaped_newline s = true -> no_escaped_newline (trimEnd s) = true.
Proof.
  induction s as [|c r IH]; intros H; [reflexivity|].
  specialize (IH (no_escaped_newline_tail _ _ H)).
  pose proof (trimEnd_hd r) as Hhd.
  rewrite trimEnd_cons. destruct (trimEnd r) as [|x r'] eqn:E.
  - destruct (is_ws c); [reflexivity|]. cbn. now rewrite andb_false_r.
  - apply (no_escaped_newline_cons c (x :: r') r); assumption.
Qed.

Lemma normalizeList_flat arr : normalizeList arr = flat_map normalize_item arr.
Proof. reflexivity. Qed.

Lemma normalize_item_clean v :
  Forall (fun x => clean_item x /\ no_escaped_newline x = true) (normalize_item v).
Proof.
  unfold normalize_item. destruct v as [|c r]; [constructor|].
  set (s := unescape_newlines (c :: r)).
  pose proof (split_on_pieces is_list_separator s) as Hfree.
  pose proof (split_on_no_escape is_list_separator s
                (unescape_newlines_clean (c :: r))) as Hesc.
  change (fun c0 : N => (c0 =? 10) || (c0 =? 44) || (c0 =? 59))
    with is_list_separator.
  induction (split_on is_list_separator s) as [|p ps IH]; [constructor|].
  inversion Hfree; subst. inversion Hesc; subst. cbn [map List.filter].
  destruct (text_eqb (trim p) []) eqn:E; cbn [negb]; [auto|].
  constructor; [|auto]. apply text_eqb_neq in E.
  split; [split; [exact E | split; [apply trim_idem|]]|].
  - unfold trim, trimStart. apply trimEnd_forallb, skip_ws_forallb. assumption.
  - unfold trim, trimStart. apply trimEnd_no_escape, skip_ws_no_escape. assumption.
Qed.

Lemma normalize_item_fixed x :
  clean_item x -> no_escaped_newline x = true -> normalize_item x = [x].
Proof.
  intros (Hne & Htrim & Hfree) Hesc. unfold normalize_item.
  destruct x as [|c r]; [congruence|].
  rewrite (unescape_newlines_fixed _ Hesc).
  change (fun c0 : N => (c0 =? 10) || (c0 =? 44) || (c0 =? 59))
    with is_list_separator.
  rewrite (split_on_free _ _ Hfree). cbn [map List.filter]. rewrite Htrim.
  rewrite (proj2 (text_eqb_neq _ _) Hne). reflexivity.
Qed.

(** X5. Every entry that [normalizeList] returns is usable as it is: it
    is not empty, has no white space around it and contains no newline,
    comma or semicolon. *)
Theorem normalizeList_items_clean arr : Forall clean_item (normalizeList arr).
Proof.
  rewrite normalizeList_flat. induction arr as [|v arr IH]; [constructor|].
  cbn [flat_map]. apply Forall_app. split; [|exact IH].
  eapply List.Forall_impl; [|apply normalize_item_clean]. intros x [H _]. exact H.
Qed.

(** X6. Normalising twice changes nothing more: the escaped newlines,
    the separators and the padding are all gone after the first pass. *)
Theorem normalizeList_idempotent arr :
  normalizeList (normalizeList arr) = normalizeList arr.
Proof.
  rewrite (normalizeList_flat (normalizeList arr)), (normalizeList_flat arr).
  assert (H : Forall (fun x => clean_item x /\ no_escaped_newline x = true)
                (flat_map normalize_item arr)).
  { induction arr as [|v arr IH]; [constructor|]. cbn [flat_map].
    apply Forall_app. split; [apply normalize_item_clean | exact IH]. }
  induction H as [|x l [H1 H2] _ IH]; [reflexivity|].
  cbn [flat_map]. rewrite (normalize_item_fixed x H1 H2), IH. reflexivity.
Qed.

End AclFacts.

(** ** Validated writes and reassignment *)

Module WriteFacts.
Import JS BindConfig Pipeline Samples Measures TokenFacts PipelineFacts TextFacts.

Section Collaborators.
Variable Store : Type.
Variable loadSettings : Store -> Settings.
Variable updateSettings : Store -> list ViewEntry -> result Store.
Variable validator : FS -> text -> option text.
Variable reloadBind : World Store -> option text.
Variable getZone : World Store -> text -> result ZoneInfo.

Local Abbreviation writeConfigWithValidation := (writeConfigWithValidation validator).
Local Abbreviation reassign_candidate := (reassign_candidate Store loadSettings).
Local Abbreviation reassign_commit :=
  (reassign_commit Store loadSettings validator getZone).
Local Abbreviation reassignZone :=
  (reassignZone Store loadSettings updateSettings validator reloadBind getZone).

(** X7. A write to a BIND configuration path is all or nothing: if the
    validator accepts the candidate the target holds exactly the new
    content, if it rejects it the target is untouched and the error names
    the diagnostic; either way no temp file is left and no other path has
    changed. *)
Theorem writeConfigWithValidation_all_or_nothing fs now filePath content :
  includes (str "named.conf") filePath = true ->
  let tmpFile := filePath ++ str ".tmp." ++ Z_toString now in
  let '(fs', r) := writeConfigWithValidation fs now filePath content in
  fs' !! tmpFile = None
  /\ (forall p, p <> filePath -> p <> tmpFile -> fs' !! p = fs !! p)
  /\ match validator (writeFile tmpFile content fs) tmpFile with
     | None => r = Ok tt /\ fs' !! filePath = Some content
     | Some diagnostic =>
         r = Err (str "Failed to write config: BIND config validation failed: "
                  ++ diagnostic)
         /\ fs' !! filePath = fs !! filePath
     end.
Proof.
  intros Hconf tmpFile. unfold Pipeline.writeConfigWithValidation.
  rewrite Hconf. fold tmpFile.
  assert (Hne : tmpFile <> filePath) by apply tmp_ne_live.
  destruct (validator _ tmpFile) as [d|].
  - unfold unlink, writeFile. split; [apply lookup_delete_eq|]. split.
    + intros p _ Hp. rewrite lookup_delete_ne by congruence.
      apply lookup_insert_ne. congruence.
    + split; [reflexivity|]. rewrite lookup_delete_ne by exact Hne.
      apply lookup_insert_ne, Hne.
  - unfold move, writeFile. rewrite lookup_insert_eq. split.
    + rewrite lookup_insert_ne by congruence. apply lookup_delete_eq.
    + split.
      * intros p Hp Hp'. rewrite lookup_insert_ne by congruence.
        rewrite lookup_delete_ne by congruence. apply lookup_insert_ne. congruence.
      * split; [reflexivity | apply lookup_insert_eq].
Qed.


(** X9. The early returns of [reassignZone] leave the world as it was:
    the system zones are refused, a failed zone lookup is reported, and a
    zone that is already in the requested view is a successful no-op. *)
Theorem reassignZone_guards w now1 now2 zoneName newViewName :
  (zoneName = str "." \/ zoneName = str "adblock" ->
   reassignZone w now1 now2 zoneName newViewName
   = Some (w, Err (str "Failed to reassign zone: Cannot reassign system zone: "
                   ++ zoneName)))
  /\ (forall m, zoneName <> str "." -> zoneName <> str "adblock" ->
       getZone w zoneName = Err m ->
       reassignZone w now1 now2 zoneName newViewName
       = Some (w, Err (str "Failed to reassign zone: " ++ m)))
  /\ (forall zone, zoneName <> str "." -> zoneName <> str "adblock" ->
       getZone w zoneName = Ok zone ->
       match view zone with Some v => v | None => [] end = newViewName ->
       reassignZone w now1 now2 zoneName newViewName
       = Some (w, Ok (str "Zone already assigned to that view"))).
Proof.
  unfold Pipeline.reassignZone, Pipeline.reassign_commit, reassign_fail.
  split; [|split].
  - intros [-> | ->]; reflexivity.
  - intros m H1 H2 Hz.
    rewrite (proj2 (TokenFacts.text_eqb_neq _ _) H1),
            (proj2 (TokenFacts.text_eqb_neq _ _) H2), Hz. reflexivity.
  - intros zone H1 H2 Hz Hv.
    rewrite (proj2 (TokenFacts.text_eqb_neq _ _) H1),
            (proj2 (TokenFacts.text_eqb_neq _ _) H2), Hz.
    rewrite (proj2 (TokenFacts.text_eqb_eq _ _) Hv). reflexivity.
Qed.

End Collaborators.

Lemma writeConfigWithValidation_all_or_nothing_witness :
  let tmpFile := namedConfLocal ++ str ".tmp." ++ Z_toString 1700000000000 in
  let '(fs', r) :=
    writeConfigWithValidation accept_all (files sample_world) 1700000000000
      namedConfLocal two_zones in
  fs' !! tmpFile = None
  /\ (forall p, p <> namedConfLocal -> p <> tmpFile ->
                fs' !! p = files sample_world !! p)
  /\ match accept_all (writeFile tmpFile two_zones (files sample_world)) tmpFile with
     | None => r = Ok tt /\ fs' !! namedConfLocal = Some two_zones
     | Some diagnostic =>
         r = Err (str "Failed to write config: BIND config validation failed: "
                  ++ diagnostic)
         /\ fs' !! namedConfLocal = files sample_world !! namedConfLocal
     end.
Proof.
  apply (writeConfigWithValidation_all_or_nothing accept_all (files sample_world)
           1700000000000 namedConfLocal two_zones).
  vm_compute. reflexivity.
Defined.


Lemma reassignZone_guards_witness :
  reassignZone Settings sample_load sample_update accept_all reload_ok
    sample_getZone sample_world 1700000000000 1700000000001
    (str "adblock") (str "guest")
  = Some (sample_world,
          Err (str "Failed to reassign zone: Cannot reassign system zone: "
               ++ str "adblock")).
Proof.
  apply (proj1 (reassignZone_guards Settings sample_load sample_update accept_all
                  reload_ok sample_getZone sample_world 1700000000000
                  1700000000001 (str "adblock") (str "guest"))).
  right. reflexivity.
Defined.

Lemma filter_out_count zn zs :
  length (List.filter (text_eqb zn)
            (List.filter (fun z => negb (text_eqb z zn)) zs)) = 0%nat.
Proof.
  induction zs as [|z zs IH]; [reflexivity|]. cbn [List.filter].
  destruct (text_eqb z zn) eqn:E; cbn [negb]; [exact IH|].
  cbn [List.filter]. rewrite text_eqb_sym, E. exact IH.
Qed.

Lemma filter_out_other z zn zs :
  z <> zn ->
  List.filter (text_eqb z) (List.filter (fun x => negb (text_eqb x zn)) zs)
  = List.filter (text_eqb z) zs.
Proof.
  intros Hne. induction zs as [|x zs IH]; [reflexivity|]. cbn [List.filter].
  destruct (text_eqb x zn) eqn:E; cbn [negb].
  - apply text_eqb_eq in E. subst x.
    rewrite (proj2 (text_eqb_neq z zn) Hne). exact IH.
  - cbn [List.filter]. rewrite IH. reflexivity.
Qed.

Lemma count_absent zn zs :
  existsb (text_eqb zn) zs = false -> length (List.filter (text_eqb zn) zs) = 0%nat.
Proof.
  induction zs as [|z zs IH]; [reflexivity|]. cbn [existsb List.filter].
  destruct (text_eqb zn z); [discriminate|]. exact IH.
Qed.

(** X10. After the membership update the zone is listed exactly once, in
    a view named as requested; the views keep their names and order, with
    the requested view appended when it was missing; and the lists of
    every other zone are as they were. *)
Theorem move_membership_single_view views zoneName newViewName :
  let views' := move_membership views zoneName newViewName in
  let is_new := negb (existsb (fun v => text_eqb (view_name v) newViewName) views) in
  membership_count zoneName views' = 1%nat
  /\ Forall (fun v => zone_count zoneName v <> 0%nat -> view_name v = newViewName) views'
  /\ map view_name views'
     = map view_name views ++ (if is_new then [newViewName] else [])
  /\ forall z, z <> zoneName ->
       map (zone_count z) views'
       = map (zone_count z) views ++ (if is_new then [0%nat] else []).
Proof.
  intros views' is_new. subst views' is_new. unfold move_membership.
  set (strip := fun v : ViewEntry => match view_zones v with Some zs => _ | None => _ end).
  set (add := fix add (l : list ViewEntry) (found : bool) := _).
  assert (Hstrip0 : forall v, zone_count zoneName (strip v) = 0%nat).
  { intros [n a [zs|]]; unfold strip, zone_count; cbn; [|reflexivity].
    destruct (existsb (text_eqb zoneName) zs) eqn:E; cbn.
    - apply filter_out_count.
    - apply count_absent, E. }
  assert (Hsum0 : forall l, list_sum (map (zone_count zoneName) (map strip l)) = 0%nat).
  { induction l as [|x l IH]; [reflexivity|].
    change (zone_count zoneName (strip x)
            + list_sum (map (zone_count zoneName) (map strip l)) = 0)%nat.
    rewrite Hstrip0, IH. reflexivity. }
  assert (Hname : forall v, view_name (strip v) = view_name v).
  { intros [n a [zs|]]; unfold strip; cbn; [|reflexivity].
    destruct (existsb _ zs); reflexivity. }
  assert (Hother : forall z v, z <> zoneName ->
                     zone_count z (strip v) = zone_count z v).
  { intros z [n a [zs|]] Hne; unfold strip, zone_count; cbn; [|reflexivity].
    destruct (existsb _ zs); cbn; [|reflexivity].
    rewrite filter_out_other by exact Hne. reflexivity. }
  assert (Hex : existsb (fun v => text_eqb (view_name v) newViewName) (map strip views)
                = existsb (fun v => text_eqb (view_name v) newViewName) views).
  { induction views as [|v l IH]; [reflexivity|]. cbn [map existsb].
    rewrite Hname, IH. reflexivity. }
  rewrite Hex.
  assert (Hadd_true : forall l, add l true = l).
  { induction l as [|v l IH]; [reflexivity|]. cbn. rewrite IH. reflexivity. }
  destruct (existsb _ views) eqn:Hfound; cbn [negb]; cbv iota.
  - clear Hex.
    induction views as [|v l IH]; [discriminate|].
    cbn [map existsb] in *. cbn [add]. cbn [negb andb]. rewrite Hname.
    destruct (text_eqb (view_name v) newViewName) eqn:Ev.
    + rewrite Hadd_true. clear IH Hfound.
      assert (Hz : forall z, length (List.filter (text_eqb z)
                     (if existsb (text_eqb zoneName) (list_or (view_zones (strip v)) [])
                      then list_or (view_zones (strip v)) []
                      else list_or (view_zones (strip v)) [] ++ [zoneName]))
                  = (zone_count z (strip v) + (if text_eqb z zoneName then 1 else 0))%nat).
      { intros z. pose proof (Hstrip0 v) as H0. unfold zone_count in *.
        destruct (existsb _ _) eqn:E.
        - exfalso. apply existsb_exists in E. destruct E as (x & Hin & Hx).
          apply text_eqb_eq in Hx. subst x.
          assert (In zoneName (List.filter (text_eqb zoneName)
                                 (list_or (view_zones (strip v)) []))).
          { apply filter_In. split; [exact Hin | apply text_eqb_refl]. }
          destruct (List.filter _ _); [contradiction | discriminate].
        - rewrite List.filter_app, length_app. cbn [List.filter].
          destruct (text_eqb z zoneName); reflexivity. }
      assert (Hrest : forall z, map (zone_count z) (map strip l)
                                = map (fun v => zone_count z (strip v)) l)
        by (intros; apply map_map).
      split; [|split; [|split]].
      * unfold membership_count. cbn [map].
        match goal with
        | |- list_sum (zone_count ?z ?v :: ?r) = _ =>
            change (zone_count z v + list_sum r = 1)%nat
        end.
        rewrite Hsum0. unfold zone_count at 1.
        cbn [view_zones]. cbn [list_or]. rewrite Hz, Hstrip0, text_eqb_refl.
        reflexivity.
      * constructor.
        -- intros _. cbn. apply text_eqb_eq, Ev.
        -- apply List.Forall_forall. intros x Hx Hc. exfalso. apply Hc.
           apply in_map_iff in Hx. destruct Hx as (y & <- & _). apply Hstrip0.
      * rewrite app_nil_r. cbn [map view_name]. f_equal. rewrite map_map.
        apply map_ext. intros; apply Hname.
      * intros z Hne. rewrite app_nil_r. cbn [map]. f_equal.
        -- unfold zone_count at 1. cbn [view_zones list_or]. rewrite Hz.
           rewrite (proj2 (text_eqb_neq z zoneName) Hne).
           rewrite Hother by exact Hne. cbv iota. apply Nat.add_0_r.
        -- rewrite Hrest. apply map_ext. intros; apply Hother, Hne.
    + cbn [orb] in Hfound. specialize (IH Hfound).
      destruct IH as (H1 & H2 & H3 & H4).
      split; [|split; [|split]].
      * unfold membership_count in *. cbn [map].
        match goal with
        | |- list_sum (zone_count ?z ?v :: ?r) = _ =>
            change (zone_count z v + list_sum r = 1)%nat
        end.
        rewrite Hstrip0. exact H1.
      * constructor; [|exact H2]. intros Hc. exfalso. apply Hc, Hstrip0.
      * cbn [map]. rewrite Hname, H3. reflexivity.
      * intros z Hne. cbn [map]. rewrite Hother, (H4 z Hne) by exact Hne.
        reflexivity.
  - clear Hex Hfound add Hadd_true.
    split; [|split; [|split]].
    + unfold membership_count. rewrite map_app, list_sum_app, Hsum0.
      unfold zone_count. cbn. rewrite text_eqb_refl. reflexivity.
    + apply Forall_app. split.
      * apply List.Forall_forall. intros x Hx Hc. exfalso. apply Hc.
        apply in_map_iff in Hx. destruct Hx as (y & <- & _). apply Hstrip0.
      * constructor; [|constructor]. reflexivity.
    + rewrite map_app, map_map. cbn. f_equal. apply map_ext. intros; apply Hname.
    + intros z Hne. rewrite map_app, map_map. cbn. f_equal.
      * apply map_ext. intros; apply Hother, Hne.
      * unfold zone_count. cbn. rewrite (proj2 (text_eqb_neq z zoneName) Hne).
        reflexivity.
Qed.

End WriteFacts.

(** ** Adding and removing zones on disk *)

Module ConfigOpsFacts.
Import JS BindConfig Pipeline Samples ConfigOps Fixtures.
Import TokenFacts PipelineFacts TextFacts ScannerFacts.

Lemma eq_ci_refl c : eq_ci c c = true.
Proof. apply N.eqb_refl. Qed.

Lemma match_ci_self p r : match_ci p (p ++ r) = Some r.
Proof.
  induction p as [|c p IH]; [destruct r; reflexivity|].
  cbn [app match_ci]. rewrite eq_ci_refl. exact IH.
Qed.

Lemma match_pats_compiled n : forall ps r,
  compile_name n = Some ps -> match_pats ps (n ++ r) = Some r.
Proof.
  induction n as [|c n IH]; intros ps r.
  - intros H. injection H as <-. destruct r; reflexivity.
  - cbn [compile_name]. destruct (compile_char c) as [p|] eqn:Ec; [|discriminate].
    destruct (compile_name n) as [ps'|]; [|discriminate].
    intros H. injection H as <-. cbn [app match_pats].
    assert (Hp : pat_matches p c = true).
    { unfold compile_char in Ec. destruct (N.eqb_spec c 46) as [->|_].
      - injection Ec as <-. reflexivity.
      - destruct (_ || _); [discriminate|]. injection Ec as <-. apply eq_ci_refl. }
    rewrite Hp. apply IH. reflexivity.
Qed.

Lemma zone_header_here_written n ps r :
  compile_name n = Some ps ->
  zone_header_here ps (str "zone " ++ [34] ++ n ++ [34] ++ r) = true.
Proof.
  intros Hc. unfold zone_header_here.
  change (str "zone ") with (str "zone" ++ [32]). rewrite <- app_assoc.
  rewrite match_ci_self. cbn [app]. change (is_ws 32) with true. cbn [andb].
  rewrite skip_ws_cons. change (is_ws 34) with false. cbv iota.
  change (34 =? 34) with true. cbn [andb].
  rewrite (match_pats_compiled _ _ _ Hc). reflexivity.
Qed.

Lemma zone_pattern_test_app ps a b :
  zone_pattern_test ps b = true -> zone_pattern_test ps (a ++ b) = true.
Proof.
  intros H. induction a as [|c a IH]; [exact H|].
  cbn [app zone_pattern_test]. rewrite IH. apply orb_true_r.
Qed.

Lemma zone_pattern_test_here ps s :
  zone_header_here ps s = true -> zone_pattern_test ps s = true.
Proof. intros H. destruct s; cbn [zone_pattern_test]; now rewrite H. Qed.

(** X11. [addZoneToConfig] only ever appends to the configuration, and
    adding the same zone again, with whatever file and type, changes
    nothing: the block written by the first call is found by the test of
    the second. *)
Theorem addZoneToConfig_idempotent fs zoneName zoneFile zoneType fs' :
  addZoneToConfig fs zoneName zoneFile zoneType = Some (fs', Ok tt) ->
  (exists old added,
      fs !! NAMED_CONF_LOCAL = Some old
      /\ fs' !! NAMED_CONF_LOCAL = Some (old ++ added)
      /\ forall p, p <> NAMED_CONF_LOCAL -> fs' !! p = fs !! p)
  /\ forall zoneFile' zoneType',
       addZoneToConfig fs' zoneName zoneFile' zoneType' = Some (fs', Ok tt).
Proof.
  unfold addZoneToConfig.
  destruct (fs !! NAMED_CONF_LOCAL) as [old|] eqn:Hold; [|discriminate].
  destruct (compile_name zoneName) as [ps|] eqn:Hc; [|discriminate].
  destruct (zone_pattern_test ps old) eqn:Ht.
  - intros H. apply outcome_inj in H. subst fs'. split.
    + exists old, []. rewrite app_nil_r. auto.
    + intros zf zt. rewrite Hold, Ht. reflexivity.
  - intros H. apply outcome_inj in H. subst fs'. split.
    + eexists old, _. split; [reflexivity|]. split; [apply lookup_insert_eq|].
      intros p Hp. apply lookup_insert_ne. congruence.
    + intros zf zt. rewrite lookup_insert_eq.
      rewrite zone_pattern_test_app; [reflexivity|].
      apply zone_pattern_test_app, zone_pattern_test_here.
      apply (zone_header_here_written zoneName ps _ Hc).
Qed.

Lemma addZoneToConfig_idempotent_witness :
  (exists old added,
      files sample_world !! NAMED_CONF_LOCAL = Some old
      /\ with_example_org !! NAMED_CONF_LOCAL = Some (old ++ added)
      /\ forall p, p <> NAMED_CONF_LOCAL ->
                   with_example_org !! p = files sample_world !! p)
  /\ forall zoneFile' zoneType',
       addZoneToConfig with_example_org (str "example.org") zoneFile' zoneType'
       = Some (with_example_org, Ok tt).
Proof.
  apply (addZoneToConfig_idempotent (files sample_world) (str "example.org")
           (str "/etc/bind/zones/db.example.org") (str "master")
           with_example_org).
  vm_compute. reflexivity.
Defined.

(** X12. [removeZoneFromConfig] on an existing configuration succeeds:
    the live file holds the cleaned document, a backup of the previous
    content is taken even when nothing is removed, the temp file is gone
    after a change, and no other path is touched. *)
Theorem removeZoneFromConfig_effects fs now1 now2 zoneName old cleaned :
  fs !! NAMED_CONF_LOCAL = Some old ->
  removeZoneFromConfigContent old zoneName = Some cleaned ->
  let backupFile := NAMED_CONF_LOCAL ++ str ".backup." ++ Z_toString now1 in
  let tmpFile := NAMED_CONF_LOCAL ++ str ".tmp." ++ Z_toString now2 in
  exists fs',
    removeZoneFromConfig fs now1 now2 zoneName = Some (fs', Ok tt)
    /\ fs' !! NAMED_CONF_LOCAL = Some cleaned
    /\ fs' !! backupFile = Some old
    /\ fs' !! tmpFile = (if text_eqb cleaned old then fs !! tmpFile else None)
    /\ forall p, p <> NAMED_CONF_LOCAL -> p <> backupFile -> p <> tmpFile ->
                 fs' !! p = fs !! p.
Proof.
  intros Hold Hclean backupFile tmpFile.
  assert (Hne1 : tmpFile <> NAMED_CONF_LOCAL) by apply tmp_ne_live.
  assert (Hne2 : backupFile <> NAMED_CONF_LOCAL) by apply backup_ne_live.
  assert (Hne3 : backupFile <> tmpFile) by apply backup_ne_tmp.
  unfold removeZoneFromConfig, copyFile. rewrite Hold. fold backupFile.
  rewrite lookup_insert_ne by exact Hne2. rewrite Hold, Hclean.
  destruct (text_eqb cleaned old) eqn:E.
  - apply text_eqb_eq in E. subst cleaned.
    eexists. split; [reflexivity|]. split.
    { rewrite lookup_insert_ne by exact Hne2. exact Hold. }
    split; [apply lookup_insert_eq|]. split.
    { apply lookup_insert_ne. exact Hne3. }
    intros p _ Hp _. apply lookup_insert_ne. congruence.
  - fold tmpFile. unfold move, writeFile. rewrite lookup_insert_eq.
    eexists. split; [reflexivity|]. split; [apply lookup_insert_eq|]. split.
    { rewrite lookup_insert_ne by congruence.
      rewrite lookup_delete_ne by congruence.
      rewrite lookup_insert_ne by congruence. apply lookup_insert_eq. }
    split.
    { rewrite lookup_insert_ne by congruence. apply lookup_delete_eq. }
    intros p H1 H2 H3. rewrite lookup_insert_ne by congruence.
    rewrite lookup_delete_ne by congruence.
    rewrite lookup_insert_ne by congruence. apply lookup_insert_ne. congruence.
Qed.

Lemma removeZoneFromConfig_effects_witness :
  let backupFile := NAMED_CONF_LOCAL ++ str ".backup." ++ Z_toString 1700000000000 in
  let tmpFile := NAMED_CONF_LOCAL ++ str ".tmp." ++ Z_toString 1700000000001 in
  exists fs',
    removeZoneFromConfig (files sample_world) 1700000000000 1700000000001
      (str "example.com")
    = Some (fs', Ok tt)
    /\ fs' !! NAMED_CONF_LOCAL = Some nl
    /\ fs' !! backupFile = Some sample_conf
    /\ fs' !! tmpFile
       = (if text_eqb nl sample_conf then files sample_world !! tmpFile else None)
    /\ forall p, p <> NAMED_CONF_LOCAL -> p <> backupFile -> p <> tmpFile ->
                 fs' !! p = files sample_world !! p.
Proof.
  apply (removeZoneFromConfig_effects (files sample_world) 1700000000000
           1700000000001 (str "example.com") sample_conf nl).
  - vm_compute. reflexivity.
  - vm_compute. reflexivity.
Defined.



End ConfigOpsFacts.

(** ** Adding, deleting and updating records *)

Module RecordOpsFacts.
Import JS ZoneRecords BindConfig Pipeline Samples Measures Fixtures.
Import TokenFacts PipelineFacts TextFacts RecordOps.

Lemma split_lines_app_nl a b :
  split_lines (a ++ ZoneRecords.nl ++ b) = split_lines a ++ split_lines b.
Proof.
  unfold split_lines. induction a as [|c a IH]; [reflexivity|].
  cbn [app]. rewrite !split_on_cons. destruct (10 =? c).
  - rewrite IH. reflexivity.
  - rewrite IH. destruct (split_on_head (N.eqb 10) a) as (p & ps & E & _).
    rewrite E. reflexivity.
Qed.

Lemma split_lines_no_newline s :
  Forall (fun l => forallb (fun c => negb (10 =? c)) l = true) (split_lines s).
Proof. apply (split_on_pieces (N.eqb 10)). Qed.

Lemma split_lines_join ls :
  ls <> [] ->
  Forall (fun l => forallb (fun c => negb (10 =? c)) l = true) ls ->
  split_lines (join ZoneRecords.nl ls) = ls.
Proof.
  intros Hne H. induction H as [|l ls Hl Hls IH]; [congruence|].
  destruct ls as [|l' ls'].
  - cbn [join]. apply split_lines_single, Hl.
  - change (join ZoneRecords.nl (l :: l' :: ls'))
      with (l ++ ZoneRecords.nl ++ join ZoneRecords.nl (l' :: ls')).
    rewrite split_lines_app_nl, (split_lines_single _ Hl), IH by discriminate.
    reflexivity.
Qed.

Lemma parse_lines_app l1 : forall l2 id,
  parse_lines (l1 ++ l2) id
  = parse_lines l1 id
    ++ parse_lines l2 (id + Z.of_nat (length (parse_lines l1 id))).
Proof.
  induction l1 as [|l l1 IH]; intros l2 id.
  - cbn. now rewrite Z.add_0_r.
  - cbn [app parse_lines]. destruct (parse_line id l).
    + rewrite IH. cbn [app length]. do 3 f_equal. lia.
    + apply IH.
Qed.

(** The line written for a well-formed record of a type without extra
    columns, read back as line number [id]. *)
Lemma format_parse_line id r ty :
  type r = Some ty -> well_formed_record r = true ->
  ty <> str "MX" -> ty <> str "SRV" ->
  exists line,
    formatRecord r = Some line
    /\ forallb (fun c => negb (10 =? c)) line = true
    /\ parse_line id line
       = Some {| rid := Some id; name := name r; type := Some ty;
                 value := value r; ttl := Some (num_or (ttl r) 3600);
                 priority := None; weight := None; port := None |}.
Proof.
  intros Hty Hwf Hmx Hsrv.
  destruct (well_formed_record_inv _ _ Hty Hwf)
    as (Hnm & Htyt & Hsemi & Hdollar & Hin & S1 & S2 & S3 & Hval).
  destruct (ttl_column (ttl r)) as (tt & Htt & Httt & Hin2 & S4 & Hback).
  unfold formatRecord. rewrite Hty, Htt.
  apply text_eqb_neq in Hmx, Hsrv. rewrite Hmx, Hsrv.
  eexists. split; [reflexivity|].
  repeat rewrite <- app_assoc. rewrite Hval at 1 2.
  pose proof (value_tokens_are_tokens (value r)) as Hvs.
  split.
  - pose proof Hnm as Hnm'. pose proof Httt as Httt'. pose proof Htyt as Htyt'.
    apply is_token_spec in Hnm' as [_ Hnm']. apply is_token_spec in Httt' as [_ Httt'].
    apply is_token_spec in Htyt' as [_ Htyt'].
    rewrite !forallb_app, !padEnd_no_newline, join_no_newline by assumption.
    reflexivity.
  - rewrite (parse_line_words id _ (name r) tt ty (value_tokens (value r))
               (words_formatted _ _ _ _ Hnm Httt Htyt Hvs)); auto.
    + now rewrite Hback, <- Hval.
    + repeat constructor; auto. now apply value_tokens_no_SOA.
Qed.

Lemma parse_line_key id line r :
  parse_line id line = Some r -> line_key line = Some (name r, type r).
Proof.
  unfold parse_line, line_key.
  destruct (starts_with (str ";") (trim line)); [discriminate|].
  destruct (text_eqb (trim line) []); [discriminate|]. cbn [orb].
  destruct (starts_with (str "$") (trim line)); [discriminate|].
  destruct (includes (str "SOA") (trim line)); [discriminate|].
  destruct (4 <=? length (split_ws (trim line)))%nat; [|discriminate].
  destruct (existsb _ (split_ws (trim line))); [|discriminate]. cbn [andb].
  intros H. injection H as <-. reflexivity.
Qed.

Lemma parse_line_columns id id' line :
  option_map record_columns (parse_line id line)
  = option_map record_columns (parse_line id' line).
Proof.
  unfold parse_line.
  destruct (_ || _); [reflexivity|].
  destruct (includes _ _); [reflexivity|].
  destruct (_ && _); reflexivity.
Qed.

Lemma parse_lines_filtered n t lines : forall id id',
  map record_columns
    (parse_lines
       (List.filter (fun line => negb (line_matches n (Some t) line)) lines) id)
  = List.filter (other_record n t) (map record_columns (parse_lines lines id')).
Proof.
  induction lines as [|line lines IH]; intros id id'; [reflexivity|].
  cbn [List.filter parse_lines].
  pose proof (parse_line_columns id id' line) as Hcol.
  destruct (parse_line id' line) as [r'|] eqn:E'.
  - pose proof (parse_line_key _ _ _ E') as Hkey.
    assert (Hm : line_matches n (Some t) line
                 = negb (other_record n t (record_columns r'))).
    { unfold line_matches. rewrite Hkey. unfold other_record, record_columns.
      now rewrite negb_involutive. }
    cbn [map List.filter]. rewrite Hm.
    destruct (other_record n t (record_columns r')) eqn:Eo; cbn [negb].
    + cbn [parse_lines]. destruct (parse_line id line) as [r|]; [|discriminate].
      cbn [map]. cbn [option_map] in Hcol.
      assert (Hr : record_columns r = record_columns r') by congruence.
      rewrite Hr. f_equal. apply IH.
    + apply IH.
  - destruct (line_matches n (Some t) line); cbn [negb]; [apply IH|].
    cbn [parse_lines]. destruct (parse_line id line); [discriminate|]. apply IH.
Qed.

Section Collaborators.
Variable settings : ZoneSettings.
Variable getZone : FS -> text -> result text.
Variable checkZone : FS -> text -> text -> option text.
Variable reloadBind : FS -> option text.

Local Abbreviation addRecord := (addRecord settings getZone checkZone reloadBind).
Local Abbreviation deleteRecord := (deleteRecord settings getZone reloadBind).
Local Abbreviation updateRecord := (updateRecord settings getZone checkZone reloadBind).

Lemma backup_zone_file_spec fs now zoneFile old :
  fs !! zoneFile = Some old ->
  let backupFile := zoneFile ++ str ".backup." ++ Z_toString now in
  exists fs1,
    backup_zone_file settings fs now zoneFile = Some fs1
    /\ fs1 !! zoneFile = Some old
    /\ fs1 !! backupFile
       = (if backupEnabled settings then Some old else fs !! backupFile)
    /\ forall p, p <> backupFile -> fs1 !! p = fs !! p.
Proof.
  intros Hold backupFile. unfold backup_zone_file, copyFile. rewrite Hold.
  fold backupFile.
  assert (Hne : backupFile <> zoneFile) by apply backup_ne_live.
  destruct (backupEnabled settings); eexists; (split; [reflexivity|]).
  - split; [rewrite lookup_insert_ne by exact Hne; exact Hold|].
    split; [apply lookup_insert_eq|].
    intros p Hp. apply lookup_insert_ne. congruence.
  - auto.
Qed.


(** X14. After [addRecord] with a well-formed record of a type other
    than MX and SRV, whose TTL is missing or a safe integer (so that the
    interpreter prints it in plain decimal and reads it back exactly),
    [parseZoneFile] of the zone file returns the records of the old
    content (read after the serial bump) followed by the new record with
    its name, type, value and TTL (3600 when missing or zero), numbered
    one past the previous count. *)
Theorem addRecord_record_listed fs now zoneName record zoneFile old ty :
  getZone fs zoneName = Ok zoneFile ->
  fs !! zoneFile = Some old ->
  type record = Some ty -> well_formed_record record = true ->
  safe_field (ttl record) = true ->
  ty <> str "MX" -> ty <> str "SRV" ->
  exists content',
    fst (addRecord fs now zoneName record) !! zoneFile = Some content'
    /\ parseZoneFile content'
       = parseZoneFile (incrementSerial old)
         ++ [ {| rid := Some (1 + Z.of_nat
                                (length (parseZoneFile (incrementSerial old))))%Z;
                 name := name record; type := Some ty;
                 value := value record;
                 ttl := Some (num_or (ttl record) 3600);
                 priority := None; weight := None; port := None |} ].
Proof.
  intros Hzone Hold Hty Hwf _ Hmx Hsrv.
  destruct (format_parse_line
              (1 + Z.of_nat (length (parseZoneFile (incrementSerial old))))%Z
              record ty Hty Hwf Hmx Hsrv) as (line & Hline & Hnl & Hparse).
  destruct (backup_zone_file_spec fs now zoneFile old Hold)
    as (fs1 & Hb & H1 & _).
  unfold RecordOps.addRecord. rewrite Hzone, Hb, H1, Hline.
  exists (incrementSerial old ++ ZoneRecords.nl ++ line). split.
  { destruct (if validateBeforeReload settings then _ else _);
      [apply lookup_insert_eq|].
    destruct (if autoReload settings then _ else _); apply lookup_insert_eq. }
  unfold parseZoneFile. rewrite split_lines_app_nl, parse_lines_app.
  f_equal. rewrite (split_lines_single _ Hnl). cbn [parse_lines].
  unfold parseZoneFile in Hparse. rewrite Hparse. reflexivity.
Qed.

(** X15. [deleteRecord] drops every record with the given name and
    type, not only the first one, and keeps all the others, in order. *)
Theorem deleteRecord_removes_every_match fs now zoneName recordName recordType
        zoneFile old :
  getZone fs zoneName = Ok zoneFile ->
  fs !! zoneFile = Some old ->
  exists content',
    fst (deleteRecord fs now zoneName recordName recordType) !! zoneFile
    = Some content'
    /\ map record_columns (parseZoneFile content')
       = List.filter (other_record recordName recordType)
           (map record_columns (parseZoneFile (incrementSerial old))).
Proof.
  intros Hzone Hold.
  destruct (backup_zone_file_spec fs now zoneFile old Hold)
    as (fs1 & Hb & H1 & _).
  unfold RecordOps.deleteRecord. rewrite Hzone, Hb, H1.
  set (fs2 := writeFile zoneFile _ fs1).
  exists (delete_lines recordName recordType (incrementSerial old)). split.
  - destruct (if autoReload settings then _ else _); apply lookup_insert_eq.
  - unfold parseZoneFile, delete_lines.
    set (kept := List.filter _ (split_lines (incrementSerial old))).
    destruct kept as [|l ls] eqn:Ek.
    + cbn [join]. rewrite <- (parse_lines_filtered _ _ _ 1%Z 1%Z).
      fold kept. rewrite Ek. reflexivity.
    + rewrite split_lines_join.
      * rewrite <- Ek. apply parse_lines_filtered.
      * discriminate.
      * rewrite <- Ek. apply incl_Forall with (l1 := split_lines (incrementSerial old)).
        -- intros x Hx. apply filter_In in Hx. apply Hx.
        -- apply split_lines_no_newline.
Qed.

(** X16. What the [map] of [updateRecord] does to the lines: nothing
    when no line matches; otherwise the first matching line, and only
    that one, is replaced by the formatted new record. *)
Theorem update_lines_replaces_first oldRecord newRecord lines ls found :
  update_lines oldRecord newRecord lines false = Some (ls, found) ->
  let hit := line_matches (name oldRecord) (type oldRecord) in
  if found then
    exists pre l post formatted,
      lines = pre ++ l :: post
      /\ forallb (fun x => negb (hit x)) pre = true
      /\ hit l = true
      /\ formatRecord newRecord = Some formatted
      /\ ls = pre ++ formatted :: post
  else ls = lines /\ forallb (fun x => negb (hit x)) lines = true.
Proof.
  intros H hit. subst hit.
  assert (Htrue : forall l ls' f,
             update_lines oldRecord newRecord l true = Some (ls', f) ->
             ls' = l /\ f = true).
  { induction l as [|x l IH]; intros ls' f.
    - cbn. intros E. injection E as <- <-. auto.
    - cbn [update_lines]. rewrite andb_false_r.
      destruct (update_lines oldRecord newRecord l true) as [[ls0 f0]|];
        [|discriminate].
      intros E. injection E as <- <-.
      destruct (IH _ _ eq_refl) as [-> ->]. auto. }
  revert ls found H. induction lines as [|x lines IH]; intros ls found.
  - cbn. intros E. injection E as <- <-. auto.
  - cbn [update_lines]. rewrite andb_true_r.
    destruct (line_matches (name oldRecord) (type oldRecord) x) eqn:Ex.
    + destruct (formatRecord newRecord) as [formatted|]; [|discriminate].
      destruct (update_lines oldRecord newRecord lines true) as [[ls0 f0]|] eqn:E0;
        [|discriminate].
      intros E. injection E as <- <-.
      destruct (Htrue _ _ _ E0) as [-> ->].
      exists [], x, lines, formatted. auto.
    + destruct (update_lines oldRecord newRecord lines false) as [[ls0 f0]|] eqn:E0;
        [|discriminate].
      intros E. injection E as <- <-. specialize (IH _ _ eq_refl).
      destruct f0.
      * destruct IH as (pre & l & post & formatted & -> & Hpre & Hl & Hf & ->).
        exists (x :: pre), l, post, formatted. cbn [forallb app].
        rewrite Ex, Hpre. auto.
      * destruct IH as [-> Hall]. cbn [forallb]. rewrite Ex, Hall. auto.
Qed.

(** X17. When no line carries the old record's name and type,
    [updateRecord] fails with "Record not found" and leaves the zone file
    as it was (the bumped serial is not written); the backup, when
    enabled, has been taken all the same. *)
Theorem updateRecord_not_found fs now zoneName oldRecord newRecord zoneFile old :
  getZone fs zoneName = Ok zoneFile ->
  fs !! zoneFile = Some old ->
  forallb (fun x => negb (line_matches (name oldRecord) (type oldRecord) x))
    (split_lines (incrementSerial old)) = true ->
  let backupFile := zoneFile ++ str ".backup." ++ Z_toString now in
  exists fs',
    updateRecord fs now zoneName oldRecord newRecord
    = (fs', Err (str "Failed to update record: " ++ str "Record not found: "
                 ++ name oldRecord ++ str " "
                 ++ match type oldRecord with
                    | Some t => t
                    | None => str "undefined"
                    end))
    /\ fs' !! zoneFile = Some old
    /\ fs' !! backupFile
       = (if backupEnabled settings then Some old else fs !! backupFile)
    /\ forall p, p <> backupFile -> fs' !! p = fs !! p.
Proof.
  intros Hzone Hold Hnone backupFile.
  destruct (backup_zone_file_spec fs now zoneFile old Hold)
    as (fs1 & Hb & H1 & H2 & H3).
  unfold RecordOps.updateRecord. rewrite Hzone, Hb, H1.
  assert (Hup : forall l,
             forallb (fun x => negb (line_matches (name oldRecord)
                                       (type oldRecord) x)) l = true ->
             update_lines oldRecord newRecord l false = Some (l, false)).
  { induction l as [|x l IH]; [reflexivity|]. cbn [forallb update_lines].
    rewrite andb_true_iff, negb_true_iff. intros [-> Hl].
    rewrite (IH Hl). reflexivity. }
  rewrite (Hup _ Hnone). exists fs1.
  split; [reflexivity|]. auto.
Qed.

End Collaborators.


Lemma addRecord_record_listed_witness :
  exists content',
    fst (addRecord backup_and_check zone_lookup check_fails reload_quiet
           zone_fs 1700000000000 (str "example.com") mail_record) !! zone_path
    = Some content'
    /\ parseZoneFile content'
       = parseZoneFile (incrementSerial zone_text)
         ++ [ {| rid := Some (1 + Z.of_nat
                                (length (parseZoneFile (incrementSerial zone_text))))%Z;
                 name := name mail_record; type := Some (str "A");
                 value := value mail_record;
                 ttl := Some (num_or (ttl mail_record) 3600);
                 priority := None; weight := None; port := None |} ].
Proof.
  apply (addRecord_record_listed backup_and_check zone_lookup check_fails
           reload_quiet zone_fs 1700000000000 (str "example.com") mail_record
           zone_path zone_text (str "A")).
  - reflexivity.
  - vm_compute. reflexivity.
  - reflexivity.
  - vm_compute. reflexivity.
  - vm_compute. reflexivity.
  - intros H. vm_compute in H. discriminate.
  - intros H. vm_compute in H. discriminate.
Defined.

Lemma deleteRecord_removes_every_match_witness :
  exists content',
    fst (deleteRecord backup_and_check zone_lookup reload_quiet
           zone_fs 1700000000000 (str "example.com") (str "www") (str "A"))
      !! zone_path
    = Some content'
    /\ map record_columns (parseZoneFile content')
       = List.filter (other_record (str "www") (str "A"))
           (map record_columns (parseZoneFile (incrementSerial zone_text))).
Proof.
  apply (deleteRecord_removes_every_match backup_and_check zone_lookup
           reload_quiet zone_fs 1700000000000 (str "example.com")
           (str "www") (str "A") zone_path zone_text).
  - reflexivity.
  - vm_compute. reflexivity.
Defined.

Lemma update_lines_replaces_first_witness :
  exists pre l post formatted,
    split_lines zone_text = pre ++ l :: post
    /\ forallb (fun x => negb (line_matches (name www_record)
                                 (type www_record) x)) pre = true
    /\ line_matches (name www_record) (type www_record) l = true
    /\ formatRecord mail_record = Some formatted
    /\ zone_lines_updated = pre ++ formatted :: post.
Proof.
  apply (update_lines_replaces_first www_record mail_record
           (split_lines zone_text) zone_lines_updated true).
  vm_compute. reflexivity.
Defined.

Lemma updateRecord_not_found_witness :
  let backupFile := zone_path ++ str ".backup." ++ Z_toString 1700000000000 in
  exists fs',
    updateRecord backup_and_check zone_lookup check_fails reload_quiet
      zone_fs 1700000000000 (str "example.com") mx_record mail_record
    = (fs', Err (str "Failed to update record: " ++ str "Record not found: "
                 ++ name mx_record ++ str " "
                 ++ match type mx_record with
                    | Some t => t
                    | None => str "undefined"
                    end))
    /\ fs' !! zone_path = Some zone_text
    /\ fs' !! backupFile
       = (if backupEnabled backup_and_check then Some zone_text
          else zone_fs !! backupFile)
    /\ forall p, p <> backupFile -> fs' !! p = zone_fs !! p.
Proof.
  apply (updateRecord_not_found backup_and_check zone_lookup check_fails
           reload_quiet zone_fs 1700000000000 (str "example.com")
           mx_record mail_record zone_path zone_text).
  - reflexivity.
  - vm_compute. reflexivity.
  - vm_compute. reflexivity.
Defined.

End RecordOpsFacts.

(** ** Generated and parsed zone files *)

Module ZoneFileFacts.
Import JS ZoneRecords Samples Measures.
Import GenerateFacts NumFacts SerialFacts TokenFacts TextFacts.

(** A positive number below 10^k, written and padded with zeros to [k]
    digits. *)
Lemma padStart0_digits k n :
  0 < n < 10 ^ N.of_nat k ->
  let s := padStart0 k (uint_chars (N.to_uint n)) in
  length s = k /\ forallb is_digit s = true /\ digits_value 0 s = n.
Proof.
  intros Hn s. subst s. unfold padStart0.
  assert (Hlen : (length (uint_chars (N.to_uint n)) <= k)%nat).
  { destruct (to_uint_head n ltac:(lia)) as (c & r & E & _).
    assert (Hw : length (uint_chars (N.to_uint n)) = S (length r))
      by (rewrite E; reflexivity).
    pose proof Hw as Hw'. apply to_uint_width in Hw'; [|lia].
    destruct (Nat.le_gt_cases (S (length r)) k) as [Hle|Hgt]; [lia|].
    exfalso. assert (10 ^ N.of_nat k <= 10 ^ N.of_nat (length r))
      by (apply N.pow_le_mono_r; lia). lia. }
  split; [rewrite length_app, repeat_length; lia|]. split.
  - rewrite forallb_app, uint_chars_digits, andb_true_r.
    induction (k - _)%nat; [reflexivity | assumption].
  - rewrite digits_value_app.
    assert (Hz : forall m, digits_value 0 (repeat 48 m) = 0).
    { induction m as [|m IH]; [reflexivity|]. cbn [repeat].
      unfold digits_value in *. cbn [fold_left]. exact IH. }
    rewrite Hz. apply digits_value_to_uint.
Qed.

(** The digits of the generated serial. *)
Lemma generateSerial_digits now :
  (1000 <= fullYear now <= 9999)%Z ->
  (0 <= month now <= 11)%Z ->
  (1 <= date now <= 31)%Z ->
  length (generateSerial now) = 10%nat
  /\ forallb is_digit (generateSerial now) = true
  /\ parseInt (generateSerial now)
     = JNum (fullYear now * 1000000 + (month now + 1) * 10000
             + date now * 100 + 1)%Z.
Proof.
  intros Hy Hm Hd. unfold generateSerial.
  rewrite !Z_toString_nonneg by lia.
  set (y := Z.to_N (fullYear now)). set (m := Z.to_N (month now + 1)).
  set (d := Z.to_N (date now)).
  destruct (padStart0_digits 4 y ltac:(cbn; lia)) as (Ly & Dy & Vy).
  destruct (padStart0_digits 2 m ltac:(cbn; lia)) as (Lm & Dm & Vm).
  destruct (padStart0_digits 2 d ltac:(cbn; lia)) as (Ld & Dd & Vd).
  assert (Hy4 : length (uint_chars (N.to_uint y)) = 4%nat).
  { apply to_uint_width; [lia | cbn; lia]. }
  unfold padStart0 in Ly, Dy, Vy. rewrite Hy4 in Ly, Dy, Vy.
  cbn [Nat.sub repeat app] in Ly, Dy, Vy.
  set (Y := uint_chars (N.to_uint y)) in *.
  set (M := padStart0 2 (uint_chars (N.to_uint m))) in *.
  set (D := padStart0 2 (uint_chars (N.to_uint d))) in *.
  assert (Hlen : length (Y ++ M ++ D ++ str "01") = 10%nat).
  { rewrite !length_app, Ly, Lm, Ld. reflexivity. }
  assert (Hdig : forallb is_digit (Y ++ M ++ D ++ str "01") = true).
  { rewrite !forallb_app, Dy, Dm, Dd. reflexivity. }
  assert (Hval : digits_value 0 (Y ++ M ++ D ++ str "01")
                 = y * 1000000 + m * 10000 + d * 100 + 1).
  { rewrite !digits_value_app.
    rewrite (digits_value_acc (str "01")), (digits_value_acc D),
            (digits_value_acc M), Vy, Vm, Vd, Lm, Ld.
    change (digits_value 0 (str "01")) with 1.
    change (length (str "01")) with 2%nat.
    change (10 ^ N.of_nat 2) with 100. lia. }
  split; [exact Hlen|]. split; [exact Hdig|].
  rewrite (token_value _ Hlen Hdig), Hval. f_equal. subst y m d. lia.
Qed.

(** X18. For a calendar date with a four-digit year the generated serial
    is the ten-digit number YYYYMMDD01, and the serial line written by
    [generateZoneFile] is one that the pattern of [incrementSerial]
    matches, capturing exactly this serial. *)
Theorem generateSerial_shape now :
  (1000 <= fullYear now <= 9999)%Z ->
  (0 <= month now <= 11)%Z ->
  (1 <= date now <= 31)%Z ->
  length (generateSerial now) = 10%nat
  /\ forallb is_digit (generateSerial now) = true
  /\ parseInt (generateSerial now)
     = JNum (fullYear now * 1000000 + (month now + 1) * 10000
             + date now * 100 + 1)%Z
  /\ forall rest,
       serial_match_here (generateSerial now ++ str "       ; Serial" ++ rest)
       = Some (generateSerial now, rest).
Proof.
  intros Hy Hm Hd.
  destruct (generateSerial_digits now Hy Hm Hd) as (Hlen & Hdig & Hval).
  repeat split; try assumption.
  intros rest. apply serial_match_here_written; assumption.
Qed.

Lemma generateSerial_shape_witness :
  length (generateSerial sample_clock) = 10%nat
  /\ forallb is_digit (generateSerial sample_clock) = true
  /\ parseInt (generateSerial sample_clock)
     = JNum (fullYear sample_clock * 1000000 + (month sample_clock + 1) * 10000
             + date sample_clock * 100 + 1)%Z
  /\ forall rest,
       serial_match_here (generateSerial sample_clock ++ str "       ; Serial" ++ rest)
       = Some (generateSerial sample_clock, rest).
Proof.
  apply (generateSerial_shape sample_clock); simpl; lia.
Defined.

Lemma parse_line_rid id line r : parse_line id line = Some r -> rid r = Some id.
Proof.
  unfold parse_line. destruct (_ || _); [discriminate|].
  destruct (includes _ _); [discriminate|].
  destruct (_ && _); [|discriminate]. intros H. injection H as <-. reflexivity.
Qed.

Lemma parse_lines_ids lines : forall id,
  map rid (parse_lines lines id)
  = map (fun k => Some (id + Z.of_nat k)%Z)
        (seq 0 (length (parse_lines lines id))).
Proof.
  induction lines as [|line lines IH]; intros id; [reflexivity|].
  cbn [parse_lines]. destruct (parse_line id line) as [r|] eqn:E; [|apply IH].
  cbn [length seq map]. rewrite (parse_line_rid _ _ _ E), Z.add_0_r. f_equal.
  rewrite IH, <- seq_shift, map_map. apply map_ext. intros k. f_equal. lia.
Qed.

(** X19. The records returned by [parseZoneFile] are numbered 1, 2, 3,
    ... in the order of their lines; skipped lines use up no number. *)
Theorem parseZoneFile_ids_consecutive content :
  map rid (parseZoneFile content)
  = map (fun k => Some (Z.of_nat k)) (seq 1 (length (parseZoneFile content))).
Proof.
  unfold parseZoneFile. rewrite parse_lines_ids, <- seq_shift, map_map.
  apply map_ext. intros k. f_equal. lia.
Qed.

Lemma drop_dots_spec l :
  exists k, l = repeat 46 k ++ drop_dots l
            /\ forall r, drop_dots l <> 46 :: r.
Proof.
  induction l as [|c l (k & Hk & Hhd)].
  - exists 0%nat. split; [reflexivity | discriminate].
  - cbn [drop_dots]. destruct (N.eqb_spec c 46) as [->|Hc].
    + exists (S k). split; [cbn [repeat app]; f_equal; exact Hk | exact Hhd].
    + exists 0%nat. split; [reflexivity|]. intros r H. congruence.
Qed.

Lemma rev_repeat {A} (x : A) k : rev (repeat x k) = repeat x k.
Proof.
  induction k as [|k IH]; [reflexivity|]. cbn [repeat rev]. rewrite IH.
  clear IH. induction k as [|k IH]; [reflexivity|]. cbn. now rewrite IH.
Qed.

Lemma strip_trailing_dots_spec s :
  exists k, s = strip_trailing_dots s ++ repeat 46 k
            /\ forall b, strip_trailing_dots s <> b ++ [46].
Proof.
  unfold strip_trailing_dots.
  destruct (drop_dots_spec (rev s)) as (k & Hk & Hhd). exists k. split.
  - rewrite <- (rev_involutive s) at 1. rewrite Hk at 1.
    rewrite rev_app_distr, rev_repeat. reflexivity.
  - intros b Hb. apply (f_equal (@rev N)) in Hb.
    rewrite rev_involutive, rev_app_distr in Hb. apply (Hhd _ Hb).
Qed.

Lemma single_trailing_dot_strip s :
  single_trailing_dot (strip_trailing_dots s ++ str ".") s.
Proof.
  destruct (strip_trailing_dots_spec s) as (k & Hk & Hb).
  exists (strip_trailing_dots s), k. auto.
Qed.

(** X20. Whatever name server and contact are given (or defaulted), the
    generated file opens with the header template in which both are
    written with their trailing dots replaced by exactly one dot. *)
Theorem generateZoneFile_single_trailing_dot now zoneName options :
  exists ns email_ rest,
    generateZoneFile now zoneName options
    = zone_header now zoneName (num_or (opt_ttl options) 3600) ns email_ ++ rest
    /\ single_trailing_dot ns
         (text_or (nameserver options) (str "ns1." ++ zoneName ++ str "."))
    /\ single_trailing_dot email_
         (text_or (email options) (str "admin." ++ zoneName ++ str ".")).
Proof.
  unfold generateZoneFile.
  set (ns := strip_trailing_dots (text_or (nameserver options) _) ++ str ".").
  set (email_ := strip_trailing_dots (text_or (email options) _) ++ str ".").
  exists ns, email_.
  assert (Hdots : single_trailing_dot ns
                    (text_or (nameserver options) (str "ns1." ++ zoneName ++ str "."))
                  /\ single_trailing_dot email_
                       (text_or (email options)
                          (str "admin." ++ zoneName ++ str ".")))
    by (split; apply single_trailing_dot_strip).
  destruct (includes (str "in-addr.arpa") zoneName).
  - destruct (match autoGeneratePTR options with Some false => false | _ => true end).
    + rewrite (ptr_loop_lines _ 254 1) by lia.
      eexists. split; [|exact Hdots]. rewrite <- !app_assoc. reflexivity.
    + eexists. split; [|exact Hdots]. rewrite <- !app_assoc. reflexivity.
  - eexists. split; [|exact Hdots]. reflexivity.
Qed.

Lemma strip_suffix_app a suf : strip_suffix suf (a ++ suf) = Some a.
Proof.
  unfold strip_suffix. rewrite rev_app_distr, starts_with_app, length_app.
  f_equal. replace (length a + length suf - length suf)%nat with (length a) by lia.
  rewrite firstn_app, firstn_all, Nat.sub_diag. cbn. apply app_nil_r.
Qed.

Lemma strip_suffix_last_differs suf s x y :
  x <> y -> strip_suffix (suf ++ [x]) (s ++ [y]) = None.
Proof.
  intros Hne. unfold strip_suffix. rewrite !rev_app_distr. cbn [rev app starts_with].
  destruct (N.eqb_spec x y); [congruence | reflexivity].
Qed.

Lemma strip_arpa_reverse_name prefix :
  strip_arpa (prefix ++ str ".in-addr.arpa") = prefix
  /\ strip_arpa (prefix ++ str ".in-addr.arpa.") = prefix.
Proof.
  unfold strip_arpa. split.
  - change (str "in-addr.arpa.") with (str "in-addr.arpa" ++ [46]).
    change (str ".in-addr.arpa") with (str ".in-addr.arp" ++ [97]).
    rewrite app_assoc, strip_suffix_last_differs by discriminate.
    rewrite <- app_assoc.
    change (str ".in-addr.arp" ++ [97]) with (str "." ++ str "in-addr.arpa").
    rewrite app_assoc, strip_suffix_app, strip_suffix_app. reflexivity.
  - change (str ".in-addr.arpa.") with (str "." ++ str "in-addr.arpa.").
    rewrite app_assoc, strip_suffix_app, strip_suffix_app. reflexivity.
Qed.

(** X21. For a reverse zone named by dot-free labels followed by
    [.in-addr.arpa] (with or without the final dot) and no name-server
    address in the options, the glue record gives the name server the
    address made of the labels in reverse order followed by [.1]. *)
Theorem reverse_zone_default_glue now labels suffix zoneName options :
  labels <> [] ->
  Forall (fun l => forallb (fun x => negb (46 =? x)) l = true) labels ->
  suffix = str ".in-addr.arpa" \/ suffix = str ".in-addr.arpa." ->
  zoneName = join (str ".") labels ++ suffix ->
  nsIP options = None -> nameserverIP options = None ->
  exists ns email_ rest,
    generateZoneFile now zoneName options
    = zone_header now zoneName (num_or (opt_ttl options) 3600) ns email_
      ++ ns ++ str "   IN      A       "
      ++ join (str ".") (rev labels) ++ str ".1" ++ ZoneRecords.nl ++ rest.
Proof.
  intros Hne Hlab Hsuf -> Hip1 Hip2.
  assert (Hrev : includes (str "in-addr.arpa")
                   (join (str ".") labels ++ suffix) = true).
  { destruct Hsuf as [-> | ->].
    - change (str ".in-addr.arpa") with (str "." ++ str "in-addr.arpa" ++ []).
      rewrite app_assoc. apply includes_app_intro.
    - change (str ".in-addr.arpa.") with (str "." ++ str "in-addr.arpa" ++ str ".").
      rewrite app_assoc. apply includes_app_intro. }
  assert (Hstrip : strip_arpa (join (str ".") labels ++ suffix)
                   = join (str ".") labels).
  { destruct Hsuf as [-> | ->]; apply strip_arpa_reverse_name. }
  assert (Hsplit : split_on (N.eqb 46) (join (str ".") labels) = labels)
    by exact (split_on_join 46 labels Hne Hlab).
  unfold generateZoneFile. rewrite Hrev, Hstrip, Hip1, Hip2, Hsplit.
  cbn [text_or].
  set (ns := strip_trailing_dots (text_or (nameserver options) _) ++ str ".").
  set (email_ := strip_trailing_dots (text_or (email options) _) ++ str ".").
  set (domain_ := strip_trailing_dots (text_or (domain options) _) ++ str ".").
  exists ns, email_.
  destruct (match autoGeneratePTR options with Some false => false | _ => true end).
  - rewrite (ptr_loop_lines _ 254 1) by lia.
    exists (ZoneRecords.nl ++ str "; PTR records (auto-generated)" ++ ZoneRecords.nl
            ++ str "; Format: <last-octet> IN PTR <hostname>.<domain>"
            ++ ZoneRecords.nl
            ++ concat (map (ptr_line domain_) (map Z.of_nat (seq 1 254)))).
    rewrite <- !app_assoc. reflexivity.
  - exists (ZoneRecords.nl ++ str "; PTR records" ++ ZoneRecords.nl
            ++ str "; Add your PTR records here" ++ ZoneRecords.nl
            ++ str "; Example: 1 IN PTR host1." ++ domain_ ++ ZoneRecords.nl).
    rewrite <- !app_assoc. reflexivity.
Qed.

Lemma reverse_zone_default_glue_witness :
  exists ns email_ rest,
    generateZoneFile sample_clock (str "215.142.103.in-addr.arpa.") no_options
    = zone_header sample_clock (str "215.142.103.in-addr.arpa.")
        (num_or (opt_ttl no_options) 3600) ns email_
      ++ ns ++ str "   IN      A       "
      ++ join (str ".") (rev [str "215"; str "142"; str "103"]) ++ str ".1"
      ++ ZoneRecords.nl ++ rest.
Proof.
  apply (reverse_zone_default_glue sample_clock
           [str "215"; str "142"; str "103"] (str ".in-addr.arpa.")
           (str "215.142.103.in-addr.arpa.") no_options).
  - discriminate.
  - repeat constructor.
  - right. reflexivity.
  - reflexivity.
  - reflexivity.
  - reflexivity.
Defined.

Lemma stops_within_take n : forall s,
  stops_within n s = true -> take_digits n s = None.
Proof.
  induction n as [|n IH]; intros s; [discriminate|]. cbn [stops_within take_digits].
  destruct s as [|c r]; [discriminate|].
  destruct (is_digit c); [|reflexivity]. intros H. now rewrite (IH _ H).
Qed.

Lemma stops_within_sep n : forall t x y,
  starts_plain x = true -> starts_plain y = true ->
  stops_within n (t ++ x) = stops_within n (t ++ y).
Proof.
  induction n as [|n IH]; intros t x y Hx Hy; [reflexivity|].
  destruct t as [|c t].
  - destruct x as [|a x]; [discriminate|]. destruct y as [|b y]; [discriminate|].
    cbn in Hx, Hy. apply negb_true_iff in Hx, Hy.
    cbn [app stops_within]. now rewrite Hx, Hy.
  - cbn [app stops_within]. destruct (is_digit c); [|reflexivity].
    now apply IH.
Qed.

Lemma runs_stop_sep v x y :
  starts_plain x = true -> starts_plain y = true ->
  runs_stop v x = runs_stop v y.
Proof.
  intros Hx Hy. induction v as [|c v IH]; [reflexivity|].
  cbn [runs_stop]. rewrite IH. f_equal.
  apply (stops_within_sep 10 (c :: v) x y Hx Hy).
Qed.

Lemma runs_stop_app a b x :
  runs_stop (a ++ b) x = runs_stop a (b ++ x) && runs_stop b x.
Proof.
  induction a as [|c a IH]; [reflexivity|].
  cbn [app runs_stop]. rewrite IH, <- app_assoc, andb_assoc. reflexivity.
Qed.

Lemma runs_stop_plain l x :
  forallb (fun c => negb (is_digit c)) l = true -> runs_stop l x = true.
Proof.
  induction l as [|c l IH]; [reflexivity|]. cbn [forallb runs_stop app stops_within].
  intros H. apply andb_true_iff in H. destruct H as [Hc Hl].
  apply negb_true_iff in Hc. rewrite Hc. now apply IH.
Qed.

(** Skipping a stretch of text in which no match can start. *)
Lemma serial_search_skip a : forall y b d r,
  runs_stop a y = true ->
  serial_search y = Some (b, d, r) ->
  serial_search (a ++ y) = Some (a ++ b, d, r).
Proof.
  induction a as [|c a IH]; intros y b d r Ha Hy; [exact Hy|].
  cbn [runs_stop] in Ha. apply andb_true_iff in Ha. destruct Ha as [Hc Ha].
  cbn [app]. rewrite serial_search_eq, serial_match_here_eq.
  change (c :: a ++ y) with ((c :: a) ++ y).
  rewrite (stops_within_take _ _ Hc). cbn [app].
  rewrite (IH _ _ _ _ Ha Hy). reflexivity.
Qed.

Lemma serial_search_plain l y b d r :
  forallb (fun c => negb (is_digit c)) l = true ->
  serial_search y = Some (b, d, r) ->
  serial_search (l ++ y) = Some (l ++ b, d, r).
Proof. intros Hl. apply serial_search_skip, runs_stop_plain, Hl. Qed.

Lemma serial_search_field v y b d r :
  no_ten_digits v = true -> starts_plain y = true ->
  serial_search y = Some (b, d, r) ->
  serial_search (v ++ y) = Some (v ++ b, d, r).
Proof.
  intros Hv Hy. apply serial_search_skip.
  rewrite (runs_stop_sep v y [32] Hy eq_refl). exact Hv.
Qed.

Lemma no_ten_digits_normalised s :
  no_ten_digits s = true ->
  no_ten_digits (strip_trailing_dots s ++ str ".") = true.
Proof.
  destruct (strip_trailing_dots_spec s) as (k & Hk & _).
  set (body := strip_trailing_dots s) in *. intros H. rewrite Hk in H.
  unfold no_ten_digits in *. rewrite runs_stop_app in *.
  apply andb_true_iff in H. destruct H as [H _].
  apply andb_true_iff. split; [|reflexivity].
  destruct k as [|k].
  - cbn [repeat app] in H.
    rewrite (runs_stop_sep body (str "." ++ [32]) [32]); auto.
  - rewrite (runs_stop_sep body (str "." ++ [32]) (repeat 46 (S k) ++ [32])); auto.
Qed.

Lemma serial_search_here x d r :
  serial_match_here x = Some (d, r) -> serial_search x = Some ([], d, r).
Proof. intros H. now rewrite serial_search_eq, H. Qed.

(** Every generated file opens with the header template. *)
Lemma generateZoneFile_header now zoneName options :
  exists rest,
    generateZoneFile now zoneName options
    = zone_header now zoneName (num_or (opt_ttl options) 3600)
        (strip_trailing_dots
           (text_or (nameserver options) (str "ns1." ++ zoneName ++ str "."))
         ++ str ".")
        (strip_trailing_dots
           (text_or (email options) (str "admin." ++ zoneName ++ str "."))
         ++ str ".")
      ++ rest.
Proof.
  unfold generateZoneFile.
  destruct (includes (str "in-addr.arpa") zoneName).
  - destruct (match autoGeneratePTR options with Some false => false | _ => true end).
    + rewrite (ptr_loop_lines _ 254 1) by lia.
      eexists. rewrite <- !app_assoc. reflexivity.
    + eexists. rewrite <- !app_assoc. reflexivity.
  - eexists. reflexivity.
Qed.

(** X25. A freshly generated zone file carries a serial that
    [incrementSerial] finds and bumps: for a calendar date with a
    four-digit year, and as long as neither the zone name, the time stamp,
    the TTL, the name server nor the contact holds ten digits in a row,
    the serial read from the generated file is YYYYMMDD01 and the serial
    read after one [incrementSerial] is YYYYMMDD02. *)
Theorem generated_serial_is_bumped now zoneName options :
  (1000 <= fullYear now <= 9999)%Z ->
  (0 <= month now <= 11)%Z ->
  (1 <= date now <= 31)%Z ->
  header_fields_plain now zoneName options = true ->
  let serial :=
    (fullYear now * 1000000 + (month now + 1) * 10000 + date now * 100 + 1)%Z in
  currentSerial (generateZoneFile now zoneName options) = Some (JNum serial)
  /\ currentSerial (incrementSerial (generateZoneFile now zoneName options))
     = Some (JNum (serial + 1)).
Proof.
  intros Hy Hm Hd Hplain serial.
  unfold header_fields_plain in Hplain. rewrite !andb_true_iff in Hplain.
  destruct Hplain as ((((Hzone & Hiso) & Httl) & Hns) & Hemail).
  apply no_ten_digits_normalised in Hns, Hemail.
  destruct (generateSerial_digits now Hy Hm Hd) as (Hlen & Hdig & Hval).
  pose proof (fun rest => serial_match_here_written (generateSerial now) rest
                            Hlen Hdig) as Hhere.
  destruct (generateZoneFile_header now zoneName options) as (rest & ->).
  set (ns := strip_trailing_dots (text_or (nameserver options) _) ++ str ".") in *.
  set (email_ := strip_trailing_dots (text_or (email options) _) ++ str ".") in *.
  assert (Hfound : exists before after,
             serial_search
               (zone_header now zoneName (num_or (opt_ttl options) 3600) ns email_
                ++ rest)
             = Some (before, generateSerial now, after)).
  { unfold zone_header. rewrite <- !app_assoc. eexists. eexists.
    eapply serial_search_plain; [reflexivity|].
    eapply serial_search_field; [exact Hzone | reflexivity |].
    eapply (serial_search_plain ZoneRecords.nl); [reflexivity|].
    eapply serial_search_plain; [reflexivity|].
    eapply serial_search_field; [exact Hiso | reflexivity |].
    eapply (serial_search_plain ZoneRecords.nl); [reflexivity|].
    eapply (serial_search_plain ZoneRecords.nl); [reflexivity|].
    eapply serial_search_plain; [reflexivity|].
    eapply serial_search_field; [exact Httl | reflexivity |].
    eapply (serial_search_plain ZoneRecords.nl); [reflexivity|].
    eapply serial_search_plain; [reflexivity|].
    eapply serial_search_field; [exact Hns | reflexivity |].
    eapply serial_search_plain; [reflexivity|].
    eapply serial_search_field; [exact Hemail | reflexivity |].
    eapply serial_search_plain; [reflexivity|].
    eapply (serial_search_plain ZoneRecords.nl); [reflexivity|].
    eapply serial_search_plain; [reflexivity|].
    apply serial_search_here, Hhere. }
  destruct Hfound as (before & after & Hfound).
  assert (Hcur : currentSerial
                   (zone_header now zoneName (num_or (opt_ttl options) 3600) ns email_
                    ++ rest)
                 = Some (JNum serial)).
  { unfold currentSerial. rewrite Hfound, Hval. reflexivity. }
  split; [exact Hcur|]. apply currentSerial_incremented; [exact Hcur|].
  subst serial. lia.
Qed.

Lemma generated_serial_is_bumped_witness :
  currentSerial (generateZoneFile sample_clock (str "example.com") no_options)
  = Some (JNum 2024010501)
  /\ currentSerial
       (incrementSerial
          (generateZoneFile sample_clock (str "example.com") no_options))
     = Some (JNum 2024010502).
Proof.
  apply (generated_serial_is_bumped sample_clock (str "example.com") no_options).
  - simpl. lia.
  - simpl. lia.
  - simpl. lia.
  - vm_compute. reflexivity.
Defined.

End ZoneFileFacts.

(** ** Address validation *)

Module ValidationFacts.
Import JS Validation NumFacts TokenFacts TextFacts.

Lemma span_digits_spec s :
  forall d r, span is_digit s = (d, r) ->
  s = d ++ r /\ forallb is_digit d = true
  /\ match r with c :: _ => is_digit c = false | [] => True end.
Proof.
  induction s as [|c s IH]; intros d r.
  - cbn. intros H. injection H as <- <-. auto.
  - cbn [span]. destruct (is_digit c) eqn:Ec.
    + destruct (span is_digit s) as [a b]. intros H. injection H as <- <-.
      destruct (IH _ _ eq_refl) as (-> & Ha & Hb). cbn [forallb]. rewrite Ec, Ha. auto.
    + intros H. injection H as <- <-. cbn. auto.
Qed.

Lemma span_digits_stop d c r :
  forallb is_digit d = true -> is_digit c = false ->
  span is_digit (d ++ c :: r) = (d, c :: r).
Proof.
  intros Hd Hc. induction d as [|x d IH]; cbn [app span].
  - rewrite Hc. reflexivity.
  - cbn [forallb] in Hd. apply andb_true_iff in Hd. destruct Hd as [Hx Hd].
    rewrite Hx, (IH Hd). reflexivity.
Qed.

Lemma octet_shape_spec x :
  octet_shape x = true
  <-> forallb is_digit x = true /\ (1 <= length x <= 3)%nat.
Proof.
  unfold octet_shape. rewrite !andb_true_iff, !Nat.leb_le. tauto.
Qed.

Lemma octet_here_dot x rest :
  octet_shape x = true -> octet_here (x ++ 46 :: rest) = Some (46 :: rest).
Proof.
  intros H. apply octet_shape_spec in H. destruct H as [Hd [H1 H3]].
  unfold octet_here. rewrite (span_digits_stop x 46 rest Hd eq_refl).
  apply Nat.leb_le in H1, H3. rewrite H1, H3. reflexivity.
Qed.

Lemma octet_here_end x : octet_shape x = true -> octet_here x = Some [].
Proof.
  intros H. apply octet_shape_spec in H. destruct H as [Hd [H1 H3]].
  unfold octet_here. rewrite (span_all _ _ Hd).
  apply Nat.leb_le in H1, H3. rewrite H1, H3. reflexivity.
Qed.

Lemma octet_here_inv s r :
  octet_here s = Some r ->
  exists x, s = x ++ r /\ octet_shape x = true.
Proof.
  unfold octet_here. destruct (span is_digit s) as [d r'] eqn:E.
  destruct (span_digits_spec _ _ _ E) as (-> & Hd & _).
  destruct (_ && _) eqn:Hl; [|discriminate]. intros H. injection H as <-.
  exists d. split; [reflexivity|]. unfold octet_shape. rewrite Hd. exact Hl.
Qed.

Lemma ipv4Regex_test_spec ip :
  ipv4Regex_test ip = true
  <-> exists a b c d,
        ip = a ++ str "." ++ b ++ str "." ++ c ++ str "." ++ d
        /\ forallb octet_shape [a; b; c; d] = true.
Proof.
  unfold ipv4Regex_test. split.
  - cbn [dotted_octets].
    destruct (octet_here ip) as [[|c1 r1]|] eqn:E1; try discriminate.
    destruct (N.eqb_spec c1 46) as [->|]; [|discriminate].
    destruct (octet_here r1) as [[|c2 r2]|] eqn:E2; try discriminate.
    destruct (N.eqb_spec c2 46) as [->|]; [|discriminate].
    destruct (octet_here r2) as [[|c3 r3]|] eqn:E3; try discriminate.
    destruct (N.eqb_spec c3 46) as [->|]; [|discriminate].
    destruct (octet_here r3) as [[|c4 r4]|] eqn:E4; try discriminate.
    intros _.
    destruct (octet_here_inv _ _ E1) as (a & -> & Ha).
    destruct (octet_here_inv _ _ E2) as (b & -> & Hb).
    destruct (octet_here_inv _ _ E3) as (c & -> & Hc).
    destruct (octet_here_inv _ _ E4) as (d & -> & Hd).
    exists a, b, c, d. rewrite app_nil_r. split; [reflexivity|].
    cbn [forallb]. now rewrite Ha, Hb, Hc, Hd.
  - intros (a & b & c & d & -> & H). cbn [forallb] in H.
    rewrite !andb_true_iff in H. destruct H as (Ha & Hb & Hc & Hd & _).
    change (str ".") with [46]. cbn [dotted_octets app].
    rewrite (octet_here_dot a _ Ha), N.eqb_refl.
    rewrite (octet_here_dot b _ Hb), N.eqb_refl.
    rewrite (octet_here_dot c _ Hc), N.eqb_refl.
    rewrite (octet_here_end d Hd). reflexivity.
Qed.

Lemma digits_no_char x k :
  is_digit k = false -> forallb is_digit x = true ->
  forallb (fun c => negb (k =? c)) x = true.
Proof.
  intros Hk. apply forallb_impl. intros c Hc. apply negb_true_iff, N.eqb_neq.
  intros <-. congruence.
Qed.

Lemma octet_parse x :
  octet_shape x = true ->
  num_leb (parseInt x) 255 = (digits_value 0 x <=? 255).
Proof.
  intros H. apply octet_shape_spec in H. destruct H as [Hd [H1 _]].
  destruct x as [|c s]; [cbn in H1; lia|].
  rewrite (parseInt_digits c s Hd). cbn [num_leb].
  destruct (N.leb_spec (digits_value 0 (c :: s)) 255);
    [apply Z.leb_le | apply Z.leb_gt]; lia.
Qed.

(** X22. [isValidIp] accepts exactly the dotted quads whose four parts
    have one to three digits and a value of at most 255 (leading zeros
    allowed), and, besides them, every text that contains a colon. *)
Theorem isValidIp_spec ip :
  isValidIp ip = true
  <-> (exists a b c d,
         ip = a ++ str "." ++ b ++ str "." ++ c ++ str "." ++ d
         /\ forallb (fun x => octet_shape x && (digits_value 0 x <=? 255))
              [a; b; c; d] = true)
      \/ includes (str ":") ip = true.
Proof.
  unfold isValidIp. destruct (ipv4Regex_test ip) eqn:Et.
  - apply ipv4Regex_test_spec in Et.
    destruct Et as (a & b & c & d & -> & Hs). cbn [forallb] in Hs.
    rewrite !andb_true_iff in Hs. destruct Hs as (Ha & Hb & Hc & Hd & _).
    pose proof (proj1 (octet_shape_spec a) Ha) as [Da _].
    pose proof (proj1 (octet_shape_spec b) Hb) as [Db _].
    pose proof (proj1 (octet_shape_spec c) Hc) as [Dc _].
    pose proof (proj1 (octet_shape_spec d) Hd) as [Dd _].
    assert (Hsplit : split_on (N.eqb 46)
                       (a ++ str "." ++ b ++ str "." ++ c ++ str "." ++ d)
                     = [a; b; c; d]).
    { change (str ".") with [46]. cbn [app].
      rewrite !split_on_app_sep, !split_on_free
        by (apply digits_no_char; [reflexivity | assumption]).
      reflexivity. }
    assert (Hcolon : includes (str ":")
                       (a ++ str "." ++ b ++ str "." ++ c ++ str "." ++ d) = false).
    { change (str ":") with [58]. rewrite includes_char.
      apply not_true_iff_false. intros H. apply existsb_exists in H.
      destruct H as (x & Hin & Hx). apply N.eqb_eq in Hx. subst x.
      change (str ".") with [46] in Hin. cbn [app] in Hin.
      assert (Hno : forall l, forallb is_digit l = true -> ~ In 58 l).
      { intros l Hl Hi. rewrite forallb_forall in Hl. specialize (Hl _ Hi).
        discriminate. }
      apply in_app_or in Hin. destruct Hin as [Hin|Hin]; [exact (Hno _ Da Hin)|].
      apply in_inv in Hin. destruct Hin as [Hin|Hin]; [discriminate|].
      apply in_app_or in Hin. destruct Hin as [Hin|Hin]; [exact (Hno _ Db Hin)|].
      apply in_inv in Hin. destruct Hin as [Hin|Hin]; [discriminate|].
      apply in_app_or in Hin. destruct Hin as [Hin|Hin]; [exact (Hno _ Dc Hin)|].
      apply in_inv in Hin. destruct Hin as [Hin|Hin]; [discriminate|].
      exact (Hno _ Dd Hin). }
    rewrite Hsplit, Hcolon. cbn [forallb].
    rewrite !(octet_parse _ Ha), !(octet_parse _ Hb), !(octet_parse _ Hc),
            !(octet_parse _ Hd).
    split.
    + intros H. left. exists a, b, c, d. split; [reflexivity|].
      cbn [forallb]. rewrite Ha, Hb, Hc, Hd. exact H.
    + intros [(a' & b' & c' & d' & E & H) | H]; [|discriminate].
      assert (Hq : [a'; b'; c'; d'] = [a; b; c; d]).
      { rewrite <- Hsplit, E. cbn [forallb] in H.
        rewrite !andb_true_iff in H.
        destruct H as ((Ha' & _) & (Hb' & _) & (Hc' & _) & (Hd' & _) & _).
        apply octet_shape_spec in Ha', Hb', Hc', Hd'.
        change (str ".") with [46]. cbn [app].
        rewrite !split_on_app_sep, !split_on_free
          by (apply digits_no_char; [reflexivity | tauto]).
        reflexivity. }
      injection Hq as -> -> -> ->. cbn [forallb] in H.
      rewrite Ha, Hb, Hc, Hd in H. exact H.
  - split.
    + intros H. right. destruct (includes (str ":") ip); [reflexivity | discriminate].
    + intros [(a & b & c & d & E & H) | H].
      * exfalso. assert (ipv4Regex_test ip = true); [|congruence].
        apply ipv4Regex_test_spec. exists a, b, c, d. split; [exact E|].
        cbn [forallb] in *. rewrite !andb_true_iff in H.
        destruct H as ((-> & _) & (-> & _) & (-> & _) & (-> & _) & _). reflexivity.
      * rewrite H. reflexivity.
Qed.

End ValidationFacts.

(** ** Brace balance *)

Module BalanceFacts.
Import JS BindConfig Samples Fixtures Measures ResolverConfig.
Import TokenFacts TextFacts ScannerFacts.

Lemma depth_app a b : depth (a ++ b) = (depth a + depth b)%Z.
Proof.
  induction a as [|c a IH]; [reflexivity|]. cbn [app depth]. rewrite IH. lia.
Qed.

Lemma depth_ws c r : is_ws c = true -> depth (c :: r) = depth r.
Proof.
  intros Hc. cbn [depth].
  destruct (N.eqb_spec c 123) as [->|_]; [discriminate|].
  destruct (N.eqb_spec c 125) as [->|_]; [discriminate|]. lia.
Qed.

Lemma depth_skip_ws s : depth (skip_ws s) = depth s.
Proof.
  induction s as [|c s IH]; [reflexivity|]. rewrite skip_ws_cons.
  destruct (is_ws c) eqn:E; [|reflexivity]. now rewrite IH, (depth_ws _ _ E).
Qed.

Lemma depth_trimEnd s : depth (trimEnd s) = depth s.
Proof.
  induction s as [|c s IH]; [reflexivity|]. rewrite trimEnd_cons.
  destruct (trimEnd s) as [|x r] eqn:E.
  - destruct (is_ws c) eqn:Ec.
    + rewrite (depth_ws _ _ Ec), <- IH. reflexivity.
    + cbn [depth] in *. rewrite <- IH. reflexivity.
  - cbn [depth] in *. rewrite <- IH. reflexivity.
Qed.

Lemma depth_collapse s : forall run,
  depth (collapse_newlines_from run s) = depth s.
Proof.
  induction s as [|c s IH]; intros run; [reflexivity|].
  cbn [collapse_newlines_from].
  destruct (N.eqb_spec c 10) as [->|Hc].
  - destruct (run <? 2)%nat; [cbn [depth]|]; rewrite IH; reflexivity.
  - cbn [depth]. rewrite IH. reflexivity.
Qed.

Lemma depth_separators s :
  forallb is_separator s = true -> depth s = 0%Z.
Proof.
  induction s as [|c s IH]; [reflexivity|]. cbn [forallb].
  intros H. apply andb_true_iff in H. destruct H as [Hc Hs].
  cbn [depth]. rewrite (IH Hs).
  destruct (N.eqb_spec c 123) as [->|_]; [discriminate|].
  destruct (N.eqb_spec c 125) as [->|_]; [discriminate|]. reflexivity.
Qed.

(** Before the first opening brace the depth can only go down. *)
Lemma depth_before_open s : forall k,
  indexOf_char 123 s = Some k -> (depth (firstn k s) <= 0)%Z.
Proof.
  induction s as [|c s IH]; intros k; [discriminate|]. cbn [indexOf_char].
  destruct (N.eqb_spec c 123) as [->|Hc].
  - intros H. injection H as <-. cbn. lia.
  - destruct (indexOf_char 123 s) as [j|]; [|discriminate].
    intros H. injection H as <-. cbn [firstn depth].
    specialize (IH j eq_refl).
    destruct (N.eqb_spec c 123); [congruence|].
    destruct (c =? 125); lia.
Qed.

(** X26. Removing a zone block never lowers the brace depth of the
    document, and keeps it exactly when the text between the start of the
    zone header and its opening brace holds no closing brace: a balanced
    document with well-formed zone headers stays balanced. *)
Theorem removeZone_keeps_balance content zoneName search result :
  compile_name zoneName = Some search ->
  removeZoneFromConfigContent content zoneName = Some result ->
  (depth content <= depth result)%Z
  /\ (match zone_search search None content with
      | Some startIndex =>
          match indexOf_char 123 (skipn startIndex content) with
          | Some openBraceIndex =>
              depth (slice startIndex (startIndex + openBraceIndex) content) = 0%Z
          | None => True
          end
      | None => True
      end ->
      depth result = depth content).
Proof.
  intros Hc. unfold removeZoneFromConfigContent. rewrite Hc.
  intros H. injection H as H.
  destruct (zone_search search None content) as [startIndex|];
    [|subst; split; [lia | reflexivity]].
  unfold slice_from in H.
  destruct (indexOf_char 123 (skipn startIndex content)) as [ob|] eqn:Hob;
    [|subst; split; [lia | reflexivity]].
  destruct (block_end content (startIndex + ob)) as [[closing endIndex]|] eqn:Hend;
    [|subst; split; [lia | reflexivity]].
  assert (Hopen : nth_error content (startIndex + ob) = Some 123).
  { rewrite <- nth_error_from. apply indexOf_char_nth, Hob. }
  destruct (block_end_inv _ _ _ _ Hopen Hend)
    as (k & Hj & Hlen & Hclose & Hd & _ & He & Hle).
  destruct (count_separators_spec (skipn (closing + 1) content)) as (_ & Hs2 & _).
  assert (Hres : depth result
                 = (depth (firstn startIndex content)
                    + depth (skipn endIndex content))%Z).
  { rewrite <- H, depth_app. unfold trimStart, collapse_newlines, nl.
    rewrite depth_trimEnd, depth_skip_ws, depth_collapse, depth_app.
    unfold slice. rewrite drop_0, Nat.sub_0_r. cbn [depth].
    change (10 =? 123) with false. change (10 =? 125) with false. cbv iota. lia. }
  assert (Hsplit : depth content
                   = (depth (firstn startIndex content)
                      + depth (slice startIndex (startIndex + ob) content)
                      + depth (slice (startIndex + ob) (closing + 1) content)
                      + depth (slice (closing + 1) endIndex content)
                      + depth (skipn endIndex content))%Z).
  { rewrite <- (take_drop startIndex content) at 1.
    rewrite <- (slice_drop startIndex (startIndex + ob) content) by lia.
    rewrite <- (slice_drop (startIndex + ob) (closing + 1) content) by lia.
    rewrite <- (slice_drop (closing + 1) endIndex content) by lia.
    rewrite !depth_app. lia. }
  assert (Hblock : depth (slice (startIndex + ob) (closing + 1) content) = 0%Z).
  { unfold slice. replace (closing + 1 - (startIndex + ob))%nat with (S (S k)) by lia.
    rewrite (skipn_head _ _ _ Hopen). cbn [firstn depth].
    change (123 =? 123) with true. cbv iota. exact Hd. }
  assert (Hseps : depth (slice (closing + 1) endIndex content) = 0%Z).
  { apply depth_separators. unfold slice. rewrite He.
    replace (closing + 1 + _ - (closing + 1))%nat
      with (count_separators (skipn (closing + 1) content)) by lia.
    exact Hs2. }
  assert (Hhead : (depth (slice startIndex (startIndex + ob) content) <= 0)%Z).
  { unfold slice. replace (startIndex + ob - startIndex)%nat with ob by lia.
    apply depth_before_open, Hob. }
  split; lia.
Qed.

Lemma removeZone_keeps_balance_witness :
  (depth two_zones <= depth one_zone_left)%Z
  /\ (match zone_search dashed_pattern None two_zones with
      | Some startIndex =>
          match indexOf_char 123 (skipn startIndex two_zones) with
          | Some openBraceIndex =>
              depth (slice startIndex (startIndex + openBraceIndex) two_zones)
              = 0%Z
          | None => True
          end
      | None => True
      end ->
      depth one_zone_left = depth two_zones).
Proof.
  apply (removeZone_keeps_balance two_zones (str "example-com.net")
           dashed_pattern one_zone_left).
  - vm_compute. reflexivity.
  - vm_compute. reflexivity.
Defined.

(** Where the zone block goes when the view exists. *)
Lemma insert_existing_view content zoneBlock viewName viewAcl result idx :
  indexOf (str "view " ++ [34] ++ viewName ++ [34]) content = Some idx ->
  insertZoneIntoViewContent content zoneBlock viewName viewAcl = Ok result ->
  exists closing,
    (idx < closing)%nat
    /\ nth_error content closing = Some 125
    /\ result = firstn closing content ++ nl ++ str "    " ++ zoneBlock
                ++ skipn closing content.
Proof.
  intros Hidx. unfold insertZoneIntoViewContent. rewrite Hidx. unfold slice_from.
  destruct (indexOf_char 123 (skipn idx content)) as [ob|] eqn:Hob;
    [|discriminate].
  destruct (block_end content (idx + ob)) as [[closing endIndex]|] eqn:Hend;
    [|discriminate].
  intros H. apply Ok_inj in H. subst result.
  assert (Hopen : nth_error content (idx + ob) = Some 123).
  { rewrite <- nth_error_from. apply indexOf_char_nth, Hob. }
  destruct (block_end_inv _ _ _ _ Hopen Hend)
    as (k & Hb1 & Hb2 & Hclose & _ & _ & Hb3 & Hb4).
  exists closing. split; [lia|]. split; [exact Hclose|].
  rewrite <- (take_slice idx closing) by lia.
  rewrite <- (slice_app idx (idx + ob + 1) closing content) by lia.
  rewrite <- (slice_drop closing endIndex content) by lia.
  unfold slice at 1. rewrite drop_0, Nat.sub_0_r.
  rewrite <- !app_assoc. reflexivity.
Qed.

(** What is appended when the view does not exist. *)
Lemma insert_new_view content zoneBlock viewName viewAcl result :
  indexOf (str "view " ++ [34] ++ viewName ++ [34]) content = None ->
  insertZoneIntoViewContent content zoneBlock viewName viewAcl = Ok result ->
  result = content ++ nl ++ str "view " ++ [34] ++ viewName ++ [34] ++ str " {"
           ++ nl ++ join nl (acl_lines viewAcl) ++ nl ++ nl
           ++ str "    " ++ zoneBlock ++ nl ++ str "};" ++ nl.
Proof.
  intros Hidx. unfold insertZoneIntoViewContent. rewrite Hidx.
  intros H. apply Ok_inj in H. subst result. reflexivity.
Qed.

Lemma depth_join sep l :
  depth sep = 0%Z -> depth (join sep l) = depth_sum l.
Proof.
  intros Hsep. induction l as [|x l IH]; [reflexivity|].
  destruct l as [|y l]; [cbn; lia|].
  change (join sep (x :: y :: l)) with (x ++ sep ++ join sep (y :: l)).
  rewrite !depth_app, IH, Hsep. cbn [depth_sum fold_right]. lia.
Qed.

Lemma depth_acl_lines viewAcl :
  depth (join nl (acl_lines viewAcl))
  = (depth_sum (normalizeList (list_or (allow viewAcl) [str "any"]))
     + depth_sum (normalizeList (list_or (deny viewAcl) [])))%Z.
Proof.
  rewrite depth_join by reflexivity. unfold acl_lines.
  set (allowList := normalizeList (list_or (allow viewAcl) _)).
  set (denyList := normalizeList (list_or (deny viewAcl) _)).
  assert (Hsum : forall a b, depth_sum (a ++ b) = (depth_sum a + depth_sum b)%Z).
  { induction a as [|x a IH]; intros b; [reflexivity|].
    cbn [app depth_sum fold_right]. fold (depth_sum (a ++ b)). fold (depth_sum a).
    rewrite IH. lia. }
  rewrite Hsum. f_equal.
  - destruct allowList as [|x l] eqn:E; [reflexivity|].
    cbn [depth_sum fold_right]. fold (depth_sum l).
    rewrite !depth_app, depth_join by reflexivity.
    change (depth (str "    match-clients { ")) with 1%Z.
    change (depth (str "; };")) with (-1)%Z.
    cbn [depth_sum fold_right]. fold (depth_sum l). lia.
  - destruct denyList as [|x l] eqn:E; [reflexivity|].
    cbn [depth_sum fold_right]. fold (depth_sum l).
    rewrite !depth_app, depth_join by reflexivity.
    change (depth (str "    // deny: ")) with 0%Z.
    change (depth (str ";")) with 0%Z.
    cbn [depth_sum fold_right]. fold (depth_sum l). lia.
Qed.

(** X27. Adding a zone block to a view raises the brace depth of the
    document by the depth of the block when the view exists; when the
    view is created, by the depths of the block, of the view name and of
    the entries of the access list: the braces written around them by the
    template cancel out. *)
Theorem insertZone_depth content zoneBlock viewName viewAcl result :
  insertZoneIntoViewContent content zoneBlock viewName viewAcl = Ok result ->
  depth result
  = (depth content + depth zoneBlock
     + match indexOf (str "view " ++ [34%N] ++ viewName ++ [34%N]) content with
       | Some _ => 0
       | None =>
           depth viewName
           + depth_sum (normalizeList (list_or (allow viewAcl) [str "any"]))
           + depth_sum (normalizeList (list_or (deny viewAcl) []))
       end)%Z.
Proof.
  intros H.
  destruct (indexOf (str "view " ++ [34] ++ viewName ++ [34]) content)
    as [idx|] eqn:Hidx.
  - destruct (insert_existing_view _ _ _ _ _ _ Hidx H) as (closing & _ & _ & ->).
    assert (Hc : depth content
                 = (depth (firstn closing content)
                    + depth (skipn closing content))%Z)
      by (rewrite <- depth_app, take_drop; reflexivity).
    rewrite !depth_app. change (depth nl) with 0%Z.
    change (depth (str "    ")) with 0%Z. lia.
  - rewrite (insert_new_view _ _ _ _ _ Hidx H).
    rewrite !depth_app, depth_acl_lines.
    change (depth nl) with 0%Z. change (depth (str "view ")) with 0%Z.
    change (depth [34]) with 0%Z. change (depth (str " {")) with 1%Z.
    change (depth (str "    ")) with 0%Z. change (depth (str "};")) with (-1)%Z.
    lia.
Qed.

Lemma insertZone_depth_witness :
  depth guest_view_extended
  = (depth guest_view + depth example_block
     + match indexOf (str "view " ++ [34%N] ++ str "guest" ++ [34%N]) guest_view with
       | Some _ => 0
       | None =>
           depth (str "guest")
           + depth_sum (normalizeList (list_or (allow default_acl) [str "any"]))
           + depth_sum (normalizeList (list_or (deny default_acl) []))
       end)%Z.
Proof.
  apply (insertZone_depth guest_view example_block (str "guest") default_acl
           guest_view_extended).
  vm_compute. reflexivity.
Defined.

Lemma depth_forwarders l : forall config,
  depth (fold_left (fun config forwarder =>
                      config ++ str "        " ++ forwarder ++ str ";" ++ nl)
                   l config)
  = (depth config + depth_sum l)%Z.
Proof.
  induction l as [|f l IH]; intros config; [cbn; lia|].
  cbn [fold_left]. rewrite IH, !depth_app.
  change (depth (str "        ")) with 0%Z. change (depth (str ";")) with 0%Z.
  change (depth nl) with 0%Z. cbn [depth_sum fold_right]. fold (depth_sum l). lia.
Qed.

(** X28. The template of [generateResolverConfig] is balanced: the brace
    depth of the generated options file is that of the forwarders and of
    the cache size spliced into it, hence zero when these hold no
    braces, whatever the switches. *)
Theorem generateResolverConfig_depth resolverSettings :
  depth (generateResolverConfig resolverSettings)
  = (depth_sum (match forwarders resolverSettings with
                | Some l => l
                | None => [str "8.8.8.8"; str "8.8.4.4"; str "1.1.1.1";
                           str "1.0.0.1"]
                end)
     + depth (match cacheSize resolverSettings with
              | Some s => s
              | None => str "256M"
              end))%Z.
Proof.
  unfold generateResolverConfig.
  set (fw := match forwarders resolverSettings with Some l => l | None => _ end).
  set (cs := match cacheSize resolverSettings with Some s => s | None => _ end).
  destruct (match adblock resolverSettings with Some b => b | None => false end),
           (match queryLogging resolverSettings with Some b => b | None => false end),
           (match dnssecValidation resolverSettings with Some b => b | None => true end);
    rewrite !depth_app, depth_forwarders, ?depth_app;
    repeat match goal with
           | |- context [depth (str ?s)] =>
               let v := eval vm_compute in (depth (str s)) in
               change (depth (str s)) with v
           end;
    change (depth nl) with 0%Z; change (depth [34]) with 0%Z; lia.
Qed.

End BalanceFacts.
